(** * neutcurve: Hill-curve fitting and the curve-set manager

    A shallow embedding of [neutcurve/hillcurve.py] and
    [neutcurve/curvefits.py], with the properties of their IC50 logic,
    validation and caching.

    Numbers.  Python floats and numpy [float64] scalars are IEEE-754
    binary64 values, embedded as Rocq's primitive [float]; comparisons are
    the IEEE ones (every comparison with NaN is false).  The two kinds of
    scalar differ in one operation the code uses: dividing by zero raises
    [ZeroDivisionError] for two plain Python floats and yields an
    infinity or NaN as soon as one operand is a numpy scalar.  A value that
    can be of either kind is a [pynum].

    Library code ([numpy.power], [numpy.log], [math.log10], the optimizer
    [scipy.optimize.curve_fit], [str.format]) is not part of the
    repository; it is the interface [SciPy] below. *)

From Stdlib Require Import ZArith Lia.
From Stdlib Require Import Floats.PrimFloat Floats.SpecFloat Floats.FloatOps.
From Stdlib Require Floats.FloatAxioms Numbers.Cyclic.Int63.Uint63.
From stdpp Require Import gmap strings list sorting pretty.

(** ** Exceptions and fallible computations *)

(** The exceptions the code raises or lets through, with the text of the
    message where the source gives one (quote characters left out). *)
Inductive exn : Type :=
| ValueError (msg : string)
| RuntimeError (msg : string)
| KeyError (msg : string)
| TypeError
| ZeroDivisionError
| IndexError
| AssertionError.

Inductive result (A : Type) : Type :=
| Ok (a : A)
| Raise (e : exn).
Arguments Ok {A} a.
Arguments Raise {A} e.

#[global] Instance result_ret : MRet result := fun _ a => Ok a.
#[global] Instance result_bind : MBind result := fun _ _ f m =>
  match m with
  | Ok a => f a
  | Raise e => Raise e
  end.

#[global] Instance result_fmap : FMap result := fun _ _ f m =>
  match m with
  | Ok a => Ok (f a)
  | Raise e => Raise e
  end.

(** ** Numbers *)

(** The comparisons of Python and numpy floats, and [float(n)]. *)
Module F.
Definition lt (x y : float) : bool := PrimFloat.ltb x y.
Definition le (x y : float) : bool := PrimFloat.leb x y.
Definition gt (x y : float) : bool := PrimFloat.ltb y x.
Definition ge (x y : float) : bool := PrimFloat.leb y x.
Definition eq (x y : float) : bool := PrimFloat.eqb x y.
Definition of_nat (n : nat) : float :=
  PrimFloat.of_uint63 (Uint63.of_Z (Z.of_nat n)).
End F.

(** A Python-level number: a plain [float] (an argument such as
    [fixtop=1]) or a numpy scalar (an array entry, a fitted parameter). *)
Inductive pynum : Type :=
| PyFloat (x : float)
| NpFloat (x : float).

Definition fval (a : pynum) : float :=
  match a with PyFloat x | NpFloat x => x end.

Definition py_sub (a b : pynum) : pynum :=
  match a, b with
  | PyFloat x, PyFloat y => PyFloat (x - y)
  | _, _ => NpFloat (fval a - fval b)
  end.

(** [a / b]: [float.__truediv__] raises on a zero divisor, numpy does not. *)
Definition py_truediv (a b : pynum) : result pynum :=
  match a, b with
  | PyFloat x, PyFloat y =>
      if F.eq y 0 then Raise ZeroDivisionError else Ok (PyFloat (x / y))
  | _, _ => Ok (NpFloat (fval a / fval b))
  end.

(** Indexing [a[0]] and [a[-1]]. *)
Definition item_first {A} (l : list A) : result A :=
  match l with
  | [] => Raise IndexError
  | x :: _ => Ok x
  end.

Definition item_last {A} (l : list A) : result A :=
  match last l with
  | None => Raise IndexError
  | Some x => Ok x
  end.

Definition item_at {A} (l : list A) (i : nat) : result A :=
  match l !! i with
  | None => Raise IndexError
  | Some x => Ok x
  end.

Definition no_nan (l : list float) : Prop :=
  Forall (fun x => is_nan x = false) l.

(** ** The numeric libraries the code calls *)

Class SciPy : Type := {
  (** [x ** y] on numpy scalars *)
  np_power : float -> float -> float;
  np_log : float -> float;
  np_exp : float -> float;
  (** the C library's [log10], behind [math.log10] *)
  libm_log10 : float -> float;
  (** [scipy.optimize.curve_fit(f, xdata, ydata, p0, sigma)]: the fitted
      parameters, or the exception it raised *)
  curve_fit : (float -> list float -> float) -> list float -> list float ->
              list float -> option (list float) -> result (list float);
  (** [f"{:.{precision}g}".format(x)] *)
  format_g : nat -> float -> string;
  (** [numpy.log] of NaN is NaN *)
  np_log_nan : forall x, is_nan x = true -> is_nan (np_log x) = true;
  (** [curve_fit] checks its data for NaN ([check_finite=True]) *)
  curve_fit_checks : forall f xdata ydata p0 sigma popt,
      curve_fit f xdata ydata p0 sigma = Ok popt -> no_nan xdata
}.

(** ** hillcurve.py: [HillCurve] *)

(** The attributes of a constructed [HillCurve].  [midpoint] and [slope]
    are always fitted, hence numpy scalars; [top] and [bottom] are numpy
    scalars when fitted and the caller's plain numbers when fixed. *)
Record HillCurve : Type := {
  cs : list float;
  fs : list float;
  fs_stderr : option (list float);
  bottom : pynum;
  top : pynum;
  midpoint : float;
  slope : float
}.

Section IC50.
Context `{SciPy}.

(** What [ic50] knows when it reaches its [if method == 'bound'] tail:
    it has returned already, or it has set [bound]. *)
Inductive ic50_phase : Type :=
| Returned (v : float)
| Bound (bound : string).

Definition ic50_classify (self : HillCurve) : result ic50_phase :=
  if F.lt (fval (top self)) 0.5 && F.lt (fval (bottom self)) 0.5 then
    Ok (Bound "bottom")
  else if F.ge (fval (top self)) 0.5 && F.ge (fval (bottom self)) 0.5 then
    Ok (Bound "upper")
  else
    ratio ← py_truediv (py_sub (top self) (PyFloat 0.5))
                       (py_sub (PyFloat 0.5) (bottom self));
    let ic50 := (midpoint self * np_power (fval ratio) (1 / slope self))%float in
    c0 ← item_first (cs self);
    cN ← item_last (cs self);
    if F.le c0 ic50 && F.le ic50 cN then Ok (Returned ic50)
    else if F.lt ic50 c0 then Ok (Bound "bottom")
    else Ok (Bound "upper").

(** [HillCurve.ic50(method)]; [None] is Python's [None]. *)
Definition ic50 (self : HillCurve) (method : string) : result (option float) :=
  ph ← ic50_classify self;
  match ph with
  | Returned v => Ok (Some v)
  | Bound bound =>
      if String.eqb method "bound" then
        if String.eqb bound "upper" then
          cN ← item_last (cs self); Ok (Some cN)
        else if String.eqb bound "lower" then
          c0 ← item_first (cs self); Ok (Some c0)
        else Raise (ValueError ("invalid `bound` " +:+ bound))
      else if negb (String.eqb method "interpolate") then
        Raise (ValueError ("invalid `method` of " +:+ method))
      else Ok None
  end.

(** [ic50 == x] for a value that may be [None]. *)
Definition py_eq (o : option float) (x : float) : bool :=
  match o with
  | Some v => F.eq v x
  | None => false
  end.

Definition ic50_bound (self : HillCurve) : result string :=
  i ← ic50 self "interpolate";
  match i with
  | Some _ => Ok "interpolated"
  | None =>
      b ← ic50 self "bound";
      c0 ← item_first (cs self);
      if py_eq b c0 then Ok "lower"
      else
        cN ← item_last (cs self);
        if py_eq b cN then Ok "upper"
        else Raise (RuntimeError "ic50 is not upper or lower bound")
  end.

Definition ic50_prefix (b : string) : result string :=
  if String.eqb b "interpolated" then Ok EmptyString
  else if String.eqb b "lower" then Ok "<"
  else if String.eqb b "upper" then Ok ">"
  else Raise (KeyError b).

Definition ic50_str (self : HillCurve) (precision : nat) : result string :=
  v ← ic50 self "bound";
  s ← match v with
      | Some x => Ok (format_g precision x)
      | None => Raise TypeError
      end;
  b ← ic50_bound self;
  prefix ← ic50_prefix b;
  Ok (prefix +:+ s).

End IC50.

(** *** The constructor *)

(** [fixbottom] / [fixtop]: [False], a number, or anything else. *)
Inductive fixarg : Type :=
| FixFalse
| FixNum (v : float)
| FixOther.

(** numpy sorts NaN last. *)
Definition np_lt (x y : float) : bool :=
  F.lt x y || (is_nan y && negb (is_nan x)).

Fixpoint sort_insert {A} (p : float * A) (l : list (float * A)) :
    list (float * A) :=
  match l with
  | [] => [p]
  | q :: l' => if np_lt q.1 p.1 then q :: sort_insert p l' else p :: l
  end.

(** [a.argsort()]: the indices that sort [a].  Equal entries keep their
    input order here; numpy's default sort may order them differently. *)
Definition argsort (a : list float) : list nat :=
  (foldr sort_insert [] (zip a (seq 0 (length a)))).*2.

(** [a[idx]] for an index array [idx]. *)
Definition take_idx {A} (a : list A) (idx : list nat) : result (list A) :=
  mapM (item_at a) idx.

Definition np_fold (pick : float -> float -> bool) (a : list float) :
    result float :=
  match a with
  | [] => Raise (ValueError "zero-size array to reduction operation")
  | x :: a' =>
      Ok (foldl (fun m y => if is_nan m then m
                            else if is_nan y then y
                            else if pick m y then y else m) x a')
  end.

(** [a.max()] and [a.min()]; a NaN entry makes the result NaN. *)
Definition np_max : list float -> result float := np_fold F.lt.
Definition np_min : list float -> result float := np_fold F.gt.

Fixpoint first_true (l : list bool) : option nat :=
  match l with
  | [] => None
  | b :: l' => if b then Some 0 else S <$> first_true l'
  end.

(** [scipy.argmax] of a boolean array: its first [True], or 0. *)
Definition np_argmax (l : list bool) : result nat :=
  match l with
  | [] => Raise (ValueError "attempt to get argmax of an empty sequence")
  | _ => Ok (default 0 (first_true l))
  end.

(** [a[:-1] != a[1:]] *)
Definition adjacent_ne (a : list bool) : list bool :=
  zip_with (fun x y => negb (Bool.eqb x y)) (take (length a - 1) a) (drop 1 a).

Definition guess_slope (fs : list float) : result float :=
  f0 ← item_first fs;
  fN ← item_last fs;
  Ok (if F.ge f0 fN then 1.5 else (-1.5))%float.

Definition guess_top (fixtop : fixarg) (slope : float) (fs : list float) :
    result pynum :=
  match fixtop with
  | FixFalse =>
      if F.gt slope 0 then NpFloat <$> np_max fs else NpFloat <$> np_min fs
  | FixNum v => Ok (PyFloat v)
  | FixOther => Raise (ValueError "`fixtop` is not `False` or a number")
  end.

Definition guess_bottom (fixbottom : fixarg) (slope : float) (fs : list float) :
    result pynum :=
  match fixbottom with
  | FixFalse =>
      if F.gt slope 0 then NpFloat <$> np_min fs else NpFloat <$> np_max fs
  | FixNum v => Ok (PyFloat v)
  | FixOther => Raise (ValueError "`fixbottom` is not `False` or a number")
  end.

(** [midval = (self.top - self.bottom) / 2.0] *)
Definition midval (top bottom : pynum) : float :=
  (fval (py_sub top bottom) / 2)%float.

(** The three branches on [midval] that set [self.midpoint].  [cs] and
    [fs] are arrays of dtype float64, as they are for concentrations and
    responses given as floats: the sum [cs[i] + cs[i + 1]] is then a sum of
    floats.  (On an array of integers the source adds in int64; such arrays
    are outside this model.) *)
Definition midpoint_crossing (midval : float) (cs fs : list float)
    (slope : float) : result float :=
  let above := (fun f => F.gt f midval) <$> fs in
  if forallb (fun f => F.gt f midval) fs then
    if F.gt slope 0 then item_last cs else item_first cs
  else if forallb (fun f => F.le f midval) fs then
    if F.gt slope 0 then item_first cs else item_last cs
  else
    i ← np_argmax (adjacent_ne above);
    a ← item_at above i;
    b ← item_at above (i + 1);
    if Bool.eqb a b then Raise AssertionError
    else
      c ← item_at cs i;
      c' ← item_at cs (i + 1);
      Ok ((c + c') / 2)%float.

Definition guess_midpoint (cs fs : list float) (top bottom : pynum)
    (slope : float) : result float :=
  midpoint_crossing (midval top bottom) cs fs slope.

(** Follows the spec's words, for comparison with [midval] and
    [guess_midpoint]: the halfway value between the guessed top and the
    guessed bottom, and the midpoint guess taken at that value. *)
Definition spec_midvalue (top bottom : pynum) : float :=
  ((fval top + fval bottom) / 2)%float.

Definition spec_guess_midpoint (cs fs : list float) (top bottom : pynum)
    (slope : float) : result float :=
  midpoint_crossing (spec_midvalue top bottom) cs fs slope.

Section Constructor.
Context `{SciPy}.

(** [HillCurve.evaluate] and [HillCurve.evaluate_log] *)
Definition evaluate (c m s b t : float) : float :=
  (b + (t - b) / (1 + np_power (c / m) s))%float.

Definition evaluate_log (logc m s b t : float) : float :=
  (b + (t - b) / (1 + np_power (np_exp logc / m) s))%float.

Definition fracinfectivity (self : HillCurve) (c : float) : float :=
  evaluate c (midpoint self) (slope self) (fval (bottom self)) (fval (top self)).

(** The function handed to the optimizer: [func(x, *params)] for the free
    parameters [func_vars], the fixed ones closed over. *)
Definition fit_func (fixbottom fixtop : fixarg) (bottom top : pynum)
    (evalfunc : float -> float -> float -> float -> float -> float)
    (x : float) (params : list float) : float :=
  match fixtop, fixbottom, params with
  | FixFalse, FixFalse, [m; s; b; t] => evalfunc x m s b t
  | FixFalse, FixFalse, _ => nan
  | FixFalse, _, [m; s; t] => evalfunc x m s (fval bottom) t
  | FixFalse, _, _ => nan
  | _, FixFalse, [m; s; b] => evalfunc x m s b (fval top)
  | _, FixFalse, _ => nan
  | _, _, [m; s] => evalfunc x m s (fval bottom) (fval top)
  | _, _, _ => nan
  end.

Definition initguess (fixbottom fixtop : fixarg) (midpoint slope : float)
    (bottom top : pynum) : list float :=
  match fixtop, fixbottom with
  | FixFalse, FixFalse => [midpoint; slope; fval bottom; fval top]
  | FixFalse, _ => [midpoint; slope; fval top]
  | _, FixFalse => [midpoint; slope; fval bottom]
  | _, _ => [midpoint; slope]
  end.

(** The last loop of the constructor: the fitted values replace the
    guesses of the free parameters. *)
Definition set_fitted (fixbottom fixtop : fixarg) (cs fs : list float)
    (fs_stderr : option (list float)) (bottom top : pynum)
    (popt : list float) : result HillCurve :=
  m ← item_at popt 0;
  s ← item_at popt 1;
  match fixtop, fixbottom with
  | FixFalse, FixFalse =>
      b ← item_at popt 2;
      t ← item_at popt 3;
      Ok {| cs := cs; fs := fs; fs_stderr := fs_stderr;
            bottom := NpFloat b; top := NpFloat t; midpoint := m; slope := s |}
  | FixFalse, _ =>
      t ← item_at popt 2;
      Ok {| cs := cs; fs := fs; fs_stderr := fs_stderr;
            bottom := bottom; top := NpFloat t; midpoint := m; slope := s |}
  | _, FixFalse =>
      b ← item_at popt 2;
      Ok {| cs := cs; fs := fs; fs_stderr := fs_stderr;
            bottom := NpFloat b; top := top; midpoint := m; slope := s |}
  | _, _ =>
      Ok {| cs := cs; fs := fs; fs_stderr := fs_stderr;
            bottom := bottom; top := top; midpoint := m; slope := s |}
  end.

(** [HillCurve(cs, fs, fs_stderr=..., fixbottom=..., fixtop=..., fitlogc=...)] *)
Definition HillCurve__init__ (cs0 fs0 : list float)
    (fs_stderr0 : option (list float)) (fixbottom fixtop : fixarg)
    (fitlogc : bool) : result HillCurve :=
  let order := argsort cs0 in
  fs_stderr ← match fs_stderr0 with
              | Some e => Some <$> take_idx e order
              | None => Ok None
              end;
  fs ← take_idx fs0 order;
  cs ← take_idx cs0 order;
  if existsb (fun c => F.le c 0) cs then
    Raise (ValueError "concentrations in `cs` must all be > 0")
  else
    slope ← guess_slope fs;
    top ← guess_top fixtop slope fs;
    bottom ← guess_bottom fixbottom slope fs;
    midpoint ← guess_midpoint cs fs top bottom slope;
    let evalfunc := if fitlogc then evaluate_log else evaluate in
    let xdata := if fitlogc then np_log <$> cs else cs in
    popt ← curve_fit (fit_func fixbottom fixtop bottom top evalfunc)
                     xdata fs
                     (initguess fixbottom fixtop midpoint slope bottom top)
                     fs_stderr;
    set_fitted fixbottom fixtop cs fs fs_stderr bottom top popt.

(** A fitted curve is one the constructor returned. *)
Definition fitted (c : HillCurve) : Prop :=
  exists cs0 fs0 e0 fixbottom fixtop fitlogc,
    HillCurve__init__ cs0 fs0 e0 fixbottom fixtop fitlogc = Ok c.

End Constructor.

(** *** [concentrationRange] *)

(** [math.log10] raises on arguments that are not positive. *)
Definition math_log10 `{SciPy} (x : float) : result float :=
  if F.le x 0 then Raise (ValueError "math domain error")
  else Ok (libm_log10 x).

(** Modelled from numpy's documentation and implementation:
    [linspace(start, stop, num)] is [num] evenly spaced samples
    [i * step + start] with [step = (stop - start) / (num - 1)], the last
    one being [stop] itself; when [step] underflows to zero the samples are
    [(i / (num - 1)) * (stop - start) + start]; a single sample is
    [0 * (stop - start) + start]; a negative [num] is an error. *)
Definition linspace_sample (start stop : float) (n i : nat) : float :=
  let delta := (stop - start)%float in
  if decide (1 < n) then
    if decide (i = n - 1) then stop
    else
      let step := (delta / F.of_nat (n - 1))%float in
      if F.eq step 0 then (F.of_nat i / F.of_nat (n - 1) * delta + start)%float
      else (F.of_nat i * step + start)%float
  else (F.of_nat i * delta + start)%float.

Definition np_linspace (start stop : float) (num : Z) : result (list float) :=
  if (num <? 0)%Z then
    Raise (ValueError "Number of samples must be non-negative")
  else
    let n := Z.to_nat num in
    Ok (linspace_sample start stop n <$> seq 0 n).

(** [scipy.logspace(start, stop, num)] is [10 ** linspace(start, stop, num)]. *)
Definition np_logspace `{SciPy} (start stop : float) (num : Z) :
    result (list float) :=
  y ← np_linspace start stop num;
  Ok (map (np_power 10) y).

Definition concentrationRange `{SciPy} (bottom top : float) (npoints : Z)
    (extend : float) : result (list float) :=
  if F.le top bottom then
    Raise (ValueError "`bottom` must be less than `top`")
  else if F.le bottom 0 then
    Raise (ValueError "`bottom` must be greater than zero")
  else if F.lt extend 0 then
    Raise (ValueError "`extend` must be >= 0")
  else
    logbottom ← math_log10 bottom;
    logtop ← math_log10 top;
    let logrange := (logtop - logbottom)%float in
    if negb (F.gt logrange 0) then Raise AssertionError
    else
      let bottom := (logbottom - logrange * extend)%float in
      let top := (logtop + logrange * extend)%float in
      np_logspace bottom top npoints.

(** ** curvefits.py: [CurveFits] *)

(** *** Data frames *)

(** One row of the tidy input, read through the five column roles.
    Serum, virus and replicate names are strings (the constructor turns
    replicates into strings itself). *)
Record Row : Type := {
  row_serum : string;
  row_virus : string;
  row_replicate : string;
  row_conc : float;
  row_fracinf : float
}.

(** The input frame: its column names and its rows. *)
Record DataFrame : Type := {
  columns : list string;
  rows : list Row
}.

(** One row of [self.df]: the five columns and the two that the averaging
    adds, [stderr] and [count], NaN where a row has no value. *)
Record DfRow : Type := {
  d_serum : string;
  d_virus : string;
  d_replicate : string;
  d_conc : float;
  d_fracinf : float;
  d_stderr : float;
  d_count : float
}.

Definition raw_row (r : Row) : DfRow :=
  {| d_serum := row_serum r; d_virus := row_virus r;
     d_replicate := row_replicate r; d_conc := row_conc r;
     d_fracinf := row_fracinf r; d_stderr := nan; d_count := nan |}.

(** [Series.unique()]: the values in order of first appearance. *)
Fixpoint unique_by {A} (eqb : A -> A -> bool) (l : list A) : list A :=
  match l with
  | [] => []
  | x :: l' => x :: List.filter (fun y => negb (eqb x y)) (unique_by eqb l')
  end.

Definition unique : list string -> list string := unique_by String.eqb.

(** [Series.sort_values()]: ascending, NaN last. *)
Definition sort_values (l : list float) : list float :=
  (foldr sort_insert [] ((fun x => (x, ())) <$> l)).*1.

(** [len(set(l))] for a list of distinct float objects: equal values
    collapse, NaN equals nothing. *)
Definition set_len (l : list float) : nat := length (unique_by F.eq l).

(** [l1 == l2] for two lists of distinct float objects. *)
Fixpoint list_eq (l1 l2 : list float) : bool :=
  match l1, l2 with
  | [], [] => true
  | x :: l1', y :: l2' => F.eq x y && list_eq l1' l2'
  | _, _ => false
  end.

(** *** Replicate averages

    Modelled from pandas' documentation: [groupby(keys)[col]
    .aggregate(['mean', 'sem', 'count'])] makes one row per distinct key,
    keys in sorted order and rows with a NaN key dropped; each statistic
    skips NaN values; [sem] is the sample standard deviation over the
    square root of the count, NaN when fewer than two values contribute. *)

Definition valid_values (l : list float) : list float :=
  List.filter (fun x => negb (is_nan x)) l.

Definition np_sum (l : list float) : float := foldl PrimFloat.add 0%float l.

Definition agg_count (l : list float) : nat := length (valid_values l).

Definition agg_mean (l : list float) : float :=
  (np_sum (valid_values l) / F.of_nat (agg_count l))%float.

Definition agg_sem (l : list float) : float :=
  let n := agg_count l in
  if decide (n <= 1) then nan
  else
    let m := agg_mean l in
    let ss := np_sum ((fun x => (x - m) * (x - m))%float <$> valid_values l) in
    (PrimFloat.sqrt (ss / F.of_nat (n - 1)) / PrimFloat.sqrt (F.of_nat n))%float.

Definition group_key : Type := string * string * float.

Definition key_of (r : DfRow) : group_key := (d_serum r, d_virus r, d_conc r).

Definition key_eq (k1 k2 : group_key) : bool :=
  String.eqb k1.1.1 k2.1.1 && String.eqb k1.1.2 k2.1.2 && F.eq k1.2 k2.2.

Definition key_lt (k1 k2 : group_key) : bool :=
  String.ltb k1.1.1 k2.1.1
  || (String.eqb k1.1.1 k2.1.1
      && (String.ltb k1.1.2 k2.1.2
          || (String.eqb k1.1.2 k2.1.2 && F.lt k1.2 k2.2))).

Fixpoint key_insert (k : group_key) (l : list group_key) : list group_key :=
  match l with
  | [] => [k]
  | q :: l' => if key_lt q k then q :: key_insert k l' else k :: l
  end.

Definition group_keys (df : list DfRow) : list group_key :=
  foldr key_insert []
    (unique_by key_eq
       (List.filter (fun k => negb (is_nan k.2)) (key_of <$> df))).

Definition group_rows (df : list DfRow) (k : group_key) : list DfRow :=
  List.filter (fun r => key_eq (key_of r) k) df.

Definition average_row (df : list DfRow) (k : group_key) : DfRow :=
  let values := d_fracinf <$> group_rows df k in
  {| d_serum := k.1.1; d_virus := k.1.2; d_replicate := "average";
     d_conc := k.2; d_fracinf := agg_mean values;
     d_stderr := agg_sem values; d_count := F.of_nat (agg_count values) |}.

Definition avg_df (df : list DfRow) : list DfRow :=
  average_row df <$> group_keys df.

(** *** The curve-set manager *)

(** A [HillCurve] object: its attributes and its identity, which is the
    number of [HillCurve] constructor calls made before its own. *)
Record object : Type := {
  oid : nat;
  obj : HillCurve
}.

(** A row of the table of [fitParams]; [nreplicates] is a nullable
    integer column. *)
Record ParamRow : Type := {
  p_serum : string;
  p_virus : string;
  p_replicate : string;
  p_nreplicates : option nat;
  p_ic50 : option float;
  p_ic50_bound : string;
  p_ic50_str : string;
  p_midpoint : float;
  p_slope : float;
  p_top : float;
  p_bottom : float
}.

Abbreviation curve_key := (string * string * string)%type.

(** The attributes of a [CurveFits].  [hillcurve_calls] is not an
    attribute of the source: it counts the calls of the [HillCurve]
    constructor, as a test would by instrumenting it. *)
Record CurveFits : Type := {
  conc_col : string;
  fracinf_col : string;
  serum_col : string;
  virus_col : string;
  replicate_col : string;
  fixbottom : fixarg;
  fixtop : fixarg;
  df : list DfRow;
  sera : list string;
  viruses : gmap string (list string);
  replicates : gmap (string * string) (list string);
  _hillcurves : gmap curve_key object;
  _fitparams : option (list ParamRow);
  hillcurve_calls : nat
}.

Definition set_hillcurves (f : gmap curve_key object -> gmap curve_key object)
    (self : CurveFits) : CurveFits :=
  {| conc_col := conc_col self; fracinf_col := fracinf_col self;
     serum_col := serum_col self; virus_col := virus_col self;
     replicate_col := replicate_col self;
     fixbottom := fixbottom self; fixtop := fixtop self;
     df := df self; sera := sera self; viruses := viruses self;
     replicates := replicates self;
     _hillcurves := f (_hillcurves self);
     _fitparams := _fitparams self;
     hillcurve_calls := hillcurve_calls self |}.

Definition set_fitparams (t : option (list ParamRow)) (self : CurveFits) :
    CurveFits :=
  {| conc_col := conc_col self; fracinf_col := fracinf_col self;
     serum_col := serum_col self; virus_col := virus_col self;
     replicate_col := replicate_col self;
     fixbottom := fixbottom self; fixtop := fixtop self;
     df := df self; sera := sera self; viruses := viruses self;
     replicates := replicates self;
     _hillcurves := _hillcurves self;
     _fitparams := t;
     hillcurve_calls := hillcurve_calls self |}.

Definition count_call (self : CurveFits) : CurveFits :=
  {| conc_col := conc_col self; fracinf_col := fracinf_col self;
     serum_col := serum_col self; virus_col := virus_col self;
     replicate_col := replicate_col self;
     fixbottom := fixbottom self; fixtop := fixtop self;
     df := df self; sera := sera self; viruses := viruses self;
     replicates := replicates self;
     _hillcurves := _hillcurves self;
     _fitparams := _fitparams self;
     hillcurve_calls := S (hillcurve_calls self) |}.

(** **** [CurveFits.__init__] *)

(** The sorted concentrations of one replicate:
    [virus_data.query("replicate == @rep")[conc_col].sort_values().tolist()] *)
Definition replicate_concs (virus_data : list Row) (rep : string) : list float :=
  sort_values
    (row_conc <$> List.filter (fun r => String.eqb (row_replicate r) rep) virus_data).

(** The inner loop [for rep2 in virus_reps[i + 1:]].  The source computes
    [conc2] with the query [replicate == @rep1]. *)
Fixpoint check_later_replicates (virus_data : list Row) (serum virus : string)
    (rep1 : string) (conc1 : list float) (later : list string) : result unit :=
  match later with
  | [] => Ok ()
  | rep2 :: later' =>
      let conc2 := replicate_concs virus_data rep1 in
      if negb (list_eq conc1 conc2) then
        Raise (ValueError ("replicates " +:+ rep1 +:+ " and " +:+ rep2 +:+
                           " have different concentrations for " +:+
                           serum +:+ ", " +:+ virus))
      else check_later_replicates virus_data serum virus rep1 conc1 later'
  end.

(** The loop [for i, rep1 in enumerate(virus_reps)]. *)
Fixpoint check_replicates (virus_data : list Row) (serum virus : string)
    (virus_reps : list string) : result unit :=
  match virus_reps with
  | [] => Ok ()
  | rep1 :: later =>
      let conc1 := replicate_concs virus_data rep1 in
      if negb (length conc1 =? set_len conc1) then
        Raise (ValueError ("duplicate concentrations for " +:+
                           serum +:+ ", " +:+ virus +:+ ", " +:+ rep1))
      else
        _ ← check_later_replicates virus_data serum virus rep1 conc1 later;
        check_replicates virus_data serum virus later
  end.

(** The loop [for virus in serum_viruses], threading [self.replicates]. *)
Fixpoint init_viruses (serum_data : list Row) (serum : string)
    (serum_viruses : list string)
    (reps : gmap (string * string) (list string)) :
    result (gmap (string * string) (list string)) :=
  match serum_viruses with
  | [] => Ok reps
  | virus :: more =>
      let virus_data :=
        List.filter (fun r => String.eqb (row_virus r) virus) serum_data in
      let virus_reps := unique (row_replicate <$> virus_data) in
      if existsb (String.eqb "average") virus_reps then
        Raise (ValueError "A replicate is named average. This is not allowed as that name is used for replicate averages.")
      else
        let reps := <[(serum, virus) := virus_reps ++ ["average"]]> reps in
        _ ← check_replicates virus_data serum virus virus_reps;
        init_viruses serum_data serum more reps
  end.

(** The loop [for serum in self.sera], threading [self.viruses] and
    [self.replicates]. *)
Fixpoint init_sera (data : list Row) (sera : list string)
    (vs : gmap string (list string))
    (reps : gmap (string * string) (list string)) :
    result (gmap string (list string) * gmap (string * string) (list string)) :=
  match sera with
  | [] => Ok (vs, reps)
  | serum :: more =>
      let serum_data :=
        List.filter (fun r => String.eqb (row_serum r) serum) data in
      let serum_viruses := unique (row_virus <$> serum_data) in
      let vs := <[serum := serum_viruses]> vs in
      reps ← init_viruses serum_data serum serum_viruses reps;
      init_sera data more vs reps
  end.

(** [len(cols) != len(set(cols))] *)
Definition has_duplicates (cols : list string) : bool :=
  negb (length cols =? length (unique cols)).

(** [CurveFits(data, conc_col=..., ..., fixbottom=..., fixtop=...)] *)
Definition CurveFits__init__ (data : DataFrame)
    (conc_col fracinf_col serum_col virus_col replicate_col : string)
    (fixbottom fixtop : fixarg) : result CurveFits :=
  let cols := [serum_col; virus_col; replicate_col; conc_col; fracinf_col] in
  if has_duplicates cols then
    Raise (ValueError "duplicate column names")
  else if negb (forallb (fun c => existsb (String.eqb c) (columns data)) cols) then
    Raise (ValueError "`data` lacks required columns")
  else
    let df := raw_row <$> rows data in
    let sera := unique (row_serum <$> rows data) in
    '(viruses, replicates) ← init_sera (rows data) sera ∅ ∅;
    if existsb (String.eqb "stderr") cols then
      Raise (ValueError "`data` has column stderr")
    else
      Ok {| conc_col := conc_col; fracinf_col := fracinf_col;
            serum_col := serum_col; virus_col := virus_col;
            replicate_col := replicate_col;
            fixbottom := fixbottom; fixtop := fixtop;
            df := df ++ avg_df df;
            sera := sera; viruses := viruses; replicates := replicates;
            _hillcurves := ∅; _fitparams := None; hillcurve_calls := 0 |}.

(** **** Methods: state and exceptions

    A method takes the object and returns its result, or the exception it
    raised, with the object as the call left it. *)
Definition method (A : Type) : Type := CurveFits -> result A * CurveFits.

Definition ret {A} (a : A) : method A := fun self => (Ok a, self).

Definition bind {A B} (m : method A) (f : A -> method B) : method B :=
  fun self =>
    match m self with
    | (Ok a, self') => f a self'
    | (Raise e, self') => (Raise e, self')
    end.

Definition lift {A} (r : result A) : method A := fun self => (r, self).

Notation "'do' x <- m ; k" := (bind m (fun x => k))
  (at level 10, x name, m at level 100, k at level 200,
   format "'do'  x  <-  m ; '//' k").

Section Methods.
Context `{SciPy}.

(** The body of [if key not in self._hillcurves], up to the call of the
    [HillCurve] constructor: the checks of the key, the slice [idata] and
    the choice of [fs_stderr]. *)
Definition curve_data (self : CurveFits) (serum virus replicate : string) :
    result (list float * list float * option (list float)) :=
  if negb (existsb (String.eqb serum) (sera self)) then
    Raise (ValueError ("invalid `serum` of " +:+ serum))
  else
    match viruses self !! serum with
    | None => Raise (KeyError serum)
    | Some serum_viruses =>
        if negb (existsb (String.eqb virus) serum_viruses) then
          Raise (ValueError ("invalid `virus` of " +:+ virus +:+
                             " for `serum` of " +:+ serum))
        else
          match replicates self !! (serum, virus) with
          | None => Raise (KeyError (serum +:+ ", " +:+ virus))
          | Some reps =>
              if negb (existsb (String.eqb replicate) reps) then
                Raise (ValueError ("invalid `replicate` of " +:+ replicate +:+
                                   " for `serum` of " +:+ serum +:+
                                   " and `virus` of " +:+ virus))
              else
                let idata :=
                  List.filter (fun r => String.eqb (d_serum r) serum
                                        && String.eqb (d_virus r) virus
                                        && String.eqb (d_replicate r) replicate)
                              (df self) in
                if forallb (fun r => is_nan (d_stderr r)) idata then
                  Ok (d_conc <$> idata, d_fracinf <$> idata, None)
                else if existsb (fun r => is_nan (d_stderr r)) idata then
                  Raise (RuntimeError "`stderr` has some but not all entries NaN")
                else
                  Ok (d_conc <$> idata, d_fracinf <$> idata,
                      Some (d_stderr <$> idata))
          end
    end.

(** [CurveFits.getCurve(serum=..., virus=..., replicate=...)] *)
Definition getCurve (serum virus replicate : string) : method object :=
  fun self =>
    let key := (serum, virus, replicate) in
    match _hillcurves self !! key with
    | Some curve => (Ok curve, self)
    | None =>
        match curve_data self serum virus replicate with
        | Raise e => (Raise e, self)
        | Ok (cs, fs, fs_stderr) =>
            let id := hillcurve_calls self in
            let self := count_call self in
            match HillCurve__init__ cs fs fs_stderr
                    (fixbottom self) (fixtop self) true with
            | Raise e => (Raise e, self)
            | Ok c =>
                let curve := {| oid := id; obj := c |} in
                (Ok curve, set_hillcurves (insert key curve) self)
            end
        end
    end.

(** The body of the innermost loop of [fitParams]: one row of the table. *)
Definition param_row (serum virus replicate : string) (nreplicates : nat)
    (curve : HillCurve) : result ParamRow :=
  i ← ic50 curve "bound";
  b ← ic50_bound curve;
  s ← ic50_str curve 3;
  Ok {| p_serum := serum; p_virus := virus; p_replicate := replicate;
        p_nreplicates := if String.eqb replicate "average"
                         then Some nreplicates else None;
        p_ic50 := i; p_ic50_bound := b; p_ic50_str := s;
        p_midpoint := midpoint curve; p_slope := slope curve;
        p_top := fval (top curve); p_bottom := fval (bottom curve) |}.

(** [for replicate in replicates] *)
Fixpoint replicate_rows (serum virus : string) (nreplicates : nat)
    (reps : list string) : method (list ParamRow) :=
  match reps with
  | [] => ret []
  | replicate :: more =>
      do curve <- getCurve serum virus replicate;
      do row <- lift (param_row serum virus replicate nreplicates (obj curve));
      do rest <- replicate_rows serum virus nreplicates more;
      ret (row :: rest)
  end.

(** [for virus in self.viruses[serum]] *)
Fixpoint virus_rows (serum : string) (vs : list string) :
    method (list ParamRow) :=
  match vs with
  | [] => ret []
  | virus :: more =>
      do reps <- (fun self =>
                    (match replicates self !! (serum, virus) with
                     | Some reps => Ok reps
                     | None => Raise (KeyError (serum +:+ ", " +:+ virus))
                     end, self));
      let nreplicates :=
        length (List.filter (fun r => negb (String.eqb r "average")) reps) in
      if negb (Z.of_nat nreplicates =? Z.of_nat (length reps) - 1)%Z then
        lift (Raise AssertionError)
      else
        do rows <- replicate_rows serum virus nreplicates reps;
        do rest <- virus_rows serum more;
        ret (rows ++ rest)
  end.

(** [for serum in self.sera] *)
Fixpoint serum_rows (sera : list string) : method (list ParamRow) :=
  match sera with
  | [] => ret []
  | serum :: more =>
      do vs <- (fun self =>
                  (match viruses self !! serum with
                   | Some vs => Ok vs
                   | None => Raise (KeyError serum)
                   end, self));
      do rows <- virus_rows serum vs;
      do rest <- serum_rows more;
      ret (rows ++ rest)
  end.

(** The body of [if self._fitparams is None].  Selecting the columns of a
    frame built from no rows at all fails. *)
Definition compute_fitparams : method unit :=
  do rows <- (fun self => serum_rows (sera self) self);
  match rows with
  | [] => lift (Raise (KeyError "serum"))
  | _ => fun self => (Ok (), set_fitparams (Some rows) self)
  end.

(** [CurveFits.fitParams(average_only=...)] *)
Definition fitParams (average_only : bool) : method (list ParamRow) :=
  do _ <- (fun self =>
             match _fitparams self with
             | None => compute_fitparams self
             | Some _ => (Ok (), self)
             end);
  fun self =>
    match _fitparams self with
    | None => (Raise TypeError, self)
    | Some table =>
        if average_only then
          (Ok (List.filter (fun r => String.eqb (p_replicate r) "average") table),
           self)
        else (Ok table, self)
    end.

End Methods.

(** * Specifications

    The notions the properties are stated with: the order of floats, the
    states a [CurveFits] can reach, what its caches must hold, and the
    concrete inputs the properties are run on. *)

(** ** Keys of binary64 numbers

    The comparisons of [float] are specified through [SFcompare]; on the
    numbers that are not NaN they are the lexicographic order of a key. *)

Definition rank (f : spec_float) : Z * Z * Z :=
  match f with
  | S754_zero _ => (0, 0, 0)
  | S754_infinity true => (-2, 0, 0)
  | S754_infinity false => (2, 0, 0)
  | S754_nan => (0, 0, 0)
  | S754_finite true m e => (-1, - e, Z.neg m)
  | S754_finite false m e => (1, e, Z.pos m)
  end%Z.

Definition key (x : float) : Z * Z * Z := rank (Prim2SF x).

Definition lex (a b : Z * Z * Z) : comparison :=
  match (a.1.1 ?= b.1.1)%Z with
  | Eq => match (a.1.2 ?= b.1.2)%Z with
          | Eq => (a.2 ?= b.2)%Z
          | c => c
          end
  | c => c
  end.

Definition klt (a b : Z * Z * Z) : Prop :=
  (a.1.1 < b.1.1 \/
   (a.1.1 = b.1.1 /\ (a.1.2 < b.1.2 \/ (a.1.2 = b.1.2 /\ a.2 < b.2))))%Z.

(** Ascending by the first component. *)
Definition fst_le {A} (p q : float * A) : Prop := F.le p.1 q.1 = true.

Section Vocabulary.
Context `{SciPy}.

(** ** The IC50 *)

(** The formula of the docstring, [m * ((t - 0.5) / (0.5 - b)) ** (1 / s)],
    on numpy scalars. *)
Definition algebraic_ic50 (c : HillCurve) : float :=
  (midpoint c *
   np_power ((fval (top c) - 0.5) / (0.5 - fval (bottom c))) (1 / slope c))%float.

(** Top and bottom are neither both below 0.5 nor both at least 0.5. *)
Definition straddles_half (c : HillCurve) : bool :=
  negb (F.lt (fval (top c)) 0.5 && F.lt (fval (bottom c)) 0.5)
  && negb (F.ge (fval (top c)) 0.5 && F.ge (fval (bottom c)) 0.5).

(** The one division of [ic50] that can raise: both operands plain Python
    floats and [0.5 - bottom] zero. *)
Definition zero_division (c : HillCurve) : bool :=
  match top c, bottom c with
  | PyFloat _, PyFloat b => F.eq (0.5 - b) 0
  | _, _ => false
  end.

(** ** The life of a [CurveFits] *)

(** The states a [CurveFits] goes through after [self]: any sequence of
    calls of [getCurve] and [fitParams]. *)
Inductive steps (self : CurveFits) : CurveFits -> Prop :=
| steps_refl : steps self self
| steps_getCurve self' serum virus replicate :
    steps self self' ->
    steps self (getCurve serum virus replicate self').2
| steps_fitParams self' average_only :
    steps self self' ->
    steps self (fitParams average_only self').2.

(** A [CurveFits] in use: constructed, then called any number of times. *)
Definition reachable (self : CurveFits) : Prop :=
  exists data conc_col fracinf_col serum_col virus_col replicate_col
         fixbottom fixtop self0,
    CurveFits__init__ data conc_col fracinf_col serum_col virus_col
      replicate_col fixbottom fixtop = Ok self0 /\
    steps self0 self.

(** The attributes that no method assigns. *)
Definition same_data (a b : CurveFits) : Prop :=
  df a = df b /\ sera a = sera b /\ viruses a = viruses b /\
  replicates a = replicates b /\ fixbottom a = fixbottom b /\
  fixtop a = fixtop b.

(** How a method call may change the object: cache entries and the table
    are added, never replaced or dropped. *)
Definition evolves (a b : CurveFits) : Prop :=
  same_data a b /\
  (forall k o, _hillcurves a !! k = Some o -> _hillcurves b !! k = Some o) /\
  (forall t, _fitparams a = Some t -> _fitparams b = Some t) /\
  hillcurve_calls a <= hillcurve_calls b.

(** The cache holds, under each key, the curve constructed from the data of
    that key, and no object twice. *)
Definition cache_ok (self : CurveFits) : Prop :=
  (forall k o, _hillcurves self !! k = Some o ->
     oid o < hillcurve_calls self /\
     exists cs fs e,
       curve_data self k.1.1 k.1.2 k.2 = Ok (cs, fs, e) /\
       HillCurve__init__ cs fs e (fixbottom self) (fixtop self) true
         = Ok (obj o)) /\
  (forall k1 k2 o1 o2,
     _hillcurves self !! k1 = Some o1 -> _hillcurves self !! k2 = Some o2 ->
     oid o1 = oid o2 -> k1 = k2).

(** A method respects a relation between the object before and after the
    call; the loops of [fitParams] respect what [getCurve] respects. *)
Definition respects (R : relation CurveFits) {A} (m : method A) : Prop :=
  forall self, R self (m self).2.

(** A call keeps the cache in order and only adds to the object. *)
Definition sound (a b : CurveFits) : Prop :=
  cache_ok a -> cache_ok b /\ evolves a b.

(** A call leaves the table of [fitParams] alone. *)
Definition same_table (a b : CurveFits) : Prop :=
  _fitparams b = _fitparams a.

(** ** The table of [fitParams] *)

Definition row_key (r : ParamRow) : curve_key :=
  (p_serum r, p_virus r, p_replicate r).

(** Every key the object knows: for each serum, each of its viruses, each
    replicate of the two, in the order of the three indices. *)
Definition all_keys (self : CurveFits) : list curve_key :=
  concat
    ((fun serum =>
        concat
          ((fun virus =>
              (fun replicate => (serum, virus, replicate))
                <$> default [] (replicates self !! (serum, virus)))
             <$> default [] (viruses self !! serum)))
       <$> sera self).

(** The number of replicates of a serum and virus, the average not
    counted. *)
Definition nreplicates_of (self : CurveFits) (serum virus : string) : nat :=
  length (List.filter (fun r => negb (String.eqb r "average"))
            (default [] (replicates self !! (serum, virus)))).

(** The replicate count of a row: present on the rows of the average. *)
Definition count_on_average (self : CurveFits) (r : ParamRow) : Prop :=
  p_nreplicates r =
  if String.eqb (p_replicate r) "average"
  then Some (nreplicates_of self (p_serum r) (p_virus r)) else None.

(** [average_only] applied to the full table. *)
Definition select (average_only : bool) (full : list ParamRow) : list ParamRow :=
  if average_only
  then List.filter (fun r => String.eqb (p_replicate r) "average") full
  else full.

(** The full table: one row for each key, in order. *)
Definition full_table (self : CurveFits) (full : list ParamRow) : Prop :=
  row_key <$> full = all_keys self /\ Forall (count_on_average self) full /\
  Forall (fun serum =>
            Forall (fun virus =>
                      "average"%string ∈
                        default [] (replicates self !! (serum, virus)))
                   (default [] (viruses self !! serum)))
         (sera self).

(** A cached table is the full table. *)
Definition table_ok (a b : CurveFits) : Prop :=
  same_data a b /\
  ((forall full, _fitparams a = Some full -> full_table a full) ->
   (forall full, _fitparams b = Some full -> full_table b full)).

(** ** The data of a constructed [CurveFits] *)

(** The rows of one serum and virus, and their replicates: [virus_data] and
    [virus_reps] of the constructor. *)
Definition virus_rows_of (data : list Row) (serum virus : string) : list Row :=
  List.filter (fun r => String.eqb (row_virus r) virus)
    (List.filter (fun r => String.eqb (row_serum r) serum) data).

Definition virus_reps_of (data : list Row) (serum virus : string) : list string :=
  unique (row_replicate <$> virus_rows_of data serum virus).

(** What the constructor has checked of the entries of [self.replicates]. *)
Definition replicates_checked (data : list Row)
    (reps : gmap (string * string) (list string)) : Prop :=
  forall serum virus l,
    reps !! (serum, virus) = Some l ->
    l = (virus_reps_of data serum virus ++ ["average"%string]) /\
    ("average"%string ∉ virus_reps_of data serum virus) /\
    check_replicates (virus_rows_of data serum virus) serum virus
      (virus_reps_of data serum virus) = Ok ().

(** The data frame and the replicate index of a [CurveFits], in terms of
    the rows it was constructed from. *)
Definition data_ok (self : CurveFits) : Prop :=
  exists data : list Row,
    df self = (raw_row <$> data) ++ avg_df (raw_row <$> data) /\
    (forall row, row ∈ data -> row_replicate row <> "average"%string) /\
    replicates_checked data (replicates self).

(** The rows that [getCurve] slices out of the data frame. *)
Definition idata (self : CurveFits) (serum virus replicate : string) :
    list DfRow :=
  List.filter (fun r => String.eqb (d_serum r) serum
                        && String.eqb (d_virus r) virus
                        && String.eqb (d_replicate r) replicate)
              (df self).

End Vocabulary.

(** ** A stand-in for the numeric libraries

    Used to run the model on concrete inputs: the power is defined for the
    base 1 and for the exponents 0, 1, 2 and 1/2 only, the logarithms and
    the exponential are the identity, and the optimizer returns its initial
    guess once it has checked its data for NaN. *)
Definition test_scipy : SciPy.
Proof.
  refine {| np_power := fun x y =>
              if F.eq x 1 then 1%float
              else if F.eq y 1 then x
              else if F.eq y 0 then 1%float
              else if F.eq y 2 then (x * x)%float
              else if F.eq y 0.5 then PrimFloat.sqrt x
              else nan;
            np_log := fun x => x;
            np_exp := fun x => x;
            libm_log10 := fun x => x;
            curve_fit := fun _ xdata _ p0 _ =>
              if forallb (fun x => negb (is_nan x)) xdata then Ok p0
              else Raise (ValueError "array must not contain infs or NaNs");
            format_g := fun _ _ => "#"%string |}.
  - done.
  - intros f xdata ydata p0 sigma popt.
    destruct (forallb _ xdata) eqn:E; [intros _ | done].
    apply Forall_forall. intros x Hx%list_elem_of_In.
    rewrite forallb_forall in E. specialize (E x Hx). by destruct (is_nan x).
Defined.

(** The same stand-in, but with the base-10 logarithm that the C library
    gives at [1e10] and at the next number above it,
    [10000000000.000002]: 10.0 for both. *)
Definition test_scipy_log10 : SciPy :=
  {| np_power := @np_power test_scipy;
     np_log := @np_log test_scipy;
     np_exp := @np_exp test_scipy;
     libm_log10 := fun x =>
       if F.le 1e10 x && F.le x 0x1.2a05f20000001p+33 then 10%float else x;
     curve_fit := @curve_fit test_scipy;
     format_g := @format_g test_scipy;
     np_log_nan := @np_log_nan test_scipy;
     curve_fit_checks := @curve_fit_checks test_scipy |}.

(** ** Concrete inputs *)

(** [HillCurve([1, 2, 4], [0.25, 0.125, 0.0625], fixbottom=0, fixtop=0.25)] *)
Definition curve_low : HillCurve :=
  {| cs := [1; 2; 4]%float; fs := [0.25; 0.125; 0.0625]%float;
     fs_stderr := None; bottom := PyFloat 0; top := PyFloat 0.25;
     midpoint := 1.5; slope := 1.5 |}.

(** The curve of [cs = [1, 2, 4]] and [fs = [1, 0.5, 0]] with the bottom
    fixed to 0, as the stand-in fits it: its parameters are the initial
    guesses.  These responses are a step, which a Hill curve reaches only
    in the limit of an infinite slope: the least-squares problem has no
    minimiser, and the curve serves to run the model only. *)
Definition curve_mid : HillCurve :=
  {| cs := [1; 2; 4]%float; fs := [1; 0.5; 0]%float;
     fs_stderr := None; bottom := PyFloat 0; top := PyFloat 1;
     midpoint := 1.5; slope := 1.5 |}.

(** [HillCurve([0.25, 1.0, 3.0, 8.0], [0.9576762876752065,
    0.7387961250362586, 0.35247044508942466, 0.1111111111111111],
    fixbottom=0)].  The responses are the values at the concentrations of
    the Hill curve with top 1, bottom 0, midpoint 2 and slope 1.5, so the
    initial guess (the midpoint 2 between the concentrations 1 and 3 where
    the responses cross 0.5, and the slope 1.5) fits the data already and
    is what the optimizer returns, up to rounding. *)
Definition curve_hill : HillCurve :=
  {| cs := [0.25; 1; 3; 8]%float;
     fs := [0x1.ea548bdf707c8p-1; 0x1.7a437c56e26f9p-1;
            0x1.68ee0329dcd17p-2; 0x1.c71c71c71c71cp-4]%float;
     fs_stderr := None; bottom := PyFloat 0; top := PyFloat 1;
     midpoint := 2; slope := 1.5 |}.

(** [HillCurve([1, 2, 4], [0.25, 0.375, 0.5], fixbottom=0.5, fixtop=0.25)] *)
Definition curve_half : HillCurve :=
  {| cs := [1; 2; 4]%float; fs := [0.25; 0.375; 0.5]%float;
     fs_stderr := None; bottom := PyFloat 0.5; top := PyFloat 0.25;
     midpoint := 1; slope := (-1.5)%float |}.

(** [HillCurve([1, 2, 4], [1, 1, 1])] *)
Definition curve_flat : HillCurve :=
  {| cs := [1; 2; 4]%float; fs := [1; 1; 1]%float;
     fs_stderr := None; bottom := NpFloat 1; top := PyFloat 1;
     midpoint := 4; slope := 1.5 |}.

(** [HillCurve([4, 1, 2], [0, 1, 0.5])]: concentrations given out of
    order. *)
Definition curve_unsorted : HillCurve :=
  {| cs := [1; 2; 4]%float; fs := [1; 0.5; 0]%float;
     fs_stderr := None; bottom := NpFloat 0; top := PyFloat 1;
     midpoint := 1.5; slope := 1.5 |}.

(** Two replicates of one serum and virus, measured at different
    concentrations. *)
Definition mismatched_data : DataFrame :=
  {| columns := ["serum"; "virus"; "replicate"; "concentration";
                 "fraction infectivity"];
     rows := [ Build_Row "serum1" "virus1" "1" 1 1;
               Build_Row "serum1" "virus1" "1" 2 0.5;
               Build_Row "serum1" "virus1" "2" 1 1;
               Build_Row "serum1" "virus1" "2" 4 0.25 ] |}.

(** One serum, one virus, one replicate measured at three
    concentrations. *)
Definition example_data : DataFrame :=
  {| columns := ["serum"; "virus"; "replicate"; "concentration";
                 "fraction infectivity"];
     rows := [ Build_Row "serum1" "virus1" "1" 1 1;
               Build_Row "serum1" "virus1" "1" 2 0.5;
               Build_Row "serum1" "virus1" "1" 4 0 ] |}.

Definition no_curvefits : CurveFits :=
  {| conc_col := EmptyString; fracinf_col := EmptyString;
     serum_col := EmptyString; virus_col := EmptyString;
     replicate_col := EmptyString; fixbottom := FixFalse; fixtop := FixFalse;
     df := []; sera := []; viruses := ∅; replicates := ∅;
     _hillcurves := ∅; _fitparams := None; hillcurve_calls := 0 |}.

(** [CurveFits(example_data)], with the default arguments. *)
Definition example_self : CurveFits :=
  match CurveFits__init__ example_data "concentration" "fraction infectivity"
          "serum" "virus" "replicate" FixFalse (FixNum 1) with
  | Ok self => self
  | Raise _ => no_curvefits
  end.

(** The object after [getCurve(serum1, virus1, 1)], and then after
    [fitParams(average_only=False)]. *)
Definition example_self1 : CurveFits :=
  (@getCurve test_scipy "serum1" "virus1" "1" example_self).2.

Definition example_self2 : CurveFits :=
  (@fitParams test_scipy false example_self1).2.

Definition example_curve : object :=
  {| oid := 0;
     obj := {| cs := [1; 2; 4]%float; fs := [1; 0.5; 0]%float;
               fs_stderr := None; bottom := NpFloat 0; top := PyFloat 1;
               midpoint := 1.5; slope := 1.5 |} |}.

(** ** More of the model: the data of a curve, and the plotting methods *)

(** [HillCurve([2, 2], [1, 1])]: one concentration measured twice. *)
Definition curve_single : HillCurve :=
  {| cs := [2; 2]%float; fs := [1; 1]%float;
     fs_stderr := None; bottom := NpFloat 1; top := PyFloat 1;
     midpoint := 2; slope := 1.5 |}.

(** The viruses of a serum: [serum_viruses] of the constructor. *)
Definition serum_viruses_of (data : list Row) (serum : string) : list string :=
  unique (row_virus <$>
            List.filter (fun r => String.eqb (row_serum r) serum) data).

(** The three indices of a [CurveFits], in terms of the rows it was
    constructed from: the sera, the viruses of each serum and the
    replicates of each serum and virus, each in order of first appearance,
    and no entry for anything that is not in the data. *)
Definition indexed_by (data : list Row) (self : CurveFits) : Prop :=
  sera self = unique (row_serum <$> data) /\
  (forall serum,
     viruses self !! serum =
     if decide (serum ∈ sera self)
     then Some (serum_viruses_of data serum) else None) /\
  (forall serum virus,
     replicates self !! (serum, virus) =
     if decide (serum ∈ sera self /\ virus ∈ serum_viruses_of data serum)
     then Some (virus_reps_of data serum virus ++ ["average"%string])
     else None).

Section MoreVocabulary.
Context `{SciPy}.

(** A row of the table of [fitParams] describes the cached curve of its
    key: it is the row that the loop body makes of that curve. *)
Definition describes (self : CurveFits) (row : ParamRow) : Prop :=
  exists curve n,
    _hillcurves self !! row_key row = Some curve /\
    param_row (p_serum row) (p_virus row) (p_replicate row) n (obj curve)
      = Ok row.

(** A call keeps the rows of a cached table descriptions of cached
    curves. *)
Definition table_describes (a b : CurveFits) : Prop :=
  cache_ok a ->
  cache_ok b /\ evolves a b /\
  ((forall full, _fitparams a = Some full -> Forall (describes a) full) ->
   (forall full, _fitparams b = Some full -> Forall (describes b) full)).

End MoreVocabulary.

(** *** [HillCurve.dataframe] *)

(** The argument [concentrations]: 'auto', 'measured', or a list of
    concentrations. *)
Inductive conc_arg : Type :=
| Auto
| Measured
| Given (l : list float).

(** A row of the frame that [dataframe] returns. *)
Record PlotRow : Type := {
  concentration : float;
  measurement : float;
  fit : float;
  stderr : float
}.

(** [scipy.full(n, x)] *)
Definition np_full (n : Z) (x : float) : result (list float) :=
  if (n <? 0)%Z then Raise (ValueError "negative dimensions are not allowed")
  else Ok (replicate (Z.to_nat n) x).

(** [pd.DataFrame.from_dict] of the four columns: they must be equally
    long. *)
Definition from_dict (concentrations points fits stderrs : list float) :
    result (list PlotRow) :=
  if (length points =? length concentrations)
     && (length fits =? length concentrations)
     && (length stderrs =? length concentrations)
  then Ok (zip_with (fun cm fe => {| concentration := cm.1; measurement := cm.2;
                                     fit := fe.1; stderr := fe.2 |})
             (zip concentrations points) (zip fits stderrs))
  else Raise (ValueError "arrays must all be same length").

(** [.sort_values('concentration')]: ascending, NaN last.  Rows of equal
    concentration keep their order here; pandas' default sort may order
    them differently. *)
Definition sort_by_concentration (rows : list PlotRow) : list PlotRow :=
  (foldr sort_insert [] ((fun r => (concentration r, r)) <$> rows)).*2.

(** The default of [extend] in [concentrationRange]: the float [0.1]. *)
Definition default_extend : float := 0x1.999999999999ap-4%float.

Section DataFrame.
Context `{SciPy}.

(** The concentrations added to the measured ones. *)
Definition requested_concentrations (self : HillCurve) (concentrations : conc_arg) :
    result (list float) :=
  match concentrations with
  | Auto =>
      c0 ← item_first (cs self);
      cN ← item_last (cs self);
      concentrationRange c0 cN 200 default_extend
  | Measured => Ok []
  | Given l => Ok l
  end.

Definition dataframe (self : HillCurve) (concentrations : conc_arg) :
    result (list PlotRow) :=
  extra ← requested_concentrations self concentrations;
  let concentrations := cs self ++ extra in
  let n := Z.of_nat (length concentrations) in
  pad ← np_full (n - Z.of_nat (length (fs self))) nan;
  let points := fs self ++ pad in
  stderr ← match fs_stderr self with
           | None => np_full n nan
           | Some e =>
               pad ← np_full (n - Z.of_nat (length (fs self))) nan;
               Ok (e ++ pad)
           end;
  let fit := fracinfectivity self <$> concentrations in
  sort_by_concentration <$> from_dict concentrations points fit stderr.

(** The rows of the measured points, and the rows of other
    concentrations, which have no measurement. *)
Definition measured_rows (self : HillCurve) : list PlotRow :=
  zip_with (fun cf e => {| concentration := cf.1; measurement := cf.2;
                           fit := fracinfectivity self cf.1; stderr := e |})
    (zip (cs self) (fs self))
    (default (replicate (length (cs self)) nan) (fs_stderr self)).

Definition unmeasured_rows (self : HillCurve) (extra : list float) :
    list PlotRow :=
  (fun c => {| concentration := c; measurement := nan;
               fit := fracinfectivity self c; stderr := nan |}) <$> extra.

End DataFrame.

(** *** Plotting: what is computed before anything is drawn *)

(** The plotting code raises or lets through two more exceptions than the
    code above. *)
Inductive plot_exn : Type :=
| Std (e : exn)
| AttributeError (msg : string)
| OverflowError (msg : string).

Inductive outcome (A : Type) : Type :=
| Done (a : A)
| Fail (e : plot_exn).

Arguments Done {A} a.

Arguments Fail {A} e.

#[global] Instance outcome_ret : MRet outcome := fun _ a => Done a.

#[global] Instance outcome_bind : MBind outcome := fun _ _ f m =>
  match m with
  | Done a => f a
  | Fail e => Fail e
  end.

#[global] Instance outcome_fmap : FMap outcome := fun _ _ f m =>
  match m with
  | Done a => Done (f a)
  | Fail e => Fail e
  end.

(** A computation of the code above, within the plotting code. *)
Definition std {A} (r : result A) : outcome A :=
  match r with
  | Ok a => Done a
  | Raise e => Fail (Std e)
  end.

(** The parts of Python's standard library that the plotting code calls. *)
Class PyLib : Type := {
  (** [template.format(serum=serum, virus=virus)], or the exception it
      raised *)
  str_format : string -> string -> string -> outcome string;
  (** [str(s)] for the set [s] of the strings of a list, and [str(x)] for a
      float [x] *)
  set_str : list string -> string;
  float_str : float -> string;
  (** the C library's [log] and [exp], behind [math.log] and [math.exp] *)
  libm_log : float -> float;
  libm_exp : float -> float
}.

(** An argument that is 'all' or a list of names. *)
Inductive selection : Type :=
| All
| Listed (l : list string).

(** [d[key]] on the two indices of a [CurveFits]. *)
Definition viruses_item (self : CurveFits) (serum : string) :
    result (list string) :=
  match viruses self !! serum with
  | Some vs => Ok vs
  | None => Raise (KeyError serum)
  end.

Definition replicates_item (self : CurveFits) (serum virus : string) :
    result (list string) :=
  match replicates self !! (serum, virus) with
  | Some reps => Ok reps
  | None => Raise (KeyError (serum +:+ ", " +:+ virus))
  end.

(** [x in l] for a list of strings. *)
Definition str_in (x : string) (l : list string) : bool :=
  existsb (String.eqb x) l.

(** [d[key] = True] on an [OrderedDict] used as an ordered set: a new key
    goes last, a known one stays where it is. *)
Definition odict_add (key : string) (d : list string) : list string :=
  if str_in key d then d else d ++ [key].

(** [set(l) - set(known)], as the list of its members *)
Definition set_difference (l known : list string) : list string :=
  List.filter (fun x => negb (str_in x known)) l.

(** [CurveFits._sera_viruses_lists(sera, viruses)] *)
Definition _sera_viruses_lists `{PyLib} (self : CurveFits)
    (which_sera which_viruses : selection) :
    result (list string * list string) :=
  chosen ← match which_sera with
           | All => Ok (sera self)
           | Listed l =>
               match set_difference l (sera self) with
               | [] => Ok l
               | extra_sera =>
                   Raise (ValueError ("unrecognized sera: " +:+
                                      set_str extra_sera))
               end
           end;
  per_serum ← mapM (viruses_item self) chosen;
  let allviruses := foldl (fun d v => odict_add v d) [] (concat per_serum) in
  chosen_viruses ←
    match which_viruses with
    | All => Ok allviruses
    | Listed l =>
        match set_difference l allviruses with
        | [] => Ok l
        | extra_viruses =>
            Raise (ValueError ("unrecognized viruses for specified sera: " +:+
                               set_str extra_viruses))
        end
    end;
  Ok (chosen, chosen_viruses).

(** One curve of a plot: the dict with the keys 'serum', 'virus',
    'replicate', 'label', 'color' and 'marker'. *)
Record curvedict : Type := {
  cd_serum : string;
  cd_virus : string;
  cd_replicate : string;
  cd_label : option string;
  cd_color : string;
  cd_marker : string
}.

(** [itertools.product(sera, viruses)] *)
Definition product (l1 l2 : list string) : list (string * string) :=
  x ← l1; y ← l2; [(x, y)].

(** The first loop of [plotReplicates] over the pairs of serum and virus:
    it collects the names of the replicates in the ordered dict
    [replicates]. *)
Fixpoint collect_replicates (self : CurveFits) (pairs : list (string * string))
    (replicates : list string) : result (list string) :=
  match pairs with
  | [] => Ok replicates
  | (serum, virus) :: more =>
      vs ← viruses_item self serum;
      if str_in virus vs then
        reps ← replicates_item self serum virus;
        collect_replicates self more
          (foldl (fun d replicate =>
                    if negb (String.eqb replicate "average")
                    then odict_add replicate d else d)
                 replicates reps)
      else collect_replicates self more replicates
  end.

(** [', '.join(l)] *)
Fixpoint join (l : list string) : string :=
  match l with
  | [] => EmptyString
  | [x] => x
  | x :: l' => x +:+ ", " +:+ join l'
  end.

(** The loop [for i, replicate in enumerate(replicates)] that builds
    [curvelist]; [i] is the index of the first replicate of the list. *)
Fixpoint build_curvelist (self : CurveFits) (serum virus : string)
    (colors markers : list string) (i : nat) (replicates : list string) :
    result (list curvedict) :=
  match replicates with
  | [] => Ok []
  | replicate :: more =>
      reps ← replicates_item self serum virus;
      if str_in replicate reps then
        color ← item_at colors i;
        marker ← item_at markers i;
        rest ← build_curvelist self serum virus colors markers (S i) more;
        Ok ({| cd_serum := serum; cd_virus := virus;
               cd_replicate := replicate; cd_label := Some replicate;
               cd_color := color; cd_marker := marker |} :: rest)
      else build_curvelist self serum virus colors markers (S i) more
  end.

(** [math.ceil(n / nrow)] for a count [n] and an integer [nrow > 0].  The
    quotient is a float: it is zero when [n / nrow] is at most [2 ** -1075],
    and then so is its ceiling; for the counts that a list can have, below
    [2 ** 53], the ceiling of the float is otherwise that of the exact
    quotient. *)
Definition ceil_div (n : nat) (nrow : Z) : Z :=
  if (Z.of_nat n * 2 ^ 1075 <=? nrow)%Z then 0%Z
  else ((Z.of_nat n + nrow - 1) / nrow)%Z.

(** [plots[key] = plot] on a dict, as the list of its items. *)
Fixpoint dict_set {K V} `{EqDecision K} (key : K) (v : V) (d : list (K * V)) :
    list (K * V) :=
  match d with
  | [] => [(key, v)]
  | (k, w) :: d' =>
      if decide (k = key) then (k, v) :: d' else (k, w) :: dict_set key v d'
  end.

(** The choice of the number of columns from [nrow] and [ncol], each an
    integer or [None], for [n] plots. *)
Definition grid_columns (n : nat) (nrow ncol : option Z) : result Z :=
  match nrow, ncol with
  | Some _, Some _ =>
      Raise (ValueError "either `ncol` or `nrow` must be `None`")
  | Some nrow, None =>
      if (0 <? nrow)%Z then Ok (ceil_div n nrow)
      else Raise (ValueError "`nrow` or `ncol` must be integer > 0")
  | None, Some ncol =>
      if (0 <? ncol)%Z then Ok ncol
      else Raise (ValueError "`nrow` or `ncol` must be integer > 0")
  | None, None =>
      Raise (ValueError "`nrow` or `ncol` must be integer > 0")
  end.

(** The loop [for iplot, plot in enumerate(plotlist)] that fills the dict
    [plots]; [iplot] is the index of the first plot of the list. *)
Fixpoint place_plots {V} (ncol : Z) (iplot : Z) (plotlist : list V)
    (plots : list (Z * Z * V)) : result (list (Z * Z * V)) :=
  match plotlist with
  | [] => Ok plots
  | plot :: more =>
      if (ncol =? 0)%Z then Raise ZeroDivisionError
      else place_plots ncol (iplot + 1) more
             (dict_set (iplot / ncol, iplot mod ncol)%Z plot plots)
  end.

Section PlotReplicates.
Context `{PyLib}.

(** The second loop of [plotReplicates] over the pairs of serum and
    virus: it builds [plotlist]. *)
Fixpoint build_plotlist (self : CurveFits) (subplot_titles : string)
    (colors markers replicates : list string)
    (pairs : list (string * string)) :
    outcome (list (string * list curvedict)) :=
  match pairs with
  | [] => Done []
  | (serum, virus) :: more =>
      vs ← std (viruses_item self serum);
      if str_in virus vs then
        title ← str_format subplot_titles serum virus;
        curvelist ← std (build_curvelist self serum virus colors markers 0
                           replicates);
        rest ← build_plotlist self subplot_titles colors markers replicates more;
        Done (match curvelist with
              | [] => rest
              | _ => (title, curvelist) :: rest
              end)
      else build_plotlist self subplot_titles colors markers replicates more
  end.

(** [CurveFits.plotReplicates], up to its last statement: the dict [plots]
    that it hands to [plotGrid].  [nrow] and [ncol] are integers or
    [None]. *)
Definition plotReplicates_plots (self : CurveFits) (ncol nrow : option Z)
    (which_sera which_viruses : selection) (colors markers : list string)
    (subplot_titles : string) (show_average : bool) :
    outcome (list (Z * Z * (string * list curvedict))) :=
  _ ← match str_format subplot_titles "dummy" "dummy" with
      | Fail (Std (KeyError _)) =>
          Fail (Std (ValueError
                       ("`subplot_titles` " +:+ subplot_titles +:+
                        " invalid. Should have format keys only for virus and serum")))
      | other => other
      end;
  '(chosen, chosen_viruses) ←
    std (_sera_viruses_lists self which_sera which_viruses);
  let nplottable := max (length colors) (length markers) in
  replicates ← std (collect_replicates self (product chosen chosen_viruses)
                      (if show_average then ["average"%string] else []));
  if decide (nplottable < length replicates) then
    Fail (Std (ValueError ("Too many unique replicates. There are" +:+
                           pretty (length replicates) +:+ " (" +:+
                           join replicates +:+ ") but only " +:+
                           pretty nplottable +:+ " `colors` or `markers`.")))
  else
    plotlist ← build_plotlist self subplot_titles colors markers replicates
                 (product chosen chosen_viruses);
    match plotlist with
    | [] => Fail (Std (ValueError "no curves for these sera / viruses"))
    | _ =>
        ncol ← std (grid_columns (length plotlist) nrow ncol);
        std (place_plots ncol 0 plotlist [])
    end.

End PlotReplicates.

(** **** [CurveFits.plotGrid], up to the creation of the figure *)

(** The axis limits that [plotGrid] keeps in the dicts [fix_lims] and
    [lims], under the keys 'xmin', 'xmax', 'ymin' and 'ymax'; [None] for a
    key that the dict does not have. *)
Record limits : Type := {
  xmin : option float;
  xmax : option float;
  ymin : option float;
  ymax : option float
}.

(** [min(a, b)] and [max(a, b)] of Python: the second argument is taken
    when it compares below, or above, the first. *)
Definition py_min2 (a b : float) : float := if F.lt b a then b else a.

Definition py_max2 (a b : float) : float := if F.gt b a then b else a.

(** [min(a)] and [max(a)] over the entries of an array. *)
Definition py_min (a : list float) : result float :=
  match a with
  | [] => Raise (ValueError "min() arg is an empty sequence")
  | x :: a' => Ok (foldl py_min2 x a')
  end.

Definition py_max (a : list float) : result float :=
  match a with
  | [] => Raise (ValueError "max() arg is an empty sequence")
  | x :: a' => Ok (foldl py_max2 x a')
  end.

(** [key in d] *)
Definition has_key (v : option float) : bool :=
  match v with
  | Some _ => true
  | None => false
  end.

(** The body of the loop over [('xmin', 'cs', min), ...] for one limit:
    a fixed limit is left alone, a missing one is set, another one is
    widened. *)
Definition update_lim (fixed current : option float)
    (limfunc : float -> float -> float) (val : float) : option float :=
  if has_key fixed then current
  else match current with
       | None => Some val
       | Some x => Some (limfunc x val)
       end.

Definition update_lims (fix_lims lims : limits) (curve : HillCurve) :
    result limits :=
  x0 ← py_min (cs curve);
  x1 ← py_max (cs curve);
  y0 ← py_min (fs curve);
  y1 ← py_max (fs curve);
  Ok {| xmin := update_lim (xmin fix_lims) (xmin lims) py_min2 x0;
        xmax := update_lim (xmax fix_lims) (xmax lims) py_max2 x1;
        ymin := update_lim (ymin fix_lims) (ymin lims) py_min2 y0;
        ymax := update_lim (ymax fix_lims) (ymax lims) py_max2 y1 |}.

(** [lims[key]] *)
Definition lims_item (key : string) (v : option float) : outcome float :=
  match v with
  | Some x => Done x
  | None => Fail (Std (KeyError key))
  end.

(** What [plotGrid] has computed when it creates the figure: the size of
    the grid, the limits of the shared axes, and the curve of every entry
    of [plots]. *)
Record layout : Type := {
  nrows : option Z;
  ncols : option Z;
  xlim : float * float;
  ylim : float * float;
  curves : list (Z * Z * (option string * list (curvedict * object)))
}.

(** The plotting methods: a state of the [CurveFits] in, an outcome and a
    state out. *)
Definition plotting (A : Type) : Type := CurveFits -> outcome A * CurveFits.

Definition pret {A} (a : A) : plotting A := fun self => (Done a, self).

Definition pbind {A B} (m : plotting A) (f : A -> plotting B) : plotting B :=
  fun self =>
    match m self with
    | (Done a, self') => f a self'
    | (Fail e, self') => (Fail e, self')
    end.

Definition plift {A} (r : outcome A) : plotting A := fun self => (r, self).

(** A call of a method of the [CurveFits]. *)
Definition call {A} (m : method A) : plotting A :=
  fun self => (std (m self).1, (m self).2).

Notation "'step' x <- m ; k" := (pbind m (fun x => k))
  (at level 10, x name, m at level 100, k at level 200,
   format "'step'  x  <-  m ; '//' k").

Section PlotGrid.
Context `{SciPy} `{PyLib}.

(** [math.log] raises on arguments that are not positive, [math.exp] on a
    result that overflows. *)
Definition math_log (x : float) : outcome float :=
  if F.le x 0 then Fail (Std (ValueError "math domain error"))
  else Done (libm_log x).

Definition math_exp (x : float) : outcome float :=
  let r := libm_exp x in
  if is_infinity r && is_finite x then Fail (OverflowError "math range error")
  else Done r.

(** The loop [for curvedict in curvelist]: each curve is fetched and the
    limits follow its data. *)
Fixpoint fit_curvelist (fix_lims : limits) (curvelist : list curvedict)
    (lims : limits) : plotting (list (curvedict * object) * limits) :=
  match curvelist with
  | [] => pret ([], lims)
  | curvedict :: more =>
      step curve <- call (getCurve (cd_serum curvedict) (cd_virus curvedict)
                            (cd_replicate curvedict));
      step lims <- plift (std (update_lims fix_lims lims (obj curve)));
      step rest <- fit_curvelist fix_lims more lims;
      pret ((curvedict, curve) :: rest.1, rest.2)
  end.

(** The loop [for (irow, icol), (_title, curvelist) in plots.items()],
    from the values that [nrows], [ncols] and [lims] have on entry. *)
Fixpoint fit_plots (fix_lims : limits)
    (plots : list (Z * Z * (option string * list curvedict)))
    (nrows ncols : option Z) (lims : limits) :
    plotting (list (Z * Z * (option string * list (curvedict * object)))
              * (option Z * option Z * limits)) :=
  match plots with
  | [] => pret ([], (nrows, ncols, lims))
  | (irow, icol, (title, curvelist)) :: more =>
      if (irow <? 0)%Z then
        plift (Fail (Std (ValueError "invalid row index `irow` < 0")))
      else if (icol <? 0)%Z then
        plift (Fail (Std (ValueError "invalid row index `icol` < 0")))
      else
        let nrows := match nrows with
                     | None => Some (irow + 1)%Z
                     | Some n => Some (Z.max n (irow + 1))
                     end in
        let ncols := match ncols with
                     | None => Some (icol + 1)%Z
                     | Some n => Some (Z.max n (icol + 1))
                     end in
        step fitted <- fit_curvelist fix_lims curvelist lims;
        step rest <- fit_plots fix_lims more nrows ncols fitted.2;
        pret ((irow, icol, (title, fitted.1)) :: rest.1, rest.2)
  end.

(** The statements under [# check and then extend limits]: the limits
    handed to [set_xlim] and [set_ylim]. *)
Definition extend_lims (fix_lims lims : limits) (extend_lim : float) :
    outcome (float * float * (float * float)) :=
  x0 ← lims_item "xmin" (xmin lims);
  if F.le x0 0 then
    Fail (Std (ValueError ("xmin " +:+ float_str x0 +:+
                           " <= 0, which is not allowed")))
  else
    y1 ← lims_item "ymax" (ymax lims);
    y0 ← lims_item "ymin" (ymin lims);
    let yextent := (y1 - y0)%float in
    if F.le yextent 0 then
      Fail (Std (ValueError "no positive extent for y-axis"))
    else
      let y0 := if has_key (ymin fix_lims) then y0 else (y0 - yextent * extend_lim)%float in
      let y1 := if has_key (ymax fix_lims) then y1 else (y1 + yextent * extend_lim)%float in
      x1 ← lims_item "xmax" (xmax lims);
      logx1 ← math_log x1;
      logx0 ← math_log x0;
      let xextent := (logx1 - logx0)%float in
      if F.le xextent 0 then
        Fail (Std (ValueError "no positive extent for x-axis"))
      else
        x0 ← (if has_key (xmin fix_lims) then Done x0
              else logx0 ← math_log x0;
                   math_exp (logx0 - xextent * extend_lim));
        x1 ← (if has_key (xmax fix_lims) then Done x1
              else logx1 ← math_log x1;
                   math_exp (logx1 + xextent * extend_lim));
        Done (x0, x1, (y0, y1)).

(** [CurveFits.plotGrid(plots, fix_lims=..., bound_ymin=...,
    bound_ymax=..., extend_lim=...)] up to the call of [plt.subplots].
    [plots] lists the items of the dict in its order; [fix_lims] is the
    dict, with no key when it is [None] or empty; the two bounds are
    numbers or [None]. *)
Definition plotGrid_layout
    (plots : list (Z * Z * (option string * list curvedict)))
    (fix_lims : limits) (bound_ymin bound_ymax : option float)
    (extend_lim : float) : plotting layout :=
  match plots with
  | [] => plift (Fail (Std (ValueError "empty `plots`")))
  | _ =>
      let lims :=
        {| xmin := xmin fix_lims; xmax := xmax fix_lims;
           ymin := match bound_ymin with
                   | Some b => Some b
                   | None => ymin fix_lims
                   end;
           ymax := match bound_ymax with
                   | Some b => Some b
                   | None => ymax fix_lims
                   end |} in
      step r <- fit_plots fix_lims plots None None lims;
      step ends <- plift (extend_lims fix_lims r.2.2 extend_lim);
      pret {| nrows := r.2.1.1; ncols := r.2.1.2;
              xlim := ends.1; ylim := ends.2; curves := r.1 |}
  end.

End PlotGrid.

(** What the limits are after the curves of a list: the loop body applied
    to each in turn. *)
Definition widen (fix_lims lims : limits) (curve : HillCurve) : limits :=
  match update_lims fix_lims lims curve with
  | Ok lims' => lims'
  | Raise _ => lims
  end.

(** The curves attached to the entries of [plots], in order. *)
Definition all_curves
    (fitted : list (Z * Z * (option string * list (curvedict * object)))) :
    list object :=
  concat ((fun p => p.2.2.*2) <$> fitted).

(** The number of rows, or columns, after one more index: the body of
    the loop for [nrows] and [ncols]. *)
Definition grow (n : option Z) (i : Z) : option Z :=
  match n with
  | None => Some (i + 1)%Z
  | Some n => Some (Z.max n (i + 1))
  end.

(** The least and the greatest entry of a list of numbers. *)
Definition least (m : float) (l : list float) : Prop :=
  m ∈ l /\ Forall (fun x => F.le m x = true) l.

Definition greatest (m : float) (l : list float) : Prop :=
  m ∈ l /\ Forall (fun x => F.le x m = true) l.

(** An entry of [plots] without the curves attached to it. *)
Definition bare (p : Z * Z * (option string * list (curvedict * object))) :
    Z * Z * (option string * list curvedict) :=
  (p.1, (p.2.1, p.2.2.*1)).

(** The limit of a key of [lims], which is the least, or the greatest, of
    the numbers seen so far once there is one. *)
Definition opt_least (v : option float) (seen : list float) : Prop :=
  match v with
  | None => seen = []
  | Some m => least m seen
  end.

Definition opt_greatest (v : option float) (seen : list float) : Prop :=
  match v with
  | None => seen = []
  | Some m => greatest m seen
  end.

(** A stand-in for Python's library, as [test_scipy] is one for the
    numeric libraries: the default template of the titles, and the
    identity for [log] and [exp]. *)
Definition test_pylib : PyLib :=
  {| str_format := fun _ serum virus => Done (serum +:+ " vs " +:+ virus);
     set_str := join;
     float_str := fun _ => "#"%string;
     libm_log := fun x => x;
     libm_exp := fun x => x |}.

(** The table of [fitParams(average_only=False)] on the example. *)
Definition example_table : list ParamRow :=
  match (@fitParams test_scipy false example_self).1 with
  | Ok table => table
  | Raise _ => []
  end.

(** The plots of [plotReplicates()] on the example with one color and one
    marker, and one plot for [plotGrid]. *)
Definition example_replicate_plots : list (Z * Z * (string * list curvedict)) :=
  match @plotReplicates_plots test_pylib example_self (Some 4%Z) None All All
          ["#999999"%string] ["o"%string] "{serum} vs {virus}" false with
  | Done plots => plots
  | Fail _ => []
  end.

Definition example_plots : list (Z * Z * (option string * list curvedict)) :=
  [ (0%Z, 0%Z,
     (Some "serum1 vs virus1"%string,
      [ {| cd_serum := "serum1"; cd_virus := "virus1"; cd_replicate := "1";
           cd_label := Some "1"%string; cd_color := "#999999";
           cd_marker := "o" |} ])) ].

Definition no_limits : limits :=
  {| xmin := None; xmax := None; ymin := None; ymax := None |}.

Definition fixed_limits : limits :=
  {| xmin := Some 0.5%float; xmax := None; ymin := Some 0%float; ymax := None |}.

Definition no_layout : layout :=
  {| nrows := None; ncols := None; xlim := (0, 0)%float; ylim := (0, 0)%float;
     curves := [] |}.

Definition example_layout (fix_lims : limits) (bound_ymin : option float) :
    layout :=
  match (@plotGrid_layout test_scipy test_pylib example_plots fix_lims
           bound_ymin None default_extend example_self).1 with
  | Done lay => lay
  | Fail _ => no_layout
  end.

(** * Properties *)

(** ** Fallible computations *)

Lemma bind_Ok {A B} (m : result A) (f : A -> result B) (b : B) :
  m ≫= f = Ok b <-> exists a, m = Ok a /\ f a = Ok b.
Proof.
  destruct m as [a|e]; simpl; split.
  - eauto.
  - by intros (? & [= ->] & ?).
  - done.
  - by intros (? & ? & ?).
Qed.

Lemma bind_Ok_l {A B} (a : A) (f : A -> result B) : Ok a ≫= f = f a.
Proof. done. Qed.

Lemma fmap_Ok {A B} (m : result A) (f : A -> B) (b : B) :
  f <$> m = Ok b <-> exists a, m = Ok a /\ b = f a.
Proof.
  destruct m as [a|e]; simpl; split.
  - intros [= <-]. eauto.
  - by intros (? & [= ->] & ->).
  - done.
  - by intros (? & ? & ?).
Qed.

(** Inverts a hypothesis [_ = Ok _] along the binds of the computation. *)
Ltac inv_ok H :=
  repeat match type of H with
         | _ ≫= _ = Ok _ =>
             let a := fresh "a" in
             let Ha := fresh "Ha" in
             apply bind_Ok in H as (a & Ha & H)
         | _ <$> _ = Ok _ =>
             let a := fresh "a" in
             let Ha := fresh "Ha" in
             apply fmap_Ok in H as (a & Ha & H)
         | mret ?x = Ok _ => change (mret x) with (Ok x) in H
         | Ok _ = Ok _ => injection H as H
         | Raise _ = Ok _ => discriminate H
         end.

Lemma item_first_Ok {A} (l : list A) x :
  item_first l = Ok x <-> head l = Some x.
Proof. destruct l; simpl; split; congruence. Qed.

Lemma item_last_Ok {A} (l : list A) x :
  item_last l = Ok x <-> last l = Some x.
Proof. unfold item_last. destruct (last l); split; congruence. Qed.

Lemma item_at_Ok {A} (l : list A) i x :
  item_at l i = Ok x <-> l !! i = Some x.
Proof. unfold item_at. destruct (l !! i); split; congruence. Qed.

Lemma item_first_is_ok {A} (l : list A) :
  l <> [] -> exists x, item_first l = Ok x.
Proof. destruct l; [done | eauto]. Qed.

Lemma item_last_is_ok {A} (l : list A) :
  l <> [] -> exists x, item_last l = Ok x.
Proof.
  intros Hl. apply last_is_Some in Hl as [x Hx].
  exists x. by apply item_last_Ok.
Qed.

Lemma take_idx_length {A} (a : list A) idx l :
  take_idx a idx = Ok l -> length l = length idx.
Proof.
  unfold take_idx. revert l.
  induction idx as [|i idx IH]; intros l Hl; simpl in Hl.
  - by injection Hl as <-.
  - inv_ok Hl. subst l. simpl. f_equal. by apply IH.
Qed.

Lemma take_idx_lookup {A} (a : list A) idx l :
  take_idx a idx = Ok l ->
  forall j x, l !! j = Some x -> exists i, idx !! j = Some i /\ a !! i = Some x.
Proof.
  unfold take_idx. revert l.
  induction idx as [|i idx IH]; intros l Hl; simpl in Hl.
  - injection Hl as <-. intros j x Hx. by rewrite lookup_nil in Hx.
  - inv_ok Hl. subst l. intros [|j] x Hx; simpl in Hx.
    + injection Hx as <-. exists i. split; [done | by apply item_at_Ok].
    + by apply (IH _ Ha0).
Qed.

(** ** The order of binary64 numbers

    The comparisons of [float] are specified through [SFcompare]; below
    they are read as the lexicographic order of a key, on the numbers that
    are not NaN. *)

Lemma SFcompare_rank f1 f2 :
  f1 <> S754_nan -> f2 <> S754_nan ->
  SFcompare f1 f2 = Some (lex (rank f1) (rank f2)).
Proof.
  destruct f1 as [[]|[]| |[] m1 e1], f2 as [[]|[]| |[] m2 e2];
    intros ? ?; try done; unfold lex; simpl; f_equal.
  rewrite Z.compare_opp. rewrite (Z.compare_antisym e1 e2).
  by destruct (e1 ?= e2)%Z.
Qed.

Lemma SFcompare_nan_r f : SFcompare f S754_nan = None.
Proof. by destruct f. Qed.

Lemma lex_Lt a b : lex a b = Lt <-> klt a b.
Proof.
  unfold lex, klt. destruct a as [[a1 a2] a3], b as [[b1 b2] b3]; simpl.
  destruct (Z.compare_spec a1 b1), (Z.compare_spec a2 b2),
    (Z.compare_spec a3 b3); split; try done; try lia.
Qed.

Lemma lex_Gt a b : lex a b = Gt <-> klt b a.
Proof.
  unfold lex, klt. destruct a as [[a1 a2] a3], b as [[b1 b2] b3]; simpl.
  destruct (Z.compare_spec a1 b1), (Z.compare_spec a2 b2),
    (Z.compare_spec a3 b3); split; try done; try lia.
Qed.

Lemma lex_Eq a b : lex a b = Eq <-> a = b.
Proof.
  unfold lex. destruct a as [[a1 a2] a3], b as [[b1 b2] b3]; simpl.
  destruct (Z.compare_spec a1 b1), (Z.compare_spec a2 b2),
    (Z.compare_spec a3 b3); split; try done; try (intros [= ? ? ?]; lia).
  intros _. congruence.
Qed.

Lemma is_nan_true x : is_nan x = true <-> Prim2SF x = S754_nan.
Proof.
  unfold is_nan. rewrite FloatAxioms.eqb_spec. unfold SFeqb.
  destruct (Prim2SF x) as [s|s| |s m e] eqn:E; try done;
    (rewrite SFcompare_rank by done;
     by rewrite (proj2 (lex_Eq _ _) eq_refl)).
Qed.

Lemma is_nan_false x : is_nan x = false <-> Prim2SF x <> S754_nan.
Proof. rewrite <- is_nan_true. by destruct (is_nan x). Qed.

(** The comparison of two numbers: nothing when one is NaN, the order of
    their keys otherwise. *)
Lemma compare_key x y :
  SFcompare (Prim2SF x) (Prim2SF y) =
  if is_nan x || is_nan y then None else Some (lex (key x) (key y)).
Proof.
  destruct (is_nan x) eqn:Ex; simpl.
  - apply is_nan_true in Ex. by rewrite Ex.
  - destruct (is_nan y) eqn:Ey.
    + apply is_nan_true in Ey. by rewrite Ey, SFcompare_nan_r.
    + apply is_nan_false in Ex, Ey. by apply SFcompare_rank.
Qed.

Lemma F_lt_key x y :
  F.lt x y = true <->
  is_nan x = false /\ is_nan y = false /\ klt (key x) (key y).
Proof.
  unfold F.lt. rewrite FloatAxioms.ltb_spec. unfold SFltb.
  rewrite compare_key, <- lex_Lt.
  destruct (is_nan x), (is_nan y), (lex _ _); simpl; intuition congruence.
Qed.

Lemma F_le_key x y :
  F.le x y = true <->
  is_nan x = false /\ is_nan y = false /\ ~ klt (key y) (key x).
Proof.
  unfold F.le. rewrite FloatAxioms.leb_spec. unfold SFleb.
  rewrite compare_key, <- lex_Gt.
  destruct (is_nan x), (is_nan y), (lex _ _); simpl; intuition congruence.
Qed.

Lemma F_eq_key x y :
  F.eq x y = true <->
  is_nan x = false /\ is_nan y = false /\ key x = key y.
Proof.
  unfold F.eq. rewrite FloatAxioms.eqb_spec. unfold SFeqb.
  rewrite compare_key, <- lex_Eq.
  destruct (is_nan x), (is_nan y), (lex _ _); simpl; intuition congruence.
Qed.

(** Turns comparisons in the hypotheses and the goal into facts on keys. *)
Ltac float_order :=
  unfold F.gt, F.ge in *;
  repeat match goal with
         | H : F.lt _ _ = true |- _ => apply F_lt_key in H as (? & ? & ?)
         | H : F.le _ _ = true |- _ => apply F_le_key in H as (? & ? & ?)
         | H : F.eq _ _ = true |- _ => apply F_eq_key in H as (? & ? & ?)
         | H : F.lt _ _ = false |- _ =>
             apply not_true_iff_false in H; rewrite F_lt_key in H
         | H : F.le _ _ = false |- _ =>
             apply not_true_iff_false in H; rewrite F_le_key in H
         | H : F.eq _ _ = false |- _ =>
             apply not_true_iff_false in H; rewrite F_eq_key in H
         | |- F.lt _ _ = false => apply not_true_iff_false; rewrite F_lt_key
         | |- F.le _ _ = false => apply not_true_iff_false; rewrite F_le_key
         | |- F.eq _ _ = false => apply not_true_iff_false; rewrite F_eq_key
         | |- F.lt _ _ = true => apply F_lt_key
         | |- F.le _ _ = true => apply F_le_key
         | |- F.eq _ _ = true => apply F_eq_key
         end;
  repeat match goal with
         | |- context [key ?x] =>
             let a := fresh "k" in
             let b := fresh "k" in
             let c := fresh "k" in
             destruct (key x) as [[a b] c]
         | H : context [key ?x] |- _ =>
             let a := fresh "k" in
             let b := fresh "k" in
             let c := fresh "k" in
             destruct (key x) as [[a b] c]
         end;
  unfold klt in *; simpl in *.

Lemma F_lt_le_false x y : F.lt x y = true -> F.le y x = false.
Proof. intros Hlt. float_order. tauto. Qed.

Lemma F_le_lt_false x y : F.le x y = true -> F.lt y x = false.
Proof. intros Hle. float_order. tauto. Qed.

Lemma F_lt_le x y : F.lt x y = true -> F.le x y = true.
Proof. intros Hlt. float_order. repeat split; try done. lia. Qed.

Lemma F_le_refl x : is_nan x = false -> F.le x x = true.
Proof. intros Hx. float_order. repeat split; try done. lia. Qed.

Lemma F_eq_refl x : is_nan x = false -> F.eq x x = true.
Proof. intros Hx. unfold is_nan in Hx. unfold F.eq. by destruct (x =? x)%float. Qed.

Lemma F_le_total x y :
  is_nan x = false -> is_nan y = false -> F.le x y = false -> F.lt y x = true.
Proof.
  intros Hx Hy Hle. apply not_true_iff_false in Hle.
  rewrite F_le_key in Hle. apply F_lt_key. repeat split; try done.
  assert (~ ~ klt (key y) (key x)) as Hk by tauto.
  destruct (key x) as [[a1 a2] a3], (key y) as [[b1 b2] b3].
  unfold klt in *. simpl in *. lia.
Qed.

Lemma F_le_trans x y z : F.le x y = true -> F.le y z = true -> F.le x z = true.
Proof. intros H1 H2. float_order. repeat split; try done. lia. Qed.

Lemma F_lt_trans x y z : F.lt x y = true -> F.lt y z = true -> F.lt x z = true.
Proof. intros H1 H2. float_order. repeat split; try done. lia. Qed.

Lemma F_eq_sym x y : F.eq x y = true -> F.eq y x = true.
Proof. intros H1. float_order. repeat split; congruence. Qed.

Lemma F_eq_trans x y z : F.eq x y = true -> F.eq y z = true -> F.eq x z = true.
Proof. intros H1 H2. float_order. repeat split; congruence. Qed.

Lemma F_lt_no_nan x y : F.lt x y = true -> is_nan x = false /\ is_nan y = false.
Proof. intros Hlt. by apply F_lt_key in Hlt as (? & ? & _). Qed.

Lemma F_le_no_nan x y : F.le x y = true -> is_nan x = false /\ is_nan y = false.
Proof. intros Hle. by apply F_le_key in Hle as (? & ? & _). Qed.

(** ** The constructor of [HillCurve] *)

Section ConstructorFacts.
Context `{SciPy}.

Lemma set_fitted_Ok fixbottom fixtop cs0 fs0 e0 b t popt c :
  set_fitted fixbottom fixtop cs0 fs0 e0 b t popt = Ok c ->
  cs c = cs0 /\ fs c = fs0 /\ fs_stderr c = e0 /\
  (fixtop <> FixFalse -> top c = t) /\
  (fixbottom <> FixFalse -> bottom c = b).
Proof.
  unfold set_fitted. intros Hc. inv_ok Hc.
  destruct fixtop, fixbottom; inv_ok Hc; subst c; simpl; naive_solver.
Qed.

(** What a successful construction went through. *)
Lemma HillCurve_init_Ok cs0 fs0 e0 fixbottom fixtop fitlogc c :
  HillCurve__init__ cs0 fs0 e0 fixbottom fixtop fitlogc = Ok c ->
  exists slope0 top0 bottom0 midpoint0 popt,
    take_idx cs0 (argsort cs0) = Ok (cs c) /\
    take_idx fs0 (argsort cs0) = Ok (fs c) /\
    match e0 with
    | Some e => exists e', take_idx e (argsort cs0) = Ok e' /\ fs_stderr c = Some e'
    | None => fs_stderr c = None
    end /\
    existsb (fun x => F.le x 0) (cs c) = false /\
    guess_slope (fs c) = Ok slope0 /\
    guess_top fixtop slope0 (fs c) = Ok top0 /\
    guess_bottom fixbottom slope0 (fs c) = Ok bottom0 /\
    guess_midpoint (cs c) (fs c) top0 bottom0 slope0 = Ok midpoint0 /\
    curve_fit (fit_func fixbottom fixtop bottom0 top0
                 (if fitlogc then evaluate_log else evaluate))
      (if fitlogc then np_log <$> cs c else cs c) (fs c)
      (initguess fixbottom fixtop midpoint0 slope0 bottom0 top0)
      (fs_stderr c) = Ok popt /\
    set_fitted fixbottom fixtop (cs c) (fs c) (fs_stderr c) bottom0 top0 popt
      = Ok c.
Proof.
  unfold HillCurve__init__. intros Hc.
  apply bind_Ok in Hc as (e & He & Hc).
  apply bind_Ok in Hc as (fs1 & Hfs & Hc).
  apply bind_Ok in Hc as (cs1 & Hcs & Hc).
  destruct (existsb _ cs1) eqn:Hpos; [done|].
  apply bind_Ok in Hc as (slope0 & Hslope & Hc).
  apply bind_Ok in Hc as (top0 & Htop & Hc).
  apply bind_Ok in Hc as (bottom0 & Hbottom & Hc).
  apply bind_Ok in Hc as (midpoint0 & Hmid & Hc).
  apply bind_Ok in Hc as (popt & Hfit & Hc).
  destruct (set_fitted_Ok _ _ _ _ _ _ _ _ _ Hc) as (-> & -> & -> & _).
  exists slope0, top0, bottom0, midpoint0, popt.
  repeat split; try done.
  destruct e0 as [e0|].
  - apply fmap_Ok in He as (e' & He' & ->). eauto.
  - by injection He as <-.
Qed.

Lemma fitted_cs_nonempty c : fitted c -> cs c <> [].
Proof.
  intros (cs0 & fs0 & e0 & fb & ft & flag & Hc).
  apply HillCurve_init_Ok in Hc
    as (slope0 & ? & ? & ? & ? & Hcs & Hfs & _ & _ & Hslope & _).
  apply take_idx_length in Hcs, Hfs.
  unfold guess_slope in Hslope. apply bind_Ok in Hslope as (f0 & Hf0 & _).
  intros Hnil. rewrite Hnil in Hcs. simpl in Hcs.
  destruct (fs c); [done|]. simpl in Hfs. lia.
Qed.

Lemma fitted_cs_no_nan c : fitted c -> no_nan (cs c).
Proof.
  intros (cs0 & fs0 & e0 & fb & ft & flag & Hc).
  apply HillCurve_init_Ok in Hc
    as (? & ? & ? & ? & popt & _ & _ & _ & _ & _ & _ & _ & _ & Hfit & _).
  apply curve_fit_checks in Hfit. destruct flag; [|done].
  unfold no_nan in *. rewrite Forall_fmap in Hfit.
  eapply Forall_impl; [exact Hfit|]. intros y Hy. simpl in Hy.
  destruct (is_nan y) eqn:E; [|done].
  apply np_log_nan in E. congruence.
Qed.

Lemma fitted_cs_positive c :
  fitted c -> Forall (fun x => F.le x 0 = false) (cs c).
Proof.
  intros (cs0 & fs0 & e0 & fb & ft & flag & Hc).
  apply HillCurve_init_Ok in Hc as (? & ? & ? & ? & ? & _ & _ & _ & Hpos & _).
  apply Forall_forall. intros y Hy.
  destruct (F.le y 0) eqn:E; [|done].
  assert (existsb (fun x => F.le x 0) (cs c) = true); [|congruence].
  apply existsb_exists. exists y. by rewrite <- list_elem_of_In.
Qed.

(** A fixed top or bottom stays the caller's plain number. *)
Lemma init_fixtop cs0 fs0 e0 fixbottom v fitlogc c :
  HillCurve__init__ cs0 fs0 e0 fixbottom (FixNum v) fitlogc = Ok c ->
  top c = PyFloat v.
Proof.
  intros Hc. apply HillCurve_init_Ok in Hc
    as (? & top0 & ? & ? & ? & _ & _ & _ & _ & _ & Htop & _ & _ & _ & Hset).
  apply set_fitted_Ok in Hset as (_ & _ & _ & -> & _); [|done].
  simpl in Htop. congruence.
Qed.

Lemma init_fixbottom cs0 fs0 e0 v fixtop fitlogc c :
  HillCurve__init__ cs0 fs0 e0 (FixNum v) fixtop fitlogc = Ok c ->
  bottom c = PyFloat v.
Proof.
  intros Hc. apply HillCurve_init_Ok in Hc
    as (? & ? & bottom0 & ? & ? & _ & _ & _ & _ & _ & _ & Hb & _ & _ & Hset).
  apply set_fitted_Ok in Hset as (_ & _ & _ & _ & ->); [|done].
  simpl in Hb. congruence.
Qed.

End ConstructorFacts.

(** ** The sorted concentrations *)

Lemma sort_insert_perm {A} (p : float * A) (l : list (float * A)) :
  sort_insert p l ≡ₚ p :: l.
Proof.
  induction l as [|q l IH]; simpl; [done|].
  destruct (np_lt q.1 p.1); [|done].
  rewrite IH. apply Permutation_swap.
Qed.

Lemma sort_perm {A} (l : list (float * A)) : foldr sort_insert [] l ≡ₚ l.
Proof.
  induction l as [|p l IH]; simpl; [done|].
  by rewrite sort_insert_perm, IH.
Qed.

Lemma sort_insert_sorted {A} (p : float * A) (l : list (float * A)) :
  is_nan p.1 = false -> Forall (fun q => is_nan q.1 = false) l ->
  StronglySorted fst_le l -> StronglySorted fst_le (sort_insert p l).
Proof.
  intros Hp Hnan Hsorted.
  induction Hsorted as [|q l Hl IH Hq]; simpl.
  { by repeat constructor. }
  apply Forall_cons in Hnan as [Hqn Hnan].
  unfold np_lt. rewrite Hp. simpl. rewrite orb_false_r.
  destruct (F.lt q.1 p.1) eqn:Hlt.
  - constructor; [by apply IH|].
    rewrite sort_insert_perm. constructor; [|done].
    by apply F_lt_le.
  - assert (F.le p.1 q.1 = true) as Hle.
    { destruct (F.le p.1 q.1) eqn:Hle; [done|].
      rewrite (F_le_total _ _ Hp Hqn Hle) in Hlt. done. }
    constructor; [by constructor|]. constructor; [done|].
    eapply Forall_impl; [exact Hq|]. intros r Hr.
    by eapply F_le_trans.
Qed.

Lemma sort_sorted {A} (l : list (float * A)) :
  Forall (fun q => is_nan q.1 = false) l ->
  StronglySorted fst_le (foldr sort_insert [] l).
Proof.
  induction 1 as [|p l Hp Hl IH]; simpl; [constructor|].
  apply sort_insert_sorted; [done | | done].
  by rewrite sort_perm.
Qed.

Lemma take_idx_pairs {A} (a : list A) (l : list (A * nat)) :
  Forall (fun p => a !! p.2 = Some p.1) l -> take_idx a l.*2 = Ok l.*1.
Proof.
  unfold take_idx. induction 1 as [|p l Hp _ IH]; [done|].
  rewrite !fmap_cons.
  change (mapM (item_at a) (p.2 :: l.*2))
    with (item_at a p.2 ≫= fun y =>
          mapM (item_at a) l.*2 ≫= fun k => mret (y :: k)).
  by rewrite (proj2 (item_at_Ok a p.2 p.1) Hp), bind_Ok_l, IH.
Qed.

Lemma zip_seq_lookup {A} (a : list A) :
  Forall (fun p => a !! p.2 = Some p.1) (zip a (seq 0 (length a))).
Proof.
  apply Forall_forall. intros [x i] Hin.
  apply list_elem_of_lookup in Hin as [j Hj].
  apply lookup_zip_with_Some in Hj as (x' & i' & [= <- <-] & Hx & Hi).
  apply lookup_seq in Hi as [-> _]. done.
Qed.

(** Indexing an array by its [argsort] sorts it. *)
Lemma take_idx_argsort (a : list float) :
  take_idx a (argsort a)
  = Ok (foldr sort_insert [] (zip a (seq 0 (length a)))).*1.
Proof.
  unfold argsort. apply take_idx_pairs.
  rewrite sort_perm. apply zip_seq_lookup.
Qed.

Section Sorted.
Context `{SciPy}.

(** X1: the concentrations of a fitted curve are the ones it was given, in
    ascending order: the first is the smallest measured concentration and
    the last the largest. *)
Lemma fitted_cs_sorted cs0 fs0 e0 fixbottom fixtop fitlogc c :
  HillCurve__init__ cs0 fs0 e0 fixbottom fixtop fitlogc = Ok c ->
  cs c ≡ₚ cs0 /\
  StronglySorted (fun x y => F.le x y = true) (cs c) /\
  exists c0 cN,
    item_first (cs c) = Ok c0 /\ item_last (cs c) = Ok cN /\
    forall x, x ∈ cs0 -> F.le c0 x = true /\ F.le x cN = true.
Proof.
  intros Hinit.
  assert (fitted c) as Hfit by (by repeat eexists).
  pose proof (fitted_cs_no_nan c Hfit) as Hnan.
  pose proof (fitted_cs_nonempty c Hfit) as Hne.
  apply HillCurve_init_Ok in Hinit as (? & ? & ? & ? & ? & Hcs & _).
  rewrite take_idx_argsort in Hcs. injection Hcs as Hcs.
  set (pairs := zip cs0 (seq 0 (length cs0))) in *.
  assert (cs c ≡ₚ cs0) as Hperm.
  { rewrite <- Hcs, sort_perm. unfold pairs. rewrite fst_zip; [done|].
    by rewrite length_seq. }
  assert (StronglySorted (fun x y => F.le x y = true) (cs c)) as Hsorted.
  { rewrite <- Hcs. apply (StronglySorted_fmap fst fst_le); [by intros p q|].
    apply sort_sorted. rewrite <- sort_perm.
    unfold no_nan in Hnan. rewrite <- Hcs, Forall_fmap in Hnan. done. }
  split; [done|]. split; [done|].
  destruct (item_first_is_ok _ Hne) as [c0 Hc0].
  destruct (item_last_is_ok _ Hne) as [cN HcN].
  exists c0, cN. split; [done|]. split; [done|].
  intros z Hz. rewrite <- Hperm in Hz.
  unfold no_nan in Hnan. rewrite Forall_forall in Hnan.
  pose proof (Hnan z Hz) as Hzn. clear Hcs Hperm.
  apply item_first_Ok in Hc0. apply item_last_Ok in HcN.
  split.
  - destruct (cs c) as [|y l]; [done|]. injection Hc0 as ->.
    apply elem_of_cons in Hz as [->|Hz]; [by apply F_le_refl|].
    apply StronglySorted_inv in Hsorted as [_ Hall].
    rewrite Forall_forall in Hall. by apply Hall.
  - apply last_Some in HcN as [l' Hl']. rewrite Hl' in Hz, Hsorted.
    apply elem_of_app in Hz as [Hz | ->%list_elem_of_singleton];
      [|by apply F_le_refl].
    apply (StronglySorted_app_1_elem_of _ _ _ z cN Hsorted Hz). by left.
Qed.

End Sorted.

(** ** [ic50] and [ic50_bound] *)

Arguments ic50 {_} _ _ : simpl never.
Arguments ic50_classify {_} _ : simpl never.

Section IC50Facts.
Context `{SciPy}.

Lemma ratio_Ok c :
  zero_division c = false ->
  exists r, py_truediv (py_sub (top c) (PyFloat 0.5))
                       (py_sub (PyFloat 0.5) (bottom c)) = Ok r /\
            fval r = ((fval (top c) - 0.5) / (0.5 - fval (bottom c)))%float.
Proof.
  unfold zero_division. destruct (top c), (bottom c); simpl;
    try (intros _; eexists; split; reflexivity).
  intros ->. eexists; split; reflexivity.
Qed.

Lemma ic50_classify_low c :
  F.lt (fval (top c)) 0.5 = true -> F.lt (fval (bottom c)) 0.5 = true ->
  ic50_classify c = Ok (Bound "bottom").
Proof. unfold ic50_classify. by intros -> ->. Qed.

(** With [bound = 'bottom'] the method 'bound' finds neither 'upper' nor
    'lower' and raises. *)
Lemma ic50_bound_of_bottom c :
  ic50_classify c = Ok (Bound "bottom") ->
  ic50 c "bound" = Raise (ValueError "invalid `bound` bottom").
Proof. unfold ic50. by intros ->. Qed.

(** The same when the computed IC50 lies below the first concentration. *)
Lemma ic50_bound_raises_below_range c c0 :
  straddles_half c = true -> zero_division c = false ->
  item_first (cs c) = Ok c0 -> F.lt (algebraic_ic50 c) c0 = true ->
  F.le c0 (algebraic_ic50 c) = false ->
  ic50 c "bound" = Raise (ValueError "invalid `bound` bottom").
Proof.
  intros Hs Hz Hc0 Hlt Hle. apply ic50_bound_of_bottom.
  unfold ic50_classify, straddles_half in *.
  destruct (F.lt (fval (top c)) 0.5 && F.lt (fval (bottom c)) 0.5); [done|].
  destruct (F.ge (fval (top c)) 0.5 && F.ge (fval (bottom c)) 0.5); [done|].
  destruct (ratio_Ok c Hz) as (r & -> & Hr). simpl. rewrite Hr, Hc0. simpl.
  fold (algebraic_ic50 c).
  destruct (item_last_is_ok (cs c)) as [cN ->].
  { intros E. by rewrite E in Hc0. }
  simpl. by rewrite Hle, Hlt.
Qed.

(** C1: [ic50(method="bound")] does not return the smallest concentration
    for a fitted curve whose top and bottom are both below 0.5: it raises
    [ValueError], because the branch sets [bound = 'bottom'] and the
    method tests for 'lower'. *)
Theorem ic50_bound_raises_below_half c :
  fitted c ->
  F.lt (fval (top c)) 0.5 = true -> F.lt (fval (bottom c)) 0.5 = true ->
  ic50 c "bound" = Raise (ValueError "invalid `bound` bottom").
Proof.
  intros _ Ht Hb. by apply ic50_bound_of_bottom, ic50_classify_low.
Qed.

(** C3: when [ic50(method="interpolate")] returns a number, [ic50] returns
    that number for every [method], supported or not: the value is returned
    before the method is looked at. *)
Theorem ic50_ignores_method_in_range c v :
  fitted c ->
  ic50 c "interpolate" = Ok (Some v) ->
  forall method, ic50 c method = Ok (Some v).
Proof.
  intros _ Hv method. unfold ic50 in *.
  destruct (ic50_classify c) as [[v'|b]|e]; simpl in *; [done | | done].
  by destruct (String.eqb b "upper"), (String.eqb b "lower").
Qed.

(** C5: for a curve with both ends fixed, the bottom to 0.5 and the top
    below 0.5, [ic50] returns nothing, neither a number nor [None]: the
    division by [0.5 - bottom] raises [ZeroDivisionError]. *)
Theorem ic50_zero_division cs0 fs0 e0 tv fitlogc c method :
  HillCurve__init__ cs0 fs0 e0 (FixNum 0.5) (FixNum tv) fitlogc = Ok c ->
  F.lt tv 0.5 = true ->
  ic50 c method = Raise ZeroDivisionError.
Proof.
  intros Hc Htv.
  pose proof (init_fixtop _ _ _ _ _ _ _ Hc) as Ht.
  pose proof (init_fixbottom _ _ _ _ _ _ _ Hc) as Hb.
  unfold ic50, ic50_classify. rewrite Ht, Hb. simpl. rewrite Htv.
  replace (F.lt 0.5 0.5) with false by (by vm_compute).
  replace (F.ge tv 0.5) with false; [done|].
  symmetry. by apply F_lt_le_false.
Qed.

(** X2: on a fitted curve for which the division of [ic50] cannot raise
    (top or bottom is fitted, or the bottom is not fixed to 0.5),
    [ic50(method="interpolate")] is the computed IC50 when top and bottom
    straddle 0.5 and the IC50 lies between the first and the last
    concentration, and [None] otherwise. *)
Lemma ic50_interpolate_spec c :
  fitted c -> zero_division c = false ->
  exists c0 cN,
    item_first (cs c) = Ok c0 /\ item_last (cs c) = Ok cN /\
    ic50 c "interpolate" =
    Ok (if straddles_half c
           && (F.le c0 (algebraic_ic50 c) && F.le (algebraic_ic50 c) cN)
        then Some (algebraic_ic50 c) else None).
Proof.
  intros Hc Hz. pose proof (fitted_cs_nonempty c Hc) as Hne.
  destruct (item_first_is_ok _ Hne) as [c0 Hc0].
  destruct (item_last_is_ok _ Hne) as [cN HcN].
  exists c0, cN. repeat split; try done.
  unfold ic50, ic50_classify, straddles_half.
  destruct (F.lt (fval (top c)) 0.5 && F.lt (fval (bottom c)) 0.5); [done|].
  destruct (F.ge (fval (top c)) 0.5 && F.ge (fval (bottom c)) 0.5); [done|].
  destruct (ratio_Ok c Hz) as (r & -> & Hr). simpl.
  rewrite Hr, Hc0, HcN. simpl. fold (algebraic_ic50 c).
  destruct (F.le c0 (algebraic_ic50 c) && F.le (algebraic_ic50 c) cN); [done|].
  by destruct (F.lt (algebraic_ic50 c) c0).
Qed.

Lemma ic50_bound_values c s : ic50_bound c = Ok s ->
  s = "interpolated"%string \/ s = "lower"%string \/ s = "upper"%string.
Proof.
  unfold ic50_bound. intros Hs.
  apply bind_Ok in Hs as ([v|] & _ & Hs); [naive_solver|].
  apply bind_Ok in Hs as (b & _ & Hs).
  apply bind_Ok in Hs as (c0 & _ & Hs).
  destruct (py_eq b c0); [naive_solver|].
  apply bind_Ok in Hs as (cN & _ & Hs).
  destruct (py_eq b cN); naive_solver.
Qed.

Lemma ic50_never_runtime_error c method msg :
  ic50 c method <> Raise (RuntimeError msg).
Proof.
  unfold ic50, ic50_classify, py_truediv, item_first, item_last.
  destruct (cs c) as [|c0 l]; [|destruct (last (c0 :: l))];
    repeat (case_match; simpl; try done).
Qed.

(** C10: on a fitted curve for which [ic50(method="bound")] returns a
    value and [ic50(method="interpolate")] returns [None], the value is
    the first or the last of the sorted concentrations and [ic50_bound]
    returns "lower" or "upper"; on every fitted curve, [ic50_bound]
    returns nothing but "interpolated", "lower" and "upper", and never
    raises the [RuntimeError] of its last branch. *)
Theorem ic50_bound_is_endpoint c :
  fitted c ->
  (forall v, ic50 c "bound" = Ok (Some v) -> ic50 c "interpolate" = Ok None ->
     (item_first (cs c) = Ok v \/ item_last (cs c) = Ok v) /\
     (ic50_bound c = Ok "lower"%string \/ ic50_bound c = Ok "upper"%string)) /\
  (forall s, ic50_bound c = Ok s ->
     s = "interpolated"%string \/ s = "lower"%string \/ s = "upper"%string) /\
  (forall msg, ic50_bound c <> Raise (RuntimeError msg)).
Proof.
  intros Hc. pose proof (fitted_cs_nonempty c Hc) as Hne.
  pose proof (fitted_cs_no_nan c Hc) as Hnan.
  destruct (item_first_is_ok _ Hne) as [c0 Hc0].
  destruct (item_last_is_ok _ Hne) as [cN HcN].
  assert (F.eq cN cN = true) as HeqN.
  { apply F_eq_refl. apply item_last_Ok, last_Some_elem_of in HcN.
    unfold no_nan in Hnan. rewrite Forall_forall in Hnan. by apply Hnan. }
  assert (F.eq c0 c0 = true) as Heq0.
  { apply F_eq_refl. apply item_first_Ok, head_Some_elem_of in Hc0.
    unfold no_nan in Hnan. rewrite Forall_forall in Hnan. by apply Hnan. }
  assert (forall v, ic50 c "bound" = Ok (Some v) ->
            ic50 c "interpolate" = Ok None -> v = c0 \/ v = cN) as Hend.
  { intros v Hb Hi. unfold ic50 in Hb, Hi.
    destruct (ic50_classify c) as [[v'|b]|e]; simpl in *; try done.
    rewrite Hc0, HcN in Hb. simpl in Hb.
    destruct (String.eqb b "upper"); [naive_solver|].
    destruct (String.eqb b "lower"); [naive_solver|done]. }
  split; [|split].
  - intros v Hb Hi. destruct (Hend v Hb Hi) as [-> | ->].
    + split; [by left|]. left. unfold ic50_bound.
      rewrite Hi. simpl. rewrite Hb. simpl. rewrite Hc0. simpl.
      by rewrite Heq0.
    + split; [by right|]. unfold ic50_bound.
      rewrite Hi. simpl. rewrite Hb. simpl. rewrite Hc0. simpl.
      destruct (F.eq cN c0); [by left | right].
      rewrite HcN. simpl. by rewrite HeqN.
  - apply ic50_bound_values.
  - intros msg. unfold ic50_bound.
    destruct (ic50 c "interpolate") as [[v|]|e] eqn:Hi; simpl;
      [done | | intros [= ->]; by apply ic50_never_runtime_error in Hi].
    destruct (ic50 c "bound") as [[v|]|e] eqn:Hb; simpl.
    + destruct (Hend v eq_refl eq_refl) as [-> | ->];
        rewrite Hc0; simpl; rewrite ?Heq0; try done.
      destruct (F.eq cN c0); [done|]. rewrite HcN. simpl. by rewrite HeqN.
    + exfalso. unfold ic50 in Hb, Hi.
      destruct (ic50_classify c) as [[v'|b]|e]; simpl in *; try done.
      rewrite Hc0, HcN in Hb. simpl in Hb.
      by destruct (String.eqb b "upper"), (String.eqb b "lower").
    + intros [= ->]. by apply ic50_never_runtime_error in Hb.
Qed.

End IC50Facts.

(** *** The IC50 methods on concrete curves *)

Lemma curve_low_fitted : @fitted test_scipy curve_low.
Proof.
  exists [1; 2; 4]%float, [0.25; 0.125; 0.0625]%float, None,
    (FixNum 0), (FixNum 0.25), true.
  by vm_compute.
Qed.

Lemma curve_mid_fitted : @fitted test_scipy curve_mid.
Proof.
  exists [1; 2; 4]%float, [1; 0.5; 0]%float, None, (FixNum 0), (FixNum 1), true.
  by vm_compute.
Qed.

Lemma curve_hill_fitted : @fitted test_scipy curve_hill.
Proof.
  exists [0.25; 1; 3; 8]%float,
    [0x1.ea548bdf707c8p-1; 0x1.7a437c56e26f9p-1;
     0x1.68ee0329dcd17p-2; 0x1.c71c71c71c71cp-4]%float,
    None, (FixNum 0), (FixNum 1), true.
  by vm_compute.
Qed.

Lemma curve_half_init :
  @HillCurve__init__ test_scipy [1; 2; 4]%float [0.25; 0.375; 0.5]%float None
    (FixNum 0.5) (FixNum 0.25) true = Ok curve_half.
Proof. by vm_compute. Qed.

Lemma curve_flat_fitted : @fitted test_scipy curve_flat.
Proof.
  exists [1; 2; 4]%float, [1; 1; 1]%float, None, FixFalse, (FixNum 1), true.
  by vm_compute.
Qed.

Lemma ic50_bound_raises_below_half_witness :
  @fitted test_scipy curve_low /\
  @ic50 test_scipy curve_low "bound" = Raise (ValueError "invalid `bound` bottom").
Proof.
  split; [exact curve_low_fitted|].
  apply (@ic50_bound_raises_below_half test_scipy);
    [exact curve_low_fitted | reflexivity | reflexivity].
Defined.

Lemma ic50_ignores_method_in_range_witness :
  @fitted test_scipy curve_hill /\
  @ic50 test_scipy curve_hill "interpolate" = Ok (Some 2%float) /\
  @ic50 test_scipy curve_hill "no such method" = Ok (Some 2%float).
Proof.
  split; [exact curve_hill_fitted|]. split; [by vm_compute|].
  apply (@ic50_ignores_method_in_range test_scipy);
    [exact curve_hill_fitted | by vm_compute].
Defined.

Lemma ic50_zero_division_witness :
  @HillCurve__init__ test_scipy [1; 2; 4]%float [0.25; 0.375; 0.5]%float None
    (FixNum 0.5) (FixNum 0.25) true = Ok curve_half /\
  @ic50 test_scipy curve_half "interpolate" = Raise ZeroDivisionError.
Proof.
  split; [exact curve_half_init|].
  apply (@ic50_zero_division test_scipy _ _ _ 0.25%float _ _ _ curve_half_init).
  reflexivity.
Defined.

Lemma ic50_bound_is_endpoint_witness :
  @fitted test_scipy curve_flat /\
  @ic50 test_scipy curve_flat "bound" = Ok (Some 4%float) /\
  @ic50 test_scipy curve_flat "interpolate" = Ok None /\
  (@ic50_bound test_scipy curve_flat = Ok "lower"%string \/
   @ic50_bound test_scipy curve_flat = Ok "upper"%string).
Proof.
  split; [exact curve_flat_fitted|].
  split; [by vm_compute|]. split; [by vm_compute|].
  destruct (@ic50_bound_is_endpoint test_scipy curve_flat curve_flat_fitted)
    as (Hend & _ & _).
  apply (Hend 4%float); by vm_compute.
Defined.

(** ** The initial guess of the midpoint *)

Lemma first_true_Some l i :
  first_true l = Some i ->
  l !! i = Some true /\ forall j, j < i -> l !! j = Some false.
Proof.
  revert i. induction l as [|b l IH]; intros i Hi; [done|].
  simpl in Hi. destruct b.
  - injection Hi as <-. split; [done | lia].
  - destruct (first_true l) as [k|]; [|done]. injection Hi as <-.
    destruct (IH k eq_refl) as [Hk Hlt]. split; [done|].
    intros [|j] Hj; [done|]. simpl. apply Hlt. lia.
Qed.

Lemma first_true_None l : first_true l = None -> Forall (fun b => b = false) l.
Proof.
  induction l as [|b l IH]; intros Hl; [constructor|].
  simpl in Hl. destruct b; [done|].
  destruct (first_true l); [done|]. constructor; [done | by apply IH].
Qed.

Lemma adjacent_ne_lookup a i d :
  adjacent_ne a !! i = Some d <->
  exists x y, a !! i = Some x /\ a !! (i + 1) = Some y /\ d = negb (Bool.eqb x y).
Proof.
  unfold adjacent_ne. rewrite lookup_zip_with_Some. split.
  - intros (x & y & -> & Hx & Hy).
    apply lookup_take_Some in Hx as [Hx _]. rewrite lookup_drop in Hy.
    exists x, y. by rewrite Nat.add_comm.
  - intros (x & y & Hx & Hy & ->). exists x, y. split; [done|]. split.
    + apply lookup_take_Some. split; [done|].
      apply lookup_lt_Some in Hy. lia.
    + rewrite lookup_drop. by rewrite Nat.add_comm.
Qed.

Lemma forallb_false {A} (p : A -> bool) (l : list A) :
  forallb p l = false -> exists i x, l !! i = Some x /\ p x = false.
Proof.
  induction l as [|x l IH]; [done|]. simpl.
  destruct (p x) eqn:Hx; simpl.
  - intros (i & y & Hy & Hp)%IH. by exists (S i), y.
  - intros _. by exists 0, x.
Qed.

(** A boolean array whose neighbours all agree is constant. *)
Lemma constant_when_neighbours_agree (a : list bool) :
  (forall i x y, a !! i = Some x -> a !! (i + 1) = Some y -> x = y) ->
  forall i x y, a !! 0 = Some x -> a !! i = Some y -> x = y.
Proof.
  intros Hagree i. induction i as [|i IH]; intros x y H0 Hi; [congruence|].
  destruct (a !! i) as [z|] eqn:Hz.
  - rewrite (IH x z H0 eq_refl). apply (Hagree i); [done|].
    by rewrite Nat.add_1_r.
  - apply lookup_ge_None in Hz. apply lookup_lt_Some in Hi. lia.
Qed.

(** What [midpoint_crossing] computes when every response can be compared
    with [midval]: with every response above [midval], or every response
    at most [midval], an end of the concentration range picked by the sign
    of the slope guess; otherwise the mean of the two concentrations at the
    first index where [response > midval] changes. *)
Lemma midpoint_crossing_comparable midval cs fs slope :
  length cs = length fs -> fs <> [] ->
  Forall (fun f => F.le f midval = negb (F.gt f midval)) fs ->
  let above := (fun f => F.gt f midval) <$> fs in
  exists c0 cN,
    item_first cs = Ok c0 /\ item_last cs = Ok cN /\
    if forallb (fun f => F.gt f midval) fs then
      midpoint_crossing midval cs fs slope = Ok (if F.gt slope 0 then cN else c0)
    else if forallb (fun f => F.le f midval) fs then
      midpoint_crossing midval cs fs slope = Ok (if F.gt slope 0 then c0 else cN)
    else
      exists i a b c c',
        above !! i = Some a /\ above !! (i + 1) = Some b /\ a <> b /\
        (forall j x y, j < i -> above !! j = Some x ->
                       above !! (j + 1) = Some y -> x = y) /\
        cs !! i = Some c /\ cs !! (i + 1) = Some c' /\
        midpoint_crossing midval cs fs slope = Ok ((c + c') / 2)%float.
Proof.
  intros Hlen Hne Hcmp above.
  assert (cs <> []) as Hcs by (intros ->; by destruct fs).
  destruct (item_first_is_ok _ Hcs) as [c0 Hc0].
  destruct (item_last_is_ok _ Hcs) as [cN HcN].
  exists c0, cN. split; [done|]. split; [done|].
  unfold midpoint_crossing. fold above. rewrite Hc0, HcN.
  destruct (forallb (fun f => F.gt f midval) fs) eqn:Hall.
  { by destruct (F.gt slope 0). }
  destruct (forallb (fun f => F.le f midval) fs) eqn:Hnone.
  { by destruct (F.gt slope 0). }
  (* some response is above midval and some is not *)
  assert (exists j, above !! j = Some false) as [jf Hjf].
  { apply forallb_false in Hall as (j & f & Hj & Hf). exists j.
    unfold above. rewrite list_lookup_fmap, Hj. simpl. by rewrite Hf. }
  assert (exists j, above !! j = Some true) as [jt Hjt].
  { apply forallb_false in Hnone as (j & f & Hj & Hf). exists j.
    unfold above. rewrite list_lookup_fmap, Hj. simpl.
    rewrite Forall_forall in Hcmp.
    rewrite (Hcmp f (list_elem_of_lookup_2 _ _ _ Hj)) in Hf.
    by destruct (F.gt f midval). }
  destruct (first_true (adjacent_ne above)) as [i|] eqn:Hfirst.
  - assert (np_argmax (adjacent_ne above) = Ok i) as Hargmax.
    { unfold np_argmax. destruct (adjacent_ne above); [done|].
      by rewrite Hfirst. }
    apply first_true_Some in Hfirst as [Hi Hbefore].
    apply adjacent_ne_lookup in Hi as (a & b & Ha & Hb & Hab).
    assert (length above = length cs) as Hlen'.
    { unfold above. by rewrite length_fmap. }
    destruct (cs !! i) as [c|] eqn:Hc.
    2:{ apply lookup_ge_None in Hc. apply lookup_lt_Some in Ha. lia. }
    destruct (cs !! (i + 1)) as [c'|] eqn:Hc'.
    2:{ apply lookup_ge_None in Hc'. apply lookup_lt_Some in Hb. lia. }
    exists i, a, b, c, c'. repeat split; try done.
    + intros ->. by destruct b.
    + intros j x y Hj Hx Hy. specialize (Hbefore j Hj).
      apply adjacent_ne_lookup in Hbefore as (x' & y' & Hx' & Hy' & Hd).
      assert (x' = x) as -> by congruence.
      assert (y' = y) as -> by congruence.
      by destruct x, y.
    + rewrite Hargmax. simpl. unfold item_at. rewrite Ha, Hb, Hc, Hc'. simpl.
      assert (Bool.eqb a b = false) as -> by (by destruct a, b).
      done.
  - exfalso. apply first_true_None in Hfirst. rewrite Forall_forall in Hfirst.
    assert (forall i x y, above !! i = Some x -> above !! (i + 1) = Some y ->
                          x = y) as Hagree.
    { intros i x y Hx Hy.
      assert (adjacent_ne above !! i = Some (negb (Bool.eqb x y))) as Hd.
      { apply adjacent_ne_lookup. eauto. }
      apply list_elem_of_lookup_2, Hfirst in Hd. by destruct x, y. }
    destruct (above !! 0) as [z|] eqn:Hz.
    + pose proof (constant_when_neighbours_agree _ Hagree jf z false Hz Hjf).
      pose proof (constant_when_neighbours_agree _ Hagree jt z true Hz Hjt).
      congruence.
    + apply lookup_ge_None in Hz. apply lookup_lt_Some in Hjf. lia.
Qed.

Lemma F_le_negb_gt x y :
  is_nan x = false -> is_nan y = false -> F.le x y = negb (F.gt x y).
Proof.
  intros Hx Hy. change (F.gt x y) with (F.lt y x).
  destruct (F.le x y) eqn:Hle.
  - by rewrite (F_le_lt_false _ _ Hle).
  - by rewrite (F_le_total _ _ Hx Hy Hle).
Qed.

Lemma F_gt_nan x y : is_nan y = true -> F.gt x y = false.
Proof.
  intros Hy. change (F.gt x y) with (F.lt y x).
  destruct (F.lt y x) eqn:Hlt; [|done].
  apply F_lt_key in Hlt as (Hy' & _). congruence.
Qed.

Lemma F_le_nan x y : is_nan y = true -> F.le x y = false.
Proof.
  intros Hy. destruct (F.le x y) eqn:Hle; [|done].
  apply F_le_key in Hle as (_ & Hy' & _). congruence.
Qed.

(** X3: the guess of the midpoint, on float arrays [cs] and [fs] of one
    length with no response NaN.  When [midval] is not NaN the guess never
    fails: with every response above [midval], or every response at most
    [midval], it is an end of the concentration range picked by the sign
    of the slope guess; otherwise it is the mean of the two concentrations
    at the first index where [response > midval] changes.  When [midval]
    is NaN the guess always fails: the assertion of the crossing fails,
    or, with a single response, [argmax] raises on an empty array. *)
Theorem midpoint_crossing_spec midval cs fs slope :
  length cs = length fs -> fs <> [] -> no_nan fs ->
  let above := (fun f => F.gt f midval) <$> fs in
  exists c0 cN,
    item_first cs = Ok c0 /\ item_last cs = Ok cN /\
    if is_nan midval then
      midpoint_crossing midval cs fs slope =
      if decide (length fs = 1)
      then Raise (ValueError "attempt to get argmax of an empty sequence")
      else Raise AssertionError
    else if forallb (fun f => F.gt f midval) fs then
      midpoint_crossing midval cs fs slope = Ok (if F.gt slope 0 then cN else c0)
    else if forallb (fun f => F.le f midval) fs then
      midpoint_crossing midval cs fs slope = Ok (if F.gt slope 0 then c0 else cN)
    else
      exists i a b c c',
        above !! i = Some a /\ above !! (i + 1) = Some b /\ a <> b /\
        (forall j x y, j < i -> above !! j = Some x ->
                       above !! (j + 1) = Some y -> x = y) /\
        cs !! i = Some c /\ cs !! (i + 1) = Some c' /\
        midpoint_crossing midval cs fs slope = Ok ((c + c') / 2)%float.
Proof.
  intros Hlen Hne Hnan above.
  destruct (is_nan midval) eqn:Hmid.
  - assert (cs <> []) as Hcs by (intros ->; by destruct fs).
    destruct (item_first_is_ok _ Hcs) as [c0 Hc0].
    destruct (item_last_is_ok _ Hcs) as [cN HcN].
    exists c0, cN. split; [done|]. split; [done|].
    unfold midpoint_crossing.
    destruct fs as [|f0 fs']; [done|]. cbn [forallb].
    rewrite (F_gt_nan f0 _ Hmid), (F_le_nan f0 _ Hmid). cbn [andb].
    destruct fs' as [|f1 fs'].
    + by destruct (decide (length [f0] = 1)).
    + destruct (decide (length (f0 :: f1 :: fs') = 1)) as [Hone|_];
        [simpl in Hone; lia|].
      assert (forall l, first_true
                (adjacent_ne ((fun f => F.gt f midval) <$> l)) = None)
        as Hflat.
      { intros l. destruct (first_true _) as [i|] eqn:Hi; [|done].
        apply first_true_Some in Hi as [Hi _].
        apply adjacent_ne_lookup in Hi as (x & y & Hx & Hy & Hd).
        rewrite list_lookup_fmap in Hx, Hy.
        destruct (l !! i) as [fx|]; [|done].
        destruct (l !! (i + 1)) as [fy|]; [|done].
        simpl in Hx, Hy. rewrite (F_gt_nan fx _ Hmid) in Hx.
        rewrite (F_gt_nan fy _ Hmid) in Hy.
        injection Hx as <-. injection Hy as <-. done. }
      unfold np_argmax.
      destruct (adjacent_ne ((fun f => F.gt f midval) <$> f0 :: f1 :: fs'))
        as [|d ds] eqn:Hadj.
      { apply (f_equal length) in Hadj. unfold adjacent_ne in Hadj.
        rewrite length_zip_with, length_take, length_drop, !length_fmap in Hadj.
        simpl in Hadj. lia. }
      rewrite <- Hadj, Hflat. simpl.
      by rewrite !(F_gt_nan _ _ Hmid).
  - apply midpoint_crossing_comparable; [done | done |].
    eapply Forall_impl; [exact Hnan|]. intros f Hf. simpl in Hf.
    by apply F_le_negb_gt.
Qed.

(** C4: the midpoint guess is not taken at the halfway value between the
    guessed top and bottom.  For [HillCurve([1, 2, 3], [1, 0.875, 0.625])]
    the guesses are top = 1 and bottom = 0.625: the source's [midval] is
    0.1875, every response lies above it and the guess is the last
    concentration, 3, which is what the optimizer is started from; at the
    halfway value 0.8125 the responses cross between 2 and 3 and the guess
    would be 2.5. *)
Theorem guess_midpoint_not_at_halfway :
  guess_slope [1; 0.875; 0.625]%float = Ok 1.5%float /\
  guess_top (FixNum 1) 1.5 [1; 0.875; 0.625]%float = Ok (PyFloat 1) /\
  guess_bottom FixFalse 1.5 [1; 0.875; 0.625]%float = Ok (NpFloat 0.625) /\
  midval (PyFloat 1) (NpFloat 0.625) = 0.1875%float /\
  spec_midvalue (PyFloat 1) (NpFloat 0.625) = 0.8125%float /\
  guess_midpoint [1; 2; 3]%float [1; 0.875; 0.625]%float
    (PyFloat 1) (NpFloat 0.625) 1.5 = Ok 3%float /\
  spec_guess_midpoint [1; 2; 3]%float [1; 0.875; 0.625]%float
    (PyFloat 1) (NpFloat 0.625) 1.5 = Ok 2.5%float /\
  forall scipy : SciPy,
    exists f xdata,
      @HillCurve__init__ scipy [1; 2; 3]%float [1; 0.875; 0.625]%float None
        FixFalse (FixNum 1) true =
      curve_fit f xdata [1; 0.875; 0.625]%float [3; 1.5; 0.625]%float None
      ≫= set_fitted FixFalse (FixNum 1) [1; 2; 3]%float
           [1; 0.875; 0.625]%float None (NpFloat 0.625) (PyFloat 1).
Proof.
  repeat split; try (by vm_compute).
  intros scipy. eexists _, _. reflexivity.
Qed.

(** ** [concentrationRange] *)

Section ConcentrationRange.
Context `{SciPy}.

Lemma np_logspace_Ok start stop num :
  (0 <= num)%Z ->
  exists l, np_logspace start stop num = Ok l /\
            length l = Z.to_nat num /\
            forall i, i < Z.to_nat num ->
              l !! i = Some (np_power 10
                               (linspace_sample start stop (Z.to_nat num) i)).
Proof.
  intros Hnum. unfold np_logspace, np_linspace.
  destruct (num <? 0)%Z eqn:Hneg; [lia|]. simpl.
  eexists. split; [done|]. split.
  - by rewrite length_map, length_fmap, length_seq.
  - intros i Hi.
    change (map (np_power 10)) with (fmap (M:=list) (np_power 10)).
    by rewrite !list_lookup_fmap, lookup_seq_lt.
Qed.

(** [concentrationRange(low, high, npoints, extend)] raises [ValueError]
    whenever [low >= high] or [low <= 0].  For [low < high], [low > 0],
    [extend >= 0] and a count [npoints >= 0] it returns [npoints] values
    [10 ** e_i] whose exponents are the evenly spaced samples between
    [log10 low - extend * r] and [log10 high + extend * r], with
    [r = log10 high - log10 low], the last exponent being the upper end
    itself, as long as [r] comes out positive. *)
Lemma concentrationRange_spec (low high : float) (npoints : Z)
    (extend : float) :
  (F.ge low high = true \/ F.le low 0 = true ->
   exists msg, concentrationRange low high npoints extend
               = Raise (ValueError msg)) /\
  (F.lt low high = true -> F.gt low 0 = true -> F.ge extend 0 = true ->
   (0 <= npoints)%Z ->
   let r := (libm_log10 high - libm_log10 low)%float in
   F.gt r 0 = true ->
   let start := (libm_log10 low - r * extend)%float in
   let stop := (libm_log10 high + r * extend)%float in
   exists l,
     concentrationRange low high npoints extend = Ok l /\
     length l = Z.to_nat npoints /\
     forall i, i < Z.to_nat npoints ->
       l !! i = Some (np_power 10
                        (linspace_sample start stop (Z.to_nat npoints) i))).
Proof.
  split.
  - unfold concentrationRange. intros [Hge | Hle].
    + change (F.ge low high) with (F.le high low) in Hge. rewrite Hge. eauto.
    + destruct (F.le high low); [eauto|]. rewrite Hle. eauto.
  - intros Hlt Hpos Hext Hn r Hr start stop.
    unfold concentrationRange, math_log10.
    rewrite (F_lt_le_false _ _ Hlt).
    change (F.gt low 0) with (F.lt 0 low) in Hpos.
    rewrite (F_lt_le_false _ _ Hpos).
    change (F.ge extend 0) with (F.le 0 extend) in Hext.
    rewrite (F_le_lt_false _ _ Hext).
    rewrite (F_lt_le_false _ _ (F_lt_trans _ _ _ Hpos Hlt)). simpl.
    fold r. rewrite Hr. simpl.
    by apply np_logspace_Ok.
Qed.

(** C8: [concentrationRange] does not return for every [low < high] with
    [low > 0] and [extend >= 0].  When the two logarithms come out equal,
    or in the wrong order, the assertion [logrange > 0] of the source
    fails: the call raises [AssertionError], whatever [npoints] is. *)
Theorem concentrationRange_asserts (low high : float) (npoints : Z)
    (extend : float) :
  F.lt low high = true -> F.gt low 0 = true -> F.ge extend 0 = true ->
  F.gt (libm_log10 high - libm_log10 low) 0 = false ->
  concentrationRange low high npoints extend = Raise AssertionError.
Proof.
  intros Hlt Hpos Hext Hr.
  unfold concentrationRange, math_log10.
  rewrite (F_lt_le_false _ _ Hlt).
  change (F.gt low 0) with (F.lt 0 low) in Hpos.
  rewrite (F_lt_le_false _ _ Hpos).
  change (F.ge extend 0) with (F.le 0 extend) in Hext.
  rewrite (F_le_lt_false _ _ Hext).
  rewrite (F_lt_le_false _ _ (F_lt_trans _ _ _ Hpos Hlt)). simpl.
  by rewrite Hr.
Qed.

End ConcentrationRange.

(** [concentrationRange(1e10, 10000000000.000002)]: the two ends differ,
    their base-10 logarithms are both 10.0. *)
Lemma concentrationRange_asserts_witness :
  F.lt 1e10 0x1.2a05f20000001p+33 = true /\
  @libm_log10 test_scipy_log10 1e10 = 10%float /\
  @libm_log10 test_scipy_log10 0x1.2a05f20000001p+33 = 10%float /\
  @concentrationRange test_scipy_log10 1e10 0x1.2a05f20000001p+33 200
    default_extend = Raise AssertionError.
Proof.
  split; [reflexivity|]. split; [reflexivity|]. split; [reflexivity|].
  apply (@concentrationRange_asserts test_scipy_log10); reflexivity.
Defined.

Lemma concentrationRange_spec_witness :
  exists l,
    @concentrationRange test_scipy 1 2 2 0 = Ok l /\
    length l = 2 /\
    forall i, i < 2 ->
      l !! i = Some (@np_power test_scipy 10 (linspace_sample 1 2 2 i)).
Proof.
  apply (proj2 (@concentrationRange_spec test_scipy 1 2 2 0));
    solve [reflexivity | done].
Defined.

(** ** The constructor of [CurveFits] *)

Lemma list_eq_refl l : no_nan l -> list_eq l l = true.
Proof.
  induction 1 as [|x l Hx _ IH]; [done|]. simpl.
  by rewrite (F_eq_refl x Hx), IH.
Qed.

(** X4: the second replicate is never looked at: [conc2] repeats the query
    of [conc1], and the comparison can only fail on a NaN. *)
Lemma check_later_replicates_Ok virus_data serum virus rep1 later :
  no_nan (replicate_concs virus_data rep1) ->
  check_later_replicates virus_data serum virus rep1
    (replicate_concs virus_data rep1) later = Ok ().
Proof.
  intros Hnan. induction later as [|rep2 later IH]; [done|]. simpl.
  by rewrite (list_eq_refl _ Hnan).
Qed.

(** C2: a data set whose two replicates of serum1 and virus1 have the
    concentrations [1; 2] and [1; 4] is accepted by the constructor: no
    [ValueError] is raised, and the constructed object lists both
    replicates. *)
Theorem mismatched_replicates_accepted :
  replicate_concs (rows mismatched_data) "1" = [1; 2]%float /\
  replicate_concs (rows mismatched_data) "2" = [1; 4]%float /\
  exists self,
    CurveFits__init__ mismatched_data "concentration" "fraction infectivity"
      "serum" "virus" "replicate" FixFalse (FixNum 1) = Ok self /\
    replicates self !! ("serum1", "virus1") = Some ["1"; "2"; "average"].
Proof.
  split; [by vm_compute|]. split; [by vm_compute|].
  eexists. split; [by vm_compute | by vm_compute].
Qed.

(** ** The caches of [CurveFits] *)

Section MethodFacts.
Context `{SciPy}.

Lemma same_data_refl a : same_data a a.
Proof. by repeat split. Qed.

Lemma same_data_trans a b c : same_data a b -> same_data b c -> same_data a c.
Proof.
  intros (? & ? & ? & ? & ? & ?) (? & ? & ? & ? & ? & ?).
  repeat split; congruence.
Qed.

Lemma evolves_refl a : evolves a a.
Proof. split; [apply same_data_refl|]. by repeat split. Qed.

Lemma evolves_trans a b c : evolves a b -> evolves b c -> evolves a c.
Proof.
  intros (Hd1 & Hc1 & Ht1 & Hn1) (Hd2 & Hc2 & Ht2 & Hn2).
  split; [by eapply same_data_trans|]. repeat split.
  - intros k o Hk. by apply Hc2, Hc1.
  - intros t Ht. by apply Ht2, Ht1.
  - lia.
Qed.

Lemma curve_data_same a b serum virus replicate :
  same_data a b ->
  curve_data a serum virus replicate = curve_data b serum virus replicate.
Proof.
  intros (Hdf & Hsera & Hv & Hr & _). unfold curve_data.
  by rewrite Hdf, Hsera, Hv, Hr.
Qed.

Section Respects.
Variable R : relation CurveFits.
Hypothesis R_refl : forall a, R a a.
Hypothesis R_trans : forall a b c, R a b -> R b c -> R a c.
Hypothesis R_getCurve : forall serum virus replicate,
  respects R (getCurve serum virus replicate).

Lemma respects_ret {A} (a : A) : respects R (ret a).
Proof. intros self. apply R_refl. Qed.

Lemma respects_lift {A} (r : result A) : respects R (lift r).
Proof. intros self. apply R_refl. Qed.

Lemma respects_read {A} (g : CurveFits -> result A) :
  respects R (fun self => (g self, self)).
Proof. intros self. apply R_refl. Qed.

Lemma respects_bind {A B} (m : method A) (f : A -> method B) :
  respects R m -> (forall a, respects R (f a)) -> respects R (bind m f).
Proof.
  intros Hm Hf self. unfold bind. specialize (Hm self).
  destruct (m self) as [[a|e] self1]; simpl in *; [|done].
  eapply R_trans; [exact Hm | apply Hf].
Qed.

Lemma respects_replicate_rows serum virus nreplicates reps :
  respects R (replicate_rows serum virus nreplicates reps).
Proof.
  induction reps as [|replicate more IH]; simpl; [apply respects_ret|].
  apply respects_bind; [apply R_getCurve|]. intros curve.
  apply respects_bind; [apply respects_lift|]. intros row.
  apply respects_bind; [apply IH|]. intros rest. apply respects_ret.
Qed.

Lemma respects_virus_rows serum vs : respects R (virus_rows serum vs).
Proof.
  induction vs as [|virus more IH]; simpl; [apply respects_ret|].
  apply respects_bind; [apply respects_read|]. intros reps.
  destruct (negb _); [apply respects_lift|].
  apply respects_bind; [apply respects_replicate_rows|]. intros rows.
  apply respects_bind; [apply IH|]. intros rest. apply respects_ret.
Qed.

Lemma respects_serum_rows l : respects R (serum_rows l).
Proof.
  induction l as [|serum more IH]; simpl; [apply respects_ret|].
  apply respects_bind; [apply respects_read|]. intros vs.
  apply respects_bind; [apply respects_virus_rows|]. intros rows.
  apply respects_bind; [apply IH|]. intros rest. apply respects_ret.
Qed.

End Respects.

Lemma sound_refl a : sound a a.
Proof. intros Hok. split; [done | apply evolves_refl]. Qed.

Lemma sound_trans a b c : sound a b -> sound b c -> sound a c.
Proof.
  intros H1 H2 Hok. destruct (H1 Hok) as [Hok1 Hev1].
  destruct (H2 Hok1) as [Hok2 Hev2].
  split; [done | by eapply evolves_trans].
Qed.

Lemma same_table_refl a : same_table a a.
Proof. done. Qed.

Lemma same_table_trans a b c : same_table a b -> same_table b c -> same_table a c.
Proof. unfold same_table. congruence. Qed.

Lemma evolves_count_call self : evolves self (count_call self).
Proof. split; [by repeat split|]. repeat split; simpl; auto. Qed.

Lemma getCurve_sound serum virus replicate :
  respects sound (getCurve serum virus replicate).
Proof.
  intros self [Hbuilt Hinj]. unfold getCurve.
  destruct (_hillcurves self !! (serum, virus, replicate)) as [o|] eqn:Hk.
  { split; [done | apply evolves_refl]. }
  destruct (curve_data self serum virus replicate) as [[[cs0 fs0] e0]|e] eqn:Hd.
  2:{ split; [done | apply evolves_refl]. }
  assert (cache_ok (count_call self)) as Hcount.
  { split; [|done]. intros k o Ho. destruct (Hbuilt k o Ho) as [Hlt Hb].
    split; [simpl; lia | done]. }
  simpl.
  destruct (HillCurve__init__ cs0 fs0 e0 (fixbottom self) (fixtop self) true)
    as [c|e] eqn:Hc; simpl.
  2:{ split; [done | apply evolves_count_call]. }
  split; [split|].
  - intros k o. simpl. destruct (decide ((serum, virus, replicate) = k)) as [<-|Hne].
    + rewrite lookup_insert_eq. intros [= <-]. simpl. split; [lia|].
      exists cs0, fs0, e0. split; [|done]. by rewrite <- Hd.
    + rewrite lookup_insert_ne by done. intros Ho.
      destruct (Hbuilt k o Ho) as [Hlt Hb]. split; [lia | done].
  - intros k1 k2 o1 o2. simpl.
    destruct (decide ((serum, virus, replicate) = k1)) as [<-|Hne1];
      destruct (decide ((serum, virus, replicate) = k2)) as [<-|Hne2];
      rewrite ?lookup_insert_eq, ?lookup_insert_ne by done; try done.
    + intros [= <-] Ho2 Hid. simpl in Hid.
      destruct (Hbuilt k2 o2 Ho2) as [Hlt _]. lia.
    + intros Ho1 [= <-] Hid. simpl in Hid.
      destruct (Hbuilt k1 o1 Ho1) as [Hlt _]. lia.
    + apply Hinj.
  - split; [by repeat split|]. repeat split; simpl; auto.
    intros k o Ho. rewrite lookup_insert_ne; [done|]. congruence.
Qed.

Lemma getCurve_same_table serum virus replicate :
  respects same_table (getCurve serum virus replicate).
Proof.
  intros self. unfold getCurve, same_table.
  destruct (_hillcurves self !! (serum, virus, replicate)); [done|].
  destruct (curve_data self serum virus replicate) as [[[cs0 fs0] e0]|e];
    [|done].
  simpl. by destruct (HillCurve__init__ _ _ _ _ _ _).
Qed.

Lemma compute_fitparams_sound self :
  _fitparams self = None -> sound self (compute_fitparams self).2.
Proof.
  intros Hnone Hok. unfold compute_fitparams, bind.
  pose proof (respects_serum_rows sound sound_refl sound_trans getCurve_sound
                (sera self) self Hok) as [Hok1 Hev1].
  pose proof (respects_serum_rows same_table same_table_refl same_table_trans
                getCurve_same_table (sera self) self) as Htable.
  unfold same_table in Htable.
  destruct (serum_rows (sera self) self) as [[rows|e] self1]; simpl in *;
    [|done].
  destruct rows as [|row rows]; simpl; [done|].
  split; [by destruct Hok1|].
  eapply evolves_trans; [exact Hev1|].
  split; [by repeat split|]. repeat split; simpl; auto.
  intros t Hsome. congruence.
Qed.

Lemma fitParams_sound average_only : respects sound (fitParams average_only).
Proof.
  intros self Hok. unfold fitParams, bind.
  destruct (_fitparams self) as [t|] eqn:Ht.
  - simpl. rewrite Ht. destruct average_only; simpl;
      (split; [done | apply evolves_refl]).
  - destruct (compute_fitparams_sound self Ht Hok) as [Hok1 Hev1].
    destruct (compute_fitparams self) as [[[]|e] self1]; simpl in *; [|done].
    destruct (_fitparams self1); [|done].
    by destruct average_only.
Qed.

(** Along any sequence of calls the cache stays in order and the object
    only grows. *)
Lemma steps_sound self self' : steps self self' -> sound self self'.
Proof.
  induction 1 as [|self' serum virus replicate _ IH|self' average_only _ IH].
  - apply sound_refl.
  - eapply sound_trans; [exact IH | apply getCurve_sound].
  - eapply sound_trans; [exact IH | apply fitParams_sound].
Qed.

Lemma steps_trans a b c : steps a b -> steps b c -> steps a c.
Proof.
  intros Hab Hbc. induction Hbc; [done | by constructor | by constructor].
Qed.

Lemma init_cache_ok data conc_col fracinf_col serum_col virus_col replicate_col
    fixbottom fixtop self :
  CurveFits__init__ data conc_col fracinf_col serum_col virus_col
    replicate_col fixbottom fixtop = Ok self ->
  cache_ok self /\ _fitparams self = None.
Proof.
  unfold CurveFits__init__. intros Hinit.
  destruct (has_duplicates _); [done|]. destruct (negb _); [done|].
  apply bind_Ok in Hinit as ([vs reps] & _ & Hinit).
  destruct (existsb _ _); [done|]. injection Hinit as <-.
  split; [|done]. split; simpl.
  - intros k o Hk. by rewrite lookup_empty in Hk.
  - intros k1 k2 o1 o2 Hk. by rewrite lookup_empty in Hk.
Qed.

Lemma reachable_cache_ok self : reachable self -> cache_ok self.
Proof.
  intros (data & ? & ? & ? & ? & ? & ? & ? & self0 & Hinit & Hsteps).
  apply init_cache_ok in Hinit as [Hok _].
  by apply (steps_sound _ _ Hsteps).
Qed.

(** What a call of [getCurve] that returns a curve has done: on a hit it
    returns the cached object and changes nothing; on a miss it has called
    the constructor once, on the data of the key, and stored the new object
    under the key, next to what the cache held. *)
Lemma getCurve_Ok serum virus replicate self curve self1 :
  getCurve serum virus replicate self = (Ok curve, self1) ->
  _hillcurves self1 !! (serum, virus, replicate) = Some curve /\
  match _hillcurves self !! (serum, virus, replicate) with
  | Some cached => curve = cached /\ self1 = self
  | None =>
      oid curve = hillcurve_calls self /\
      hillcurve_calls self1 = S (hillcurve_calls self) /\
      _hillcurves self1
        = <[(serum, virus, replicate) := curve]> (_hillcurves self) /\
      exists cs fs e,
        curve_data self serum virus replicate = Ok (cs, fs, e) /\
        HillCurve__init__ cs fs e (fixbottom self) (fixtop self) true
          = Ok (obj curve)
  end.
Proof.
  unfold getCurve.
  destruct (_hillcurves self !! (serum, virus, replicate)) as [o|] eqn:Hk.
  { by intros [= <- <-]. }
  destruct (curve_data self serum virus replicate) as [[[cs0 fs0] e0]|e];
    [|done].
  simpl.
  destruct (HillCurve__init__ cs0 fs0 e0 (fixbottom self) (fixtop self) true)
    as [c|e] eqn:Hc; [|done].
  intros [= <- <-]. simpl. rewrite lookup_insert_eq.
  split; [done|]. split; [done|]. split; [lia|]. split; [done|].
  by exists cs0, fs0, e0.
Qed.

(** C6: a call of [getCurve] that returns a curve leaves it in the cache
    under its key: the object that was cached there, with nothing changed,
    or else a new object, made by one call of the constructor on the data
    of the key, numbered by that call and stored by it.  Every later call
    with that key, after any other calls, finds that object in the cache,
    returns it and leaves the [CurveFits] as it was: nothing is constructed
    or fitted, the count of constructor calls stays.  No two keys of the
    cache hold the same object. *)
Theorem getCurve_computes_once self serum virus replicate curve self1 self2 :
  reachable self ->
  getCurve serum virus replicate self = (Ok curve, self1) ->
  steps self1 self2 ->
  let key := (serum, virus, replicate) in
  _hillcurves self1 !! key = Some curve /\
  match _hillcurves self !! key with
  | Some cached => curve = cached /\ self1 = self
  | None =>
      oid curve = hillcurve_calls self /\
      hillcurve_calls self1 = S (hillcurve_calls self) /\
      _hillcurves self1 = <[key := curve]> (_hillcurves self) /\
      exists cs fs e,
        curve_data self serum virus replicate = Ok (cs, fs, e) /\
        HillCurve__init__ cs fs e (fixbottom self) (fixtop self) true
          = Ok (obj curve)
  end /\
  _hillcurves self2 !! key = Some curve /\
  getCurve serum virus replicate self2 = (Ok curve, self2) /\
  hillcurve_calls (getCurve serum virus replicate self2).2
    = hillcurve_calls self2 /\
  (forall k1 k2 o1 o2,
     _hillcurves self2 !! k1 = Some o1 -> _hillcurves self2 !! k2 = Some o2 ->
     k1 <> k2 -> oid o1 <> oid o2).
Proof.
  intros Hreach Hget Hsteps key.
  pose proof (reachable_cache_ok _ Hreach) as Hok.
  destruct (getCurve_sound serum virus replicate self Hok) as [Hok1 _].
  rewrite Hget in Hok1. simpl in Hok1.
  destruct (steps_sound _ _ Hsteps Hok1) as [Hok2 (_ & Hcache & _)].
  destruct (getCurve_Ok _ _ _ _ _ _ Hget) as [Hin Hfirst].
  assert (getCurve serum virus replicate self2 = (Ok curve, self2)) as Hagain.
  { unfold getCurve. by rewrite (Hcache _ _ Hin). }
  split; [done|]. split; [done|]. split; [by apply Hcache|].
  split; [done|]. split; [by rewrite Hagain|].
  intros k1 k2 o1 o2 H1 H2 Hne Hid. destruct Hok2 as [_ Hinj].
  by apply Hne, (Hinj k1 k2 o1 o2).
Qed.

(** *** The table of [fitParams] *)

Lemma filter_length_lt {A} (p : A -> bool) (l : list A) :
  length (List.filter p l) < length l -> exists x, x ∈ l /\ p x = false.
Proof.
  induction l as [|x l IH]; simpl; [lia|].
  destruct (p x) eqn:Hx; simpl.
  - intros Hlt. destruct IH as (y & Hy & Hp); [lia|].
    exists y. split; [by right | done].
  - intros _. exists x. split; [by left | done].
Qed.

Lemma elem_of_all_keys self serum virus replicate :
  (serum, virus, replicate) ∈ all_keys self <->
  serum ∈ sera self /\
  virus ∈ default [] (viruses self !! serum) /\
  replicate ∈ default [] (replicates self !! (serum, virus)).
Proof.
  unfold all_keys. rewrite list_elem_of_In, in_concat. split.
  - intros (l & Hl & Hin). apply in_map_iff in Hl as (s & <- & Hs).
    apply in_concat in Hin as (l' & Hl' & Hin).
    apply in_map_iff in Hl' as (v & <- & Hv).
    apply in_map_iff in Hin as (r & [= <- <- <-] & Hr).
    by rewrite !list_elem_of_In.
  - rewrite !list_elem_of_In. intros (Hs & Hv & Hr).
    eexists. split; [apply in_map_iff; eexists; split; [done | exact Hs]|].
    apply in_concat.
    eexists. split; [apply in_map_iff; eexists; split; [done | exact Hv]|].
    apply in_map_iff. eauto.
Qed.

Lemma getCurve_same_data serum virus replicate :
  respects same_data (getCurve serum virus replicate).
Proof.
  intros self. unfold getCurve.
  destruct (_hillcurves self !! (serum, virus, replicate));
    [apply same_data_refl|].
  destruct (curve_data self serum virus replicate) as [[[cs0 fs0] e0]|e];
    [|apply same_data_refl].
  simpl. by destruct (HillCurve__init__ _ _ _ _ _ _).
Qed.

Lemma param_row_Ok serum virus replicate n curve row :
  param_row serum virus replicate n curve = Ok row ->
  row_key row = (serum, virus, replicate) /\
  p_nreplicates row = if String.eqb replicate "average" then Some n else None.
Proof.
  unfold param_row. intros Hrow.
  apply bind_Ok in Hrow as (i & _ & Hrow).
  apply bind_Ok in Hrow as (b & _ & Hrow).
  apply bind_Ok in Hrow as (str & _ & Hrow).
  by injection Hrow as <-.
Qed.

Lemma replicate_rows_Ok serum virus n reps self rows self' :
  replicate_rows serum virus n reps self = (Ok rows, self') ->
  row_key <$> rows = (fun replicate => (serum, virus, replicate)) <$> reps /\
  Forall (fun row => p_serum row = serum /\ p_virus row = virus /\
                     p_nreplicates row =
                     if String.eqb (p_replicate row) "average"
                     then Some n else None) rows.
Proof.
  revert self rows. induction reps as [|replicate more IH]; intros self rows.
  { intros [= <- <-]. by split. }
  simpl. unfold bind at 1.
  destruct (getCurve serum virus replicate self) as [[curve|e] self1]; [|done].
  unfold bind at 1, lift at 1.
  destruct (param_row serum virus replicate n (obj curve)) as [row|e] eqn:Hrow;
    [|done].
  unfold bind at 1.
  destruct (replicate_rows serum virus n more self1) as [[rest|e] self2] eqn:Hrest;
    [|done].
  intros [= <- <-]. apply IH in Hrest as [Hkeys Hall].
  apply param_row_Ok in Hrow as [Hkey Hn].
  split; [by rewrite !fmap_cons, Hkey, Hkeys|].
  constructor; [|done].
  unfold row_key in Hkey. injection Hkey as -> -> ->. by rewrite Hn.
Qed.

Lemma virus_rows_Ok serum vs self rows self' :
  virus_rows serum vs self = (Ok rows, self') ->
  row_key <$> rows =
    concat ((fun virus =>
               (fun replicate => (serum, virus, replicate))
                 <$> default [] (replicates self !! (serum, virus))) <$> vs) /\
  Forall (count_on_average self) rows /\
  Forall (fun virus =>
            "average"%string ∈ default [] (replicates self !! (serum, virus)))
         vs.
Proof.
  revert self rows. induction vs as [|virus more IH]; intros self rows.
  { intros [= <- <-]. by repeat split. }
  simpl. unfold bind at 1.
  destruct (replicates self !! (serum, virus)) as [reps|] eqn:Hreps; [|done].
  simpl. destruct (negb _) eqn:Hassert; [done|].
  unfold bind at 1.
  pose proof (respects_replicate_rows same_data same_data_refl same_data_trans
                getCurve_same_data serum virus
                (length (List.filter (fun r => negb (String.eqb r "average")) reps))
                reps self) as Hsame.
  destruct (replicate_rows serum virus _ reps self) as [[rows1|e] self1] eqn:Hrows1;
    [|done].
  unfold bind at 1.
  destruct (virus_rows serum more self1) as [[rest|e] self2] eqn:Hrest; [|done].
  intros [= <- <-]. apply IH in Hrest as (Hkeys & Hall & Havg).
  apply replicate_rows_Ok in Hrows1 as [Hkeys1 Hall1].
  simpl in Hsame. destruct Hsame as (_ & _ & _ & Hr & _).
  split; [|split].
  - rewrite fmap_app, Hkeys1, Hkeys. by rewrite <- Hr.
  - apply Forall_app. split.
    + eapply Forall_impl; [exact Hall1|]. intros row (Hs & Hv & Hn).
      unfold count_on_average, nreplicates_of. by rewrite Hn, Hs, Hv, Hreps.
    + eapply Forall_impl; [exact Hall|]. intros row.
      unfold count_on_average, nreplicates_of. by rewrite Hr.
  - constructor.
    + apply negb_false_iff, Z.eqb_eq in Hassert.
      destruct (filter_length_lt (fun r => negb (String.eqb r "average")) reps)
        as (x & Hx & Hp); [lia|].
      apply negb_false_iff, String.eqb_eq in Hp. subst x. by rewrite Hreps.
    + eapply Forall_impl; [exact Havg|]. intros v. simpl. by rewrite Hr.
Qed.

Lemma serum_rows_Ok l self rows self' :
  serum_rows l self = (Ok rows, self') ->
  row_key <$> rows =
    concat
      ((fun serum =>
          concat
            ((fun virus =>
                (fun replicate => (serum, virus, replicate))
                  <$> default [] (replicates self !! (serum, virus)))
               <$> default [] (viruses self !! serum))) <$> l) /\
  Forall (count_on_average self) rows /\
  Forall (fun serum =>
            Forall (fun virus =>
                      "average"%string ∈
                        default [] (replicates self !! (serum, virus)))
                   (default [] (viruses self !! serum))) l.
Proof.
  revert self rows. induction l as [|serum more IH]; intros self rows.
  { intros [= <- <-]. by repeat split. }
  simpl. unfold bind at 1.
  destruct (viruses self !! serum) as [vs|] eqn:Hvs; [|done].
  simpl. unfold bind at 1.
  pose proof (respects_virus_rows same_data same_data_refl same_data_trans
                getCurve_same_data serum vs self) as Hsame.
  destruct (virus_rows serum vs self) as [[rows1|e] self1] eqn:Hrows1; [|done].
  unfold bind at 1.
  destruct (serum_rows more self1) as [[rest|e] self2] eqn:Hrest; [|done].
  intros [= <- <-]. apply IH in Hrest as (Hkeys & Hall & Havg).
  apply virus_rows_Ok in Hrows1 as (Hkeys1 & Hall1 & Havg1).
  simpl in Hsame. destruct Hsame as (_ & _ & Hv & Hr & _).
  split; [|split].
  - rewrite fmap_app, Hkeys1, Hkeys. by rewrite <- Hr, <- Hv.
  - apply Forall_app. split; [done|].
    eapply Forall_impl; [exact Hall|]. intros row.
    unfold count_on_average, nreplicates_of. by rewrite Hr.
  - constructor; [by rewrite Hvs|].
    eapply Forall_impl; [exact Havg|]. intros s'. simpl. by rewrite Hr, Hv.
Qed.

Lemma full_table_same a b full :
  same_data a b -> full_table a full -> full_table b full.
Proof.
  intros (_ & Hs & Hv & Hr & _) (Hkeys & Hall & Havg). split; [|split].
  - rewrite Hkeys. unfold all_keys. by rewrite Hs, Hv, Hr.
  - eapply Forall_impl; [exact Hall|]. intros row.
    unfold count_on_average, nreplicates_of. by rewrite Hr.
  - by rewrite <- Hs, <- Hv, <- Hr.
Qed.

Lemma table_ok_refl a : table_ok a a.
Proof. split; [apply same_data_refl | done]. Qed.

Lemma table_ok_trans a b c : table_ok a b -> table_ok b c -> table_ok a c.
Proof.
  intros [Hd1 H1] [Hd2 H2]. split; [by eapply same_data_trans | auto].
Qed.

Lemma getCurve_table_ok serum virus replicate :
  respects table_ok (getCurve serum virus replicate).
Proof.
  intros self.
  pose proof (getCurve_same_data serum virus replicate self) as Hsame.
  pose proof (getCurve_same_table serum virus replicate self) as Htable.
  split; [done|]. intros Hfull full Hsome.
  unfold same_table in Htable. rewrite Htable in Hsome.
  by eapply full_table_same, Hfull.
Qed.

Lemma compute_fitparams_table self :
  _fitparams self = None ->
  same_data self (compute_fitparams self).2 /\
  match compute_fitparams self with
  | (Ok _, self1) => exists full, _fitparams self1 = Some full /\
                                  full_table self full
  | (Raise _, self1) => _fitparams self1 = None
  end.
Proof.
  intros Hnone. unfold compute_fitparams, bind.
  pose proof (respects_serum_rows same_data same_data_refl same_data_trans
                getCurve_same_data (sera self) self) as Hsame.
  pose proof (respects_serum_rows same_table same_table_refl same_table_trans
                getCurve_same_table (sera self) self) as Htable.
  unfold same_table in Htable.
  destruct (serum_rows (sera self) self) as [[rows|e] self1] eqn:Hrows;
    simpl in *; [|split; [done | congruence]].
  destruct rows as [|row rows]; simpl; [split; [done | congruence]|].
  split; [done|]. exists (row :: rows). split; [done|].
  by apply serum_rows_Ok in Hrows.
Qed.

Lemma fitParams_table_ok average_only :
  respects table_ok (fitParams average_only).
Proof.
  intros self. unfold fitParams, bind.
  destruct (_fitparams self) as [t|] eqn:Ht.
  - simpl. rewrite Ht. destruct average_only; apply table_ok_refl.
  - destruct (compute_fitparams_table self Ht) as [Hsame Hres].
    destruct (compute_fitparams self) as [[[]|e] self1]; simpl in *.
    + destruct Hres as (full & Hfull & Htab). rewrite Hfull.
      assert (table_ok self self1) as Hok.
      { split; [done|]. intros _ full' Hsome.
        assert (full' = full) as -> by congruence.
        by eapply full_table_same. }
      by destruct average_only.
    + split; [done|]. intros _ full Hsome. congruence.
Qed.

Lemma steps_table_ok self self' : steps self self' -> table_ok self self'.
Proof.
  induction 1 as [|self' serum virus replicate _ IH|self' average_only _ IH].
  - apply table_ok_refl.
  - eapply table_ok_trans; [exact IH | apply getCurve_table_ok].
  - eapply table_ok_trans; [exact IH | apply fitParams_table_ok].
Qed.

Lemma reachable_table self full :
  reachable self -> _fitparams self = Some full -> full_table self full.
Proof.
  intros (data & ? & ? & ? & ? & ? & ? & ? & self0 & Hinit & Hsteps).
  apply init_cache_ok in Hinit as [_ Hnone].
  destruct (steps_table_ok _ _ Hsteps) as [_ Htab].
  apply Htab. intros full' Hsome. congruence.
Qed.

(** C7: a call of [fitParams] that returns leaves a cached table that has
    one row for every serum, virus and replicate key of the object, the
    average included, in order, with the replicate count on the rows of the
    average alone; the call returns that table, or its rows of the average
    when [average_only] is set; and every later call, whatever its
    [average_only] and after any other calls, returns the same table so
    filtered and leaves the object as it was: nothing is computed again. *)
Theorem fitParams_computes_once self average_only table self1 :
  reachable self ->
  fitParams average_only self = (Ok table, self1) ->
  exists full,
    _fitparams self1 = Some full /\
    row_key <$> full = all_keys self /\
    (forall serum virus,
       serum ∈ sera self -> virus ∈ default [] (viruses self !! serum) ->
       (serum, virus, "average"%string) ∈ row_key <$> full) /\
    Forall (count_on_average self) full /\
    table = select average_only full /\
    (forall r, r ∈ select true full <->
               r ∈ full /\ p_replicate r = "average"%string) /\
    forall self2 average_only',
      steps self1 self2 ->
      fitParams average_only' self2 = (Ok (select average_only' full), self2).
Proof.
  intros Hreach Hcall.
  assert (steps self self1) as Hstep.
  { replace self1 with (fitParams average_only self).2 by (by rewrite Hcall).
    constructor. constructor. }
  assert (reachable self1) as Hreach1.
  { destruct Hreach as (data & c1 & c2 & c3 & c4 & c5 & fb & ft & self0 &
                        Hinit & Hsteps).
    exists data, c1, c2, c3, c4, c5, fb, ft, self0. split; [done|].
    by eapply steps_trans. }
  assert (exists full, _fitparams self1 = Some full /\
                       table = select average_only full)
    as (full & Hfull & Htable).
  { revert Hcall. unfold fitParams, bind.
    destruct (_fitparams self) as [t|] eqn:Ht.
    - simpl. rewrite Ht. destruct average_only; intros [= <- <-]; eauto.
    - destruct (compute_fitparams self) as [[[]|e] self'] eqn:Hc; [|done].
      destruct (_fitparams self') as [t|] eqn:Ht'; [|done].
      destruct average_only; intros [= <- <-]; eauto. }
  exists full. split; [done|].
  destruct (steps_table_ok _ _ Hstep) as [Hsame _].
  pose proof (reachable_table _ _ Hreach1 Hfull) as Hft.
  apply (full_table_same self1 self) in Hft.
  2:{ destruct Hsame as (? & ? & ? & ? & ? & ?). by repeat split. }
  destruct Hft as (Hkeys & Hall & Havg).
  split; [done|]. split.
  { intros serum virus Hs Hv. rewrite Hkeys. apply elem_of_all_keys.
    split; [done|]. split; [done|].
    rewrite Forall_forall in Havg. specialize (Havg serum Hs).
    rewrite Forall_forall in Havg. by apply Havg. }
  split; [done|]. split; [done|]. split.
  - intros r. unfold select. rewrite list_elem_of_In, filter_In.
    rewrite <- list_elem_of_In, String.eqb_eq. done.
  - intros self2 average_only' Hsteps2.
    pose proof (reachable_cache_ok _ Hreach1) as Hok1.
    destruct (steps_sound _ _ Hsteps2 Hok1) as [_ (_ & _ & Htab & _)].
    unfold fitParams, bind. rewrite (Htab _ Hfull). simpl.
    rewrite (Htab _ Hfull). by destruct average_only'.
Qed.

End MethodFacts.

(** ** The data of a constructed [CurveFits] *)

Lemma elem_of_unique (x : string) (l : list string) : x ∈ l -> x ∈ unique l.
Proof.
  unfold unique. induction l as [|y l IH]; [done|]. simpl.
  intros [->|Hx]%elem_of_cons; [by left|].
  destruct (String.eqb y x) eqn:E.
  - apply String.eqb_eq in E as ->. by left.
  - right. apply list_elem_of_In, filter_In. rewrite <- list_elem_of_In.
    split; [by apply IH | by rewrite E].
Qed.

Lemma existsb_eqb_false (x : string) (l : list string) :
  existsb (String.eqb x) l = false -> x ∉ l.
Proof.
  intros Hex Hin. apply not_true_iff_false in Hex. apply Hex.
  apply existsb_exists. exists x.
  split; [by apply list_elem_of_In | apply String.eqb_refl].
Qed.

Lemma init_viruses_Ok data serum vs reps reps' :
  replicates_checked data reps ->
  init_viruses (List.filter (fun r => String.eqb (row_serum r) serum) data)
    serum vs reps = Ok reps' ->
  replicates_checked data reps' /\
  (forall virus, virus ∈ vs -> is_Some (reps' !! (serum, virus))) /\
  (forall k, is_Some (reps !! k) -> is_Some (reps' !! k)).
Proof.
  revert reps. induction vs as [|virus more IH]; intros reps Hchecked Hinit.
  { injection Hinit as <-. split; [done|]. split; [|done].
    intros virus Hv. by apply elem_of_nil in Hv. }
  simpl in Hinit. fold (virus_rows_of data serum virus) in Hinit.
  fold (virus_reps_of data serum virus) in Hinit.
  destruct (existsb _ (virus_reps_of data serum virus)) eqn:Havg; [done|].
  apply bind_Ok in Hinit as ([] & Hcheck & Hinit).
  apply IH in Hinit as (Hchecked' & Hvisited & Hmono).
  - split; [done|]. split.
    + intros v [->|Hv]%elem_of_cons; [|by apply Hvisited].
      apply Hmono. rewrite lookup_insert_eq. by eexists.
    + intros k Hk. apply Hmono.
      destruct (decide ((serum, virus) = k)) as [<-|Hne].
      * rewrite lookup_insert_eq. by eexists.
      * by rewrite lookup_insert_ne.
  - intros s v l.
    destruct (decide ((serum, virus) = (s, v))) as [[= <- <-]|Hne].
    + rewrite lookup_insert_eq. intros [= <-].
      split; [done|]. split; [by apply existsb_eqb_false | done].
    + rewrite lookup_insert_ne by done. apply Hchecked.
Qed.

Lemma init_sera_Ok data l vs reps vs' reps' :
  replicates_checked data reps ->
  init_sera data l vs reps = Ok (vs', reps') ->
  replicates_checked data reps' /\
  (forall serum virus,
     serum ∈ l ->
     virus ∈ unique (row_virus <$>
                       List.filter (fun r => String.eqb (row_serum r) serum) data) ->
     is_Some (reps' !! (serum, virus))) /\
  (forall k, is_Some (reps !! k) -> is_Some (reps' !! k)).
Proof.
  revert vs reps. induction l as [|serum more IH]; intros vs reps Hchecked Hinit.
  { injection Hinit as <- <-. split; [done|]. split; [|done].
    intros serum virus Hs. by apply elem_of_nil in Hs. }
  simpl in Hinit. apply bind_Ok in Hinit as (reps1 & Hviruses & Hinit).
  apply init_viruses_Ok in Hviruses as (Hchecked1 & Hvisited1 & Hmono1);
    [|done].
  apply IH in Hinit as (Hchecked' & Hvisited & Hmono); [|done].
  split; [done|]. split.
  - intros s v [->|Hs]%elem_of_cons Hv; [|by apply Hvisited].
    by apply Hmono, Hvisited1.
  - intros k Hk. by apply Hmono, Hmono1.
Qed.

Lemma init_data_ok data conc_col fracinf_col serum_col virus_col replicate_col
    fixbottom fixtop self :
  CurveFits__init__ data conc_col fracinf_col serum_col virus_col
    replicate_col fixbottom fixtop = Ok self ->
  data_ok self.
Proof.
  unfold CurveFits__init__. intros Hinit.
  destruct (has_duplicates _); [done|]. destruct (negb _); [done|].
  apply bind_Ok in Hinit as ([vs reps] & Hsera & Hinit).
  destruct (existsb _ _); [done|]. injection Hinit as <-.
  apply init_sera_Ok in Hsera as (Hchecked & Hvisited & _).
  2:{ intros s v l Hl. by rewrite lookup_empty in Hl. }
  exists (rows data). split; [done|]. split; [|done].
  intros row Hrow Havg.
  destruct (Hvisited (row_serum row) (row_virus row)) as [l Hl].
  - apply elem_of_unique. by apply list_elem_of_fmap_2.
  - apply elem_of_unique. apply (list_elem_of_fmap_2 row_virus).
    apply list_elem_of_In, filter_In. rewrite <- list_elem_of_In.
    split; [done | apply String.eqb_refl].
  - destruct (Hchecked _ _ _ Hl) as (_ & Hnot & _). apply Hnot.
    rewrite <- Havg. apply elem_of_unique.
    apply (list_elem_of_fmap_2 row_replicate). unfold virus_rows_of.
    apply list_elem_of_In, filter_In. split; [|apply String.eqb_refl].
    apply filter_In. rewrite <- list_elem_of_In.
    split; [done | apply String.eqb_refl].
Qed.

Lemma data_ok_same a b : same_data a b -> data_ok a -> data_ok b.
Proof.
  intros (Hdf & _ & _ & Hr & _) (data & Hd & Havg & Hchecked).
  exists data. by rewrite <- Hdf, <- Hr.
Qed.

(** *** Concentrations that do not repeat *)

Lemma filter_length_le {A} (p : A -> bool) (l : list A) :
  length (List.filter p l) <= length l.
Proof. induction l as [|x l IH]; simpl; [done|]. destruct (p x); simpl; lia. Qed.

Lemma filter_length_eq {A} (p : A -> bool) (l : list A) :
  length (List.filter p l) = length l -> forallb p l = true.
Proof.
  induction l as [|x l IH]; simpl; [done|].
  pose proof (filter_length_le p l). destruct (p x); simpl; [|lia].
  intros Hlen. apply IH. lia.
Qed.

Lemma unique_by_length_le {A} (eqb : A -> A -> bool) (l : list A) :
  length (unique_by eqb l) <= length l.
Proof.
  induction l as [|x l IH]; simpl; [done|].
  pose proof (filter_length_le (fun y => negb (eqb x y)) (unique_by eqb l)). lia.
Qed.

(** [len(l) == len(set(l))] leaves no two entries equal. *)
Lemma unique_by_length_eq {A} (eqb : A -> A -> bool) (l : list A) :
  length (unique_by eqb l) = length l ->
  unique_by eqb l = l /\ ForallOrdPairs (fun x y => eqb x y = false) l.
Proof.
  induction l as [|x l IH]; simpl; [by split; [|constructor]|].
  pose proof (filter_length_le (fun y => negb (eqb x y)) (unique_by eqb l)).
  pose proof (unique_by_length_le eqb l).
  intros Hlen. destruct IH as [Hid Hpairs]; [lia|].
  assert (forallb (fun y => negb (eqb x y)) l = true) as Hall.
  { rewrite <- Hid at 1. apply filter_length_eq. lia. }
  split.
  - f_equal. rewrite Hid. by apply forallb_filter_id.
  - constructor; [|done]. apply Forall_forall. intros y Hy%list_elem_of_In.
    rewrite forallb_forall in Hall. specialize (Hall y Hy).
    by destruct (eqb x y).
Qed.

Lemma distinct_count (c : float) (l : list float) :
  ForallOrdPairs (fun x y => F.eq x y = false) l ->
  length (List.filter (fun x => F.eq x c) l) <= 1.
Proof.
  induction 1 as [|x l Hx _ IH]; simpl; [lia|].
  destruct (F.eq x c) eqn:Hxc; simpl; [|done].
  assert (List.filter (fun y => F.eq y c) l = []) as ->; [|simpl; lia].
  clear IH. induction Hx as [|y l Hxy _ IHl]; simpl; [done|].
  destruct (F.eq y c) eqn:Hyc; [|done].
  rewrite (F_eq_trans x c y) in Hxy; [done | done | by apply F_eq_sym].
Qed.

(** Sorting keeps how often a value occurs. *)
Lemma sort_insert_count {A} (p : float * A -> bool) (q : float * A) l :
  length (List.filter p (sort_insert q l)) = length (List.filter p (q :: l)).
Proof.
  induction l as [|x l IH]; simpl; [done|].
  destruct (np_lt x.1 q.1); simpl; [|done].
  destruct (p x); simpl; rewrite IH; simpl; by destruct (p q).
Qed.

Lemma sort_values_count (p : float -> bool) (l : list float) :
  length (List.filter p (sort_values l)) = length (List.filter p l).
Proof.
  unfold sort_values.
  assert (forall l' : list (float * ()),
            length (List.filter p l'.*1)
            = length (List.filter (fun q => p q.1) l')) as Hfst.
  { induction l' as [|q l' IH]; csimpl; [done|].
    destruct (p q.1); simpl; by rewrite IH. }
  rewrite Hfst. induction l as [|x l IH]; csimpl; [done|].
  rewrite sort_insert_count. simpl. destruct (p x); simpl; by rewrite IH.
Qed.

Lemma sort_values_length (l : list float) :
  length (sort_values l) = length l.
Proof.
  pose proof (sort_values_count (fun _ => true) l) as Hc.
  assert (forall l' : list float, List.filter (fun _ => true) l' = l') as Hid.
  { induction l' as [|x l' IH]; simpl; [done | by rewrite IH]. }
  by rewrite !Hid in Hc.
Qed.

Lemma filter_fmap_length {A B} (f : A -> B) (p : B -> bool) (l : list A) :
  length (List.filter p (f <$> l)) = length (List.filter (fun x => p (f x)) l).
Proof.
  induction l as [|x l IH]; csimpl; [done|].
  destruct (p (f x)); simpl; by rewrite IH.
Qed.

Lemma filter_filter {A} (p q : A -> bool) (l : list A) :
  List.filter p (List.filter q l) = List.filter (fun x => q x && p x) l.
Proof.
  induction l as [|x l IH]; simpl; [done|].
  destruct (q x); simpl; [|done]. destruct (p x); by rewrite IH.
Qed.

(** With one replicate for a serum and virus, whose concentrations do not
    repeat, each group of the averaging holds at most one row. *)
Lemma single_replicate_groups data serum virus r0 c :
  virus_reps_of data serum virus = [r0] ->
  check_replicates (virus_rows_of data serum virus) serum virus [r0] = Ok () ->
  length (group_rows (raw_row <$> data) (serum, virus, c)) <= 1.
Proof.
  intros Hreps Hcheck. set (vd := virus_rows_of data serum virus) in *.
  assert (List.filter (fun r => String.eqb (row_replicate r) r0) vd = vd) as Hall.
  { apply forallb_filter_id, forallb_forall. intros row Hrow%list_elem_of_In.
    apply String.eqb_eq.
    assert (row_replicate row ∈ virus_reps_of data serum virus) as Hin.
    { apply elem_of_unique. by apply list_elem_of_fmap_2. }
    rewrite Hreps in Hin. by apply list_elem_of_singleton in Hin. }
  simpl in Hcheck. unfold replicate_concs in Hcheck. rewrite Hall in Hcheck.
  destruct (negb _) eqn:Hlen; [done|].
  apply negb_false_iff, Nat.eqb_eq in Hlen. symmetry in Hlen.
  apply unique_by_length_eq in Hlen as [_ Hdistinct].
  pose proof (distinct_count c _ Hdistinct) as Hcount.
  rewrite sort_values_count, filter_fmap_length in Hcount.
  unfold vd, virus_rows_of in Hcount. rewrite !filter_filter in Hcount.
  unfold group_rows. rewrite filter_fmap_length.
  assert (forall row,
            key_eq (key_of (raw_row row)) (serum, virus, c)
            = String.eqb (row_serum row) serum
              && (String.eqb (row_virus row) virus && F.eq (row_conc row) c))
    as Hext.
  { intros row. unfold key_eq, key_of. simpl. by rewrite andb_assoc. }
  by rewrite (filter_ext _ _ Hext).
Qed.

Lemma agg_sem_single (l : list float) : length l <= 1 -> agg_sem l = nan.
Proof.
  intros Hl. unfold agg_sem, agg_count, valid_values.
  pose proof (filter_length_le (fun x => negb (is_nan x)) l).
  rewrite decide_True; [done | lia].
Qed.

Section Unweighted.
Context `{SciPy}.

Lemma curve_data_unweighted self serum virus replicate cs0 fs0 e0 :
  curve_data self serum virus replicate = Ok (cs0, fs0, e0) ->
  forallb (fun r => is_nan (d_stderr r)) (idata self serum virus replicate)
    = true ->
  e0 = None.
Proof.
  unfold curve_data, idata. intros Hd Hnan.
  destruct (negb _); [done|]. destruct (viruses self !! serum); [|done].
  destruct (negb _); [done|].
  destruct (replicates self !! (serum, virus)); [|done].
  destruct (negb _); [done|]. rewrite Hnan in Hd. by injection Hd as _ _ <-.
Qed.

(** Raw rows carry no standard error. *)
Lemma raw_rows_no_stderr self row :
  data_ok self -> row ∈ df self ->
  d_replicate row <> "average"%string -> is_nan (d_stderr row) = true.
Proof.
  intros (data & Hdf & _ & _) Hrow Hrep. rewrite Hdf in Hrow.
  apply elem_of_app in Hrow as [Hraw | Havg].
  - apply list_elem_of_fmap in Hraw as (r & -> & _). done.
  - unfold avg_df in Havg. by apply list_elem_of_fmap in Havg as (k & -> & _).
Qed.

Lemma idata_replicate_unweighted self serum virus replicate :
  data_ok self -> replicate <> "average"%string ->
  forallb (fun r => is_nan (d_stderr r)) (idata self serum virus replicate)
    = true.
Proof.
  intros Hok Hrep. apply forallb_forall. intros row Hrow.
  apply filter_In in Hrow as [Hrow Hkey]. apply list_elem_of_In in Hrow.
  apply andb_true_iff in Hkey as [_ Hr%String.eqb_eq].
  apply (raw_rows_no_stderr self); [done | done | congruence].
Qed.

Lemma idata_single_replicate_unweighted self serum virus r0 :
  data_ok self ->
  replicates self !! (serum, virus) = Some [r0; "average"%string] ->
  forallb (fun r => is_nan (d_stderr r)) (idata self serum virus "average")
    = true.
Proof.
  intros (data & Hdf & Havg & Hchecked) Hreps.
  destruct (Hchecked _ _ _ Hreps) as (Hl & _ & Hcheck).
  assert (virus_reps_of data serum virus = [r0]) as Hone.
  { destruct (virus_reps_of data serum virus) as [|x [|y [|z l]]];
      simpl in Hl; congruence. }
  rewrite Hone in Hcheck.
  apply forallb_forall. intros row Hrow.
  apply filter_In in Hrow as [Hrow Hkey]. apply list_elem_of_In in Hrow.
  apply andb_true_iff in Hkey as [Hkey Hr%String.eqb_eq].
  apply andb_true_iff in Hkey as [Hs%String.eqb_eq Hv%String.eqb_eq].
  rewrite Hdf in Hrow. apply elem_of_app in Hrow as [Hraw | Hrow].
  - apply list_elem_of_fmap in Hraw as (r & -> & Hin).
    simpl in Hr. by apply Havg in Hin.
  - unfold avg_df in Hrow. apply list_elem_of_fmap in Hrow as (k & -> & _).
    simpl in *. destruct k as [[ks kv] kc]. simpl in *. subst ks kv.
    rewrite agg_sem_single; [done|]. rewrite length_fmap.
    by eapply single_replicate_groups.
Qed.

(** The curve that [getCurve] returns is the one the cache then holds. *)
Lemma getCurve_cached serum virus replicate self curve self' :
  getCurve serum virus replicate self = (Ok curve, self') ->
  _hillcurves self' !! (serum, virus, replicate) = Some curve.
Proof.
  unfold getCurve.
  destruct (_hillcurves self !! (serum, virus, replicate)) as [o|] eqn:Hk.
  { by intros [= <- <-]. }
  destruct (curve_data self serum virus replicate) as [[[cs0 fs0] e0]|e];
    [|done].
  simpl. destruct (HillCurve__init__ _ _ _ _ _ _); [|done].
  intros [= <- <-]. simpl. by rewrite lookup_insert_eq.
Qed.

Lemma reachable_data_ok self : reachable self -> data_ok self.
Proof.
  intros (data & ? & ? & ? & ? & ? & ? & ? & self0 & Hinit & Hsteps).
  apply init_data_ok in Hinit.
  destruct (steps_table_ok _ _ Hsteps) as [Hsame _].
  by eapply data_ok_same.
Qed.

(** C9: the curve that [getCurve] returns for a replicate other than
    "average" has [fs_stderr = None], and so has the curve of the average
    of a serum and virus with a single replicate; every row of the data
    frame that is not a row of the average has a NaN standard error. *)
Theorem replicate_curves_unweighted self serum virus replicate curve self' :
  reachable self ->
  getCurve serum virus replicate self = (Ok curve, self') ->
  (replicate <> "average"%string -> fs_stderr (obj curve) = None) /\
  (forall r0, replicates self !! (serum, virus) = Some [r0; "average"%string] ->
              fs_stderr (obj curve) = None) /\
  (forall row, row ∈ df self -> d_replicate row <> "average"%string ->
               is_nan (d_stderr row) = true).
Proof.
  intros Hreach Hget.
  pose proof (reachable_data_ok _ Hreach) as Hdata.
  pose proof (reachable_cache_ok _ Hreach) as Hok.
  pose proof (getCurve_same_data serum virus replicate self) as Hsame.
  destruct (getCurve_sound serum virus replicate self Hok) as [[Hbuilt _] _].
  rewrite Hget in Hbuilt, Hsame. simpl in Hbuilt, Hsame.
  apply getCurve_cached in Hget.
  destruct (Hbuilt _ _ Hget) as (_ & cs0 & fs0 & e0 & Hd & Hinit).
  simpl in Hd. rewrite <- (curve_data_same _ _ _ _ _ Hsame) in Hd.
  assert (e0 = None -> fs_stderr (obj curve) = None) as Hnone.
  { intros ->. by apply HillCurve_init_Ok in Hinit
      as (? & ? & ? & ? & ? & _ & _ & Hnone & _). }
  split; [|split].
  - intros Hrep. apply Hnone, (curve_data_unweighted _ _ _ _ _ _ _ Hd).
    by apply idata_replicate_unweighted.
  - intros r0 Hreps.
    assert (replicate = "average"%string \/ replicate <> "average"%string)
      as [-> | Hrep] by (destruct (decide (replicate = "average"%string)); auto).
    + apply Hnone, (curve_data_unweighted _ _ _ _ _ _ _ Hd).
      by eapply idata_single_replicate_unweighted.
    + apply Hnone, (curve_data_unweighted _ _ _ _ _ _ _ Hd).
      by apply idata_replicate_unweighted.
  - intros row. by apply raw_rows_no_stderr.
Qed.

End Unweighted.

(** ** A small data set, run through the methods *)

Lemma example_init :
  CurveFits__init__ example_data "concentration" "fraction infectivity"
    "serum" "virus" "replicate" FixFalse (FixNum 1) = Ok example_self.
Proof. by vm_compute. Qed.

Lemma example_reachable : @reachable test_scipy example_self.
Proof.
  exists example_data, "concentration"%string, "fraction infectivity"%string,
    "serum"%string, "virus"%string, "replicate"%string, FixFalse, (FixNum 1),
    example_self.
  split; [exact example_init | constructor].
Qed.

Lemma example_getCurve :
  @getCurve test_scipy "serum1" "virus1" "1" example_self
  = (Ok example_curve, example_self1).
Proof. by vm_compute. Qed.

Lemma getCurve_computes_once_witness :
  @reachable test_scipy example_self /\
  @getCurve test_scipy "serum1" "virus1" "1" example_self
  = (Ok example_curve, example_self1) /\
  @steps test_scipy example_self1 example_self2 /\
  _hillcurves example_self1 !! ("serum1", "virus1", "1")%string
  = Some example_curve /\
  _hillcurves example_self2 !! ("serum1", "virus1", "1")%string
  = Some example_curve /\
  @getCurve test_scipy "serum1" "virus1" "1" example_self2
  = (Ok example_curve, example_self2).
Proof.
  assert (@steps test_scipy example_self1 example_self2) as Hsteps.
  { apply steps_fitParams, steps_refl. }
  split; [exact example_reachable|]. split; [exact example_getCurve|].
  split; [exact Hsteps|].
  destruct (@getCurve_computes_once test_scipy _ _ _ _ _ _ _
              example_reachable example_getCurve Hsteps)
    as (Hstored & _ & Hkept & Hagain & _).
  by repeat split.
Defined.

Lemma fitParams_computes_once_witness :
  exists table,
    @reachable test_scipy example_self /\
    @fitParams test_scipy true example_self
    = (Ok table, (@fitParams test_scipy true example_self).2) /\
    exists full,
      _fitparams (@fitParams test_scipy true example_self).2 = Some full /\
      length full = 2 /\
      table = select true full.
Proof.
  assert (exists table,
            @fitParams test_scipy true example_self
            = (Ok table, (@fitParams test_scipy true example_self).2))
    as [table Htable].
  { eexists. vm_compute. reflexivity. }
  exists table. split; [exact example_reachable|]. split; [exact Htable|].
  destruct (@fitParams_computes_once test_scipy _ _ _ _
              example_reachable Htable)
    as (full & Hfull & Hkeys & _ & _ & Hsel & _).
  exists full. split; [done|]. split; [|done].
  rewrite <- (length_fmap row_key), Hkeys. by vm_compute.
Defined.

Lemma replicate_curves_unweighted_witness :
  @reachable test_scipy example_self /\
  @getCurve test_scipy "serum1" "virus1" "1" example_self
  = (Ok example_curve, example_self1) /\
  "1"%string <> "average"%string /\
  fs_stderr (obj example_curve) = None.
Proof.
  split; [exact example_reachable|]. split; [exact example_getCurve|].
  split; [done|].
  by apply (proj1 (@replicate_curves_unweighted test_scipy _ _ _ _ _ _
                     example_reachable example_getCurve)).
Defined.

(** The average of the mismatched data set has a standard error at the
    one shared concentration only, and [getCurve] refuses it. *)
Lemma mismatched_average_fails (scipy : SciPy) :
  exists self,
    CurveFits__init__ mismatched_data "concentration" "fraction infectivity"
      "serum" "virus" "replicate" FixFalse (FixNum 1) = Ok self /\
    @getCurve scipy "serum1" "virus1" "average" self
    = (Raise (RuntimeError "`stderr` has some but not all entries NaN"), self).
Proof. eexists. split; [by vm_compute | by vm_compute]. Qed.

Lemma curve_unsorted_init :
  @HillCurve__init__ test_scipy [4; 1; 2]%float [0; 1; 0.5]%float None
    FixFalse (FixNum 1) true = Ok curve_unsorted.
Proof. by vm_compute. Qed.

Lemma fitted_cs_sorted_witness :
  @HillCurve__init__ test_scipy [4; 1; 2]%float [0; 1; 0.5]%float None
    FixFalse (FixNum 1) true = Ok curve_unsorted /\
  cs curve_unsorted ≡ₚ [4; 1; 2]%float /\
  StronglySorted (fun x y => F.le x y = true) (cs curve_unsorted).
Proof.
  split; [exact curve_unsorted_init|].
  destruct (@fitted_cs_sorted test_scipy _ _ _ _ _ _ _ curve_unsorted_init)
    as (Hperm & Hsorted & _).
  by split.
Defined.

Lemma ic50_interpolate_spec_witness :
  @fitted test_scipy curve_mid /\
  @zero_division curve_mid = false /\
  exists c0 cN,
    item_first (cs curve_mid) = Ok c0 /\ item_last (cs curve_mid) = Ok cN /\
    @ic50 test_scipy curve_mid "interpolate" =
    Ok (if straddles_half curve_mid
           && (F.le c0 (@algebraic_ic50 test_scipy curve_mid)
               && F.le (@algebraic_ic50 test_scipy curve_mid) cN)
        then Some (@algebraic_ic50 test_scipy curve_mid) else None).
Proof.
  split; [exact curve_mid_fitted|]. split; [done|].
  exact (@ic50_interpolate_spec test_scipy curve_mid curve_mid_fitted eq_refl).
Defined.

Lemma midpoint_crossing_spec_witness :
  length [1; 2; 4]%float = length [1; 0.75; 0.25]%float /\
  midpoint_crossing 0.5 [1; 2; 4]%float [1; 0.75; 0.25]%float 1.5
  = Ok 3%float /\
  exists c0 cN,
    item_first [1; 2; 4]%float = Ok c0 /\ item_last [1; 2; 4]%float = Ok cN.
Proof.
  split; [done|]. split; [by vm_compute|].
  destruct (midpoint_crossing_spec 0.5 [1; 2; 4]%float [1; 0.75; 0.25]%float 1.5)
    as (c0 & cN & H0 & HN & _).
  - done.
  - done.
  - by repeat constructor.
  - by exists c0, cN.
Defined.

Lemma check_later_replicates_Ok_witness :
  no_nan (replicate_concs (rows mismatched_data) "1") /\
  check_later_replicates (rows mismatched_data) "serum1" "virus1" "1"
    (replicate_concs (rows mismatched_data) "1") ["2"] = Ok ().
Proof.
  assert (no_nan (replicate_concs (rows mismatched_data) "1")) as Hnan.
  { vm_compute. by repeat constructor. }
  split; [exact Hnan|].
  by apply check_later_replicates_Ok.
Defined.

(** ** More on the constructor of [HillCurve] *)
Lemma argsort_perm (a : list float) : argsort a ≡ₚ seq 0 (length a).
Proof.
  unfold argsort. rewrite sort_perm, snd_zip; [done|].
  by rewrite length_seq.
Qed.

Lemma argsort_length (a : list float) : length (argsort a) = length a.
Proof. by rewrite argsort_perm, length_seq. Qed.

Lemma argsort_bound (a : list float) i : i ∈ argsort a <-> i < length a.
Proof. rewrite argsort_perm, elem_of_seq. lia. Qed.

(** Indexing by an index array looks at the indexed entries only. *)
Lemma take_idx_ext {A} (a b : list A) idx :
  Forall (fun i => a !! i = b !! i) idx -> take_idx a idx = take_idx b idx.
Proof.
  unfold take_idx. induction 1 as [|i idx Hi _ IH]; [done|].
  change (mapM (item_at a) (i :: idx))
    with (item_at a i ≫= fun y => mapM (item_at a) idx ≫= fun k => mret (y :: k)).
  change (mapM (item_at b) (i :: idx))
    with (item_at b i ≫= fun y => mapM (item_at b) idx ≫= fun k => mret (y :: k)).
  assert (item_at a i = item_at b i) as -> by (unfold item_at; by rewrite Hi).
  by rewrite IH.
Qed.

(** An index array within bounds never fails; one out of bounds raises
    [IndexError]. *)
Lemma take_idx_in_bounds {A} (a : list A) idx :
  Forall (fun i => i < length a) idx ->
  exists l, take_idx a idx = Ok l.
Proof.
  unfold take_idx. induction 1 as [|i idx Hi _ [l IH]]; [by exists []|].
  apply lookup_lt_is_Some in Hi as [x Hx].
  exists (x :: l).
  change (mapM (item_at a) (i :: idx))
    with (item_at a i ≫= fun y => mapM (item_at a) idx ≫= fun k => mret (y :: k)).
  by rewrite (proj2 (item_at_Ok a i x) Hx), bind_Ok_l, IH.
Qed.

Lemma take_idx_out_of_bounds {A} (a : list A) idx i :
  i ∈ idx -> length a <= i -> take_idx a idx = Raise IndexError.
Proof.
  unfold take_idx. intros Hin Hi.
  induction idx as [|j idx IH]; [by apply elem_of_nil in Hin|].
  change (mapM (item_at a) (j :: idx))
    with (item_at a j ≫= fun y => mapM (item_at a) idx ≫= fun k => mret (y :: k)).
  destruct (item_at a j) as [x|e] eqn:Hj.
  - rewrite bind_Ok_l. apply item_at_Ok in Hj.
    apply elem_of_cons in Hin as [->|Hin].
    { apply lookup_lt_Some in Hj. lia. }
    by rewrite (IH Hin).
  - unfold item_at in Hj. destruct (a !! j); by inversion Hj.
Qed.

Lemma take_idx_Raise {A} (a : list A) idx e :
  take_idx a idx = Raise e -> e = IndexError.
Proof.
  unfold take_idx. induction idx as [|j idx IH]; [done|].
  change (mapM (item_at a) (j :: idx))
    with (item_at a j ≫= fun y => mapM (item_at a) idx ≫= fun k => mret (y :: k)).
  destruct (item_at a j) as [x|e'] eqn:Hj.
  - rewrite bind_Ok_l. destruct (mapM (item_at a) idx) as [l|e'']; [done|].
    intros [= <-]. by apply IH.
  - intros [= <-]. unfold item_at in Hj. destruct (a !! j); by inversion Hj.
Qed.

Section MoreConstructorFacts.
Context `{SciPy}.

Lemma fitted_lengths c :
  fitted c ->
  length (fs c) = length (cs c) /\
  forall e, fs_stderr c = Some e -> length e = length (cs c).
Proof.
  intros (cs0 & fs0 & e0 & fb & ft & flag & Hc).
  apply HillCurve_init_Ok in Hc as (? & ? & ? & ? & ? & Hcs & Hfs & He & _).
  apply take_idx_length in Hcs, Hfs. split; [congruence|].
  intros e Hsome. destruct e0 as [e0|]; [|congruence].
  destruct He as (e' & He' & Heq). apply take_idx_length in He'. congruence.
Qed.

Lemma fitted_cs_gt_zero c :
  fitted c -> Forall (fun x => F.gt x 0 = true) (cs c).
Proof.
  intros Hc. pose proof (fitted_cs_no_nan c Hc) as Hnan.
  pose proof (fitted_cs_positive c Hc) as Hpos.
  unfold no_nan in Hnan. rewrite Forall_forall in Hnan, Hpos.
  apply Forall_forall. intros x Hx. unfold F.gt.
  by apply (F_le_total x 0); [apply Hnan | | apply Hpos].
Qed.

(** The sorted concentrations of a fitted curve. *)
Lemma fitted_sorted c :
  fitted c -> StronglySorted (fun x y => F.le x y = true) (cs c).
Proof.
  intros Hfit. pose proof (fitted_cs_no_nan c Hfit) as Hnan.
  destruct Hfit as (cs0 & fs0 & e0 & fb & ft & flag & Hc).
  apply HillCurve_init_Ok in Hc as (? & ? & ? & ? & ? & Hcs & _).
  rewrite take_idx_argsort in Hcs. injection Hcs as Hcs.
  rewrite <- Hcs. apply (StronglySorted_fmap fst fst_le); [by intros p q|].
  apply sort_sorted. rewrite <- sort_perm.
  unfold no_nan in Hnan. by rewrite <- Hcs, Forall_fmap in Hnan.
Qed.

Lemma fitted_ends c :
  fitted c ->
  exists c0 cN,
    item_first (cs c) = Ok c0 /\ item_last (cs c) = Ok cN /\
    is_nan c0 = false /\ is_nan cN = false /\
    F.le c0 cN = true /\
    Forall (fun x => F.le c0 x = true /\ F.le x cN = true) (cs c).
Proof.
  intros Hc. pose proof (fitted_cs_nonempty c Hc) as Hne.
  pose proof (fitted_cs_no_nan c Hc) as Hnan.
  pose proof (fitted_sorted c Hc) as Hsorted.
  destruct (item_first_is_ok _ Hne) as [c0 Hc0].
  destruct (item_last_is_ok _ Hne) as [cN HcN].
  exists c0, cN. split; [done|]. split; [done|].
  unfold no_nan in Hnan. rewrite Forall_forall in Hnan.
  assert (forall z, z ∈ cs c -> F.le c0 z = true /\ F.le z cN = true) as Hall.
  { intros z Hz. pose proof (Hnan z Hz) as Hzn.
    apply item_first_Ok in Hc0. apply item_last_Ok in HcN. split.
    - destruct (cs c) as [|y l]; [done|]. injection Hc0 as ->.
      apply elem_of_cons in Hz as [->|Hz]; [by apply F_le_refl|].
      apply StronglySorted_inv in Hsorted as [_ Hall].
      rewrite Forall_forall in Hall. by apply Hall.
    - apply last_Some in HcN as [l' Hl']. rewrite Hl' in Hz, Hsorted.
      apply elem_of_app in Hz as [Hz | ->%list_elem_of_singleton];
        [|by apply F_le_refl].
      apply (StronglySorted_app_1_elem_of _ _ _ z cN Hsorted Hz). by left. }
  assert (c0 ∈ cs c) as Hin0.
  { by apply item_first_Ok, head_Some_elem_of in Hc0. }
  assert (cN ∈ cs c) as HinN.
  { by apply item_last_Ok, last_Some_elem_of in HcN. }
  repeat split; [by apply Hnan | by apply Hnan | by apply Hall |].
  apply Forall_forall. exact Hall.
Qed.

(** X5: what every constructed [HillCurve] holds: at least one
    concentration, as many responses (and standard errors, when given) as
    concentrations, and concentrations that are all greater than zero. *)
Theorem fitted_data_invariants c :
  fitted c ->
  cs c <> [] /\
  length (fs c) = length (cs c) /\
  (forall e, fs_stderr c = Some e -> length e = length (cs c)) /\
  Forall (fun x => F.gt x 0 = true) (cs c).
Proof.
  intros Hc. split; [by apply fitted_cs_nonempty|].
  destruct (fitted_lengths c Hc) as [Hfs He].
  split; [done|]. split; [done|]. by apply fitted_cs_gt_zero.
Qed.

(** X6: the constructor looks at the first [len(cs)] responses and
    standard errors only: longer arrays are accepted and what lies beyond
    is dropped without a warning. *)
Theorem init_uses_leading_responses cs0 fs0 e0 fixbottom fixtop fitlogc :
  HillCurve__init__ cs0 fs0 e0 fixbottom fixtop fitlogc =
  HillCurve__init__ cs0 (take (length cs0) fs0) (take (length cs0) <$> e0)
    fixbottom fixtop fitlogc.
Proof.
  assert (forall a : list float,
            take_idx a (argsort cs0) = take_idx (take (length cs0) a) (argsort cs0))
    as Htake.
  { intros a. apply take_idx_ext, Forall_forall. intros i Hi.
    apply argsort_bound in Hi. by rewrite lookup_take_lt. }
  unfold HillCurve__init__. rewrite <- (Htake fs0).
  destruct e0 as [e|]; simpl; [|done]. by rewrite <- (Htake e).
Qed.

(** X7: how the constructor fails on its data, before it looks at
    [fixtop] and [fixbottom] and before it fits: with no concentration at
    all, or fewer responses than concentrations, it raises [IndexError];
    with enough responses and a concentration that is not greater than
    zero it raises the [ValueError] of its check. *)
Theorem init_data_errors cs0 fs0 e0 fixbottom fixtop fitlogc :
  (cs0 = [] ->
   HillCurve__init__ cs0 fs0 e0 fixbottom fixtop fitlogc = Raise IndexError) /\
  (length fs0 < length cs0 ->
   HillCurve__init__ cs0 fs0 e0 fixbottom fixtop fitlogc = Raise IndexError) /\
  (length cs0 <= length fs0 ->
   (forall e, e0 = Some e -> length cs0 <= length e) ->
   (exists x, x ∈ cs0 /\ F.le x 0 = true) ->
   HillCurve__init__ cs0 fs0 e0 fixbottom fixtop fitlogc =
   Raise (ValueError "concentrations in `cs` must all be > 0")).
Proof.
  split; [|split].
  - intros ->. unfold HillCurve__init__. destruct e0; reflexivity.
  - intros Hlt. unfold HillCurve__init__.
    assert (take_idx fs0 (argsort cs0) = Raise IndexError) as ->.
    { apply (take_idx_out_of_bounds _ _ (length cs0 - 1)); [|lia].
      apply argsort_bound. lia. }
    destruct e0 as [e|]; simpl; [|reflexivity].
    destruct (take_idx e (argsort cs0)) as [l|e'] eqn:He; [reflexivity|].
    by apply take_idx_Raise in He as ->.
  - intros Hfs He (x & Hx & Hle). unfold HillCurve__init__.
    assert (forall a : list float, length cs0 <= length a ->
              exists l, take_idx a (argsort cs0) = Ok l) as Hok.
    { intros a Ha. apply take_idx_in_bounds, Forall_forall. intros i Hi.
      apply argsort_bound in Hi. lia. }
    assert (exists e1, match e0 with
                       | Some e => Some <$> take_idx e (argsort cs0)
                       | None => Ok None
                       end = Ok e1) as [e1 ->].
    { destruct e0 as [e|]; [|by eexists].
      destruct (Hok e (He e eq_refl)) as [l ->]. by eexists. }
    destruct (Hok fs0 Hfs) as [fs1 ->].
    rewrite take_idx_argsort. simpl.
    set (cs1 := (foldr sort_insert [] (zip cs0 (seq 0 (length cs0)))).*1).
    assert (existsb (fun c => F.le c 0) cs1 = true) as ->; [|done].
    apply existsb_exists. exists x. split; [|done].
    apply list_elem_of_In. unfold cs1.
    rewrite sort_perm, fst_zip; [done | by rewrite length_seq].
Qed.

(** X8: what the constructor leaves in [top] and [bottom], and where the
    fitted values come from.  When the constructor returns, it has called
    the optimizer once, from the initial guesses, and the optimizer has
    returned an array [popt]: the midpoint is [popt[0]] and the slope
    [popt[1]]; a top or bottom that the caller fixes is the attribute of
    the curve, the very number given, and one that is left free is the
    entry of [popt] at its place among the free parameters (the bottom
    before the top).  Nothing else is accepted for the two arguments. *)
Theorem fixed_parameters_kept cs0 fs0 e0 fixbottom fixtop fitlogc c :
  HillCurve__init__ cs0 fs0 e0 fixbottom fixtop fitlogc = Ok c ->
  exists slope0 top0 bottom0 midpoint0 popt,
    guess_slope (fs c) = Ok slope0 /\
    guess_top fixtop slope0 (fs c) = Ok top0 /\
    guess_bottom fixbottom slope0 (fs c) = Ok bottom0 /\
    guess_midpoint (cs c) (fs c) top0 bottom0 slope0 = Ok midpoint0 /\
    curve_fit (fit_func fixbottom fixtop bottom0 top0
                 (if fitlogc then evaluate_log else evaluate))
      (if fitlogc then np_log <$> cs c else cs c) (fs c)
      (initguess fixbottom fixtop midpoint0 slope0 bottom0 top0)
      (fs_stderr c) = Ok popt /\
    popt !! 0 = Some (midpoint c) /\ popt !! 1 = Some (slope c) /\
    match fixtop, fixbottom with
    | FixNum t, FixNum b => top c = PyFloat t /\ bottom c = PyFloat b
    | FixNum t, FixFalse =>
        top c = PyFloat t /\
        exists b, popt !! 2 = Some b /\ bottom c = NpFloat b
    | FixFalse, FixNum b =>
        bottom c = PyFloat b /\
        exists t, popt !! 2 = Some t /\ top c = NpFloat t
    | FixFalse, FixFalse =>
        exists b t, popt !! 2 = Some b /\ popt !! 3 = Some t /\
                    bottom c = NpFloat b /\ top c = NpFloat t
    | _, _ => False
    end.
Proof.
  intros Hc. apply HillCurve_init_Ok in Hc
    as (slope0 & top0 & bottom0 & midpoint0 & popt & _ & _ & _ & _ & Hslope
        & Htop & Hb & Hmid & Hfit & Hset).
  exists slope0, top0, bottom0, midpoint0, popt.
  do 5 (split; [done|]).
  unfold set_fitted in Hset.
  apply bind_Ok in Hset as (m & Hm & Hset).
  apply bind_Ok in Hset as (s & Hs & Hset).
  apply item_at_Ok in Hm, Hs.
  destruct fixtop, fixbottom; simpl in Htop, Hb; try done;
    repeat match type of Hset with
           | _ ≫= _ = Ok _ =>
               let x := fresh "x" in
               let Hx := fresh "Hx" in
               apply bind_Ok in Hset as (x & Hx & Hset);
               apply item_at_Ok in Hx
           end;
    injection Hset as <-; simpl; (split; [done|]); (split; [done|]);
    injection Htop as <- || idtac; injection Hb as <- || idtac;
    eauto 10.
Qed.

End MoreConstructorFacts.

Lemma F_le_antisym x y : F.le x y = true -> F.le y x = true -> F.eq x y = true.
Proof.
  intros H1 H2. apply F_le_key in H1 as (? & ? & H1).
  apply F_le_key in H2 as (_ & _ & H2). apply F_eq_key.
  repeat split; try done.
  destruct (key x) as [[a1 a2] a3], (key y) as [[b1 b2] b3].
  unfold klt in *. simpl in *.
  assert (a1 = b1) as -> by lia. assert (a2 = b2) as -> by lia.
  assert (a3 = b3) as -> by lia. done.
Qed.

Lemma F_eq_le x y : F.eq x y = true -> F.le x y = true.
Proof.
  intros H1. apply F_eq_key in H1 as (? & ? & Hk). apply F_le_key.
  repeat split; try done. rewrite Hk.
  destruct (key y) as [[b1 b2] b3]. unfold klt. simpl. lia.
Qed.

Section MoreIC50Facts.
Context `{SciPy}.

(** The two ways [ic50] gets past its first part: with a value in range,
    or with [bound] set to 'bottom' or 'upper'. *)
Lemma ic50_classify_Returned c v :
  ic50_classify c = Ok (Returned v) ->
  exists c0 cN,
    item_first (cs c) = Ok c0 /\ item_last (cs c) = Ok cN /\
    F.le c0 v = true /\ F.le v cN = true.
Proof.
  unfold ic50_classify. intros Hph.
  destruct (_ && _); [done|]. destruct (_ && _); [done|].
  apply bind_Ok in Hph as (r & _ & Hph).
  apply bind_Ok in Hph as (c0 & Hc0 & Hph).
  apply bind_Ok in Hph as (cN & HcN & Hph).
  destruct (F.le c0 _ && F.le _ cN) eqn:Hin.
  - injection Hph as <-. apply andb_prop in Hin as [? ?]. by exists c0, cN.
  - by destruct (F.lt _ c0).
Qed.

Lemma ic50_classify_Bound c b :
  ic50_classify c = Ok (Bound b) -> b = "bottom"%string \/ b = "upper"%string.
Proof.
  unfold ic50_classify. intros Hph.
  destruct (_ && _); [naive_solver|]. destruct (_ && _); [naive_solver|].
  apply bind_Ok in Hph as (r & _ & Hph).
  apply bind_Ok in Hph as (c0 & Hc0 & Hph).
  apply bind_Ok in Hph as (cN & HcN & Hph).
  destruct (F.le c0 _ && F.le _ cN); [done|].
  destruct (F.lt _ c0); naive_solver.
Qed.

Lemma ic50_bound_Ok c o :
  ic50 c "bound" = Ok o ->
  (exists v, ic50_classify c = Ok (Returned v) /\ o = Some v) \/
  (exists cN, ic50_classify c = Ok (Bound "upper") /\
              item_last (cs c) = Ok cN /\ o = Some cN).
Proof.
  unfold ic50. intros Ho.
  apply bind_Ok in Ho as ([v|b] & Hph & Ho).
  - injection Ho as <-. left. eauto.
  - right. destruct (ic50_classify_Bound c b Hph) as [-> | ->]; simpl in Ho.
    + done.
    + apply bind_Ok in Ho as (cN & HcN & Ho). injection Ho as <-. eauto.
Qed.

Lemma ic50_interpolate_None c :
  ic50 c "interpolate" = Ok None ->
  exists b, ic50_classify c = Ok (Bound b).
Proof.
  unfold ic50. intros Ho.
  apply bind_Ok in Ho as ([v|b] & Hph & Ho); [done | eauto].
Qed.

(** X9: whenever [ic50(method='bound')] returns on a fitted curve, it
    returns a number, never [None], and the number lies within the measured
    concentrations, from [cs[0]] to [cs[-1]]. *)
Theorem ic50_bound_within_range c o :
  fitted c -> ic50 c "bound" = Ok o ->
  exists v c0 cN,
    o = Some v /\ item_first (cs c) = Ok c0 /\ item_last (cs c) = Ok cN /\
    F.le c0 v = true /\ F.le v cN = true.
Proof.
  intros Hc Ho.
  destruct (fitted_ends c Hc) as (c0 & cN & Hc0 & HcN & _ & HnN & Hle & _).
  apply ic50_bound_Ok in Ho as [(v & Hph & ->) | (cN' & _ & HcN' & ->)].
  - apply ic50_classify_Returned in Hph as (c0' & cN' & ? & ? & ? & ?).
    exists v, c0, cN. repeat split; congruence.
  - assert (cN' = cN) as -> by congruence.
    exists cN, c0, cN. repeat split; try done. by apply F_le_refl.
Qed.

(** On a fitted curve for which [ic50_bound] says 'lower', all
    concentrations are equal. *)
Lemma ic50_bound_lower c :
  fitted c -> ic50_bound c = Ok "lower"%string ->
  exists x, Forall (fun y => F.eq y x = true) (cs c).
Proof.
  intros Hc Hs.
  destruct (fitted_ends c Hc) as (c0 & cN & Hc0 & HcN & _ & _ & _ & Hall).
  exists c0. unfold ic50_bound in Hs.
  apply bind_Ok in Hs as ([v|] & Hi & Hs); [done|].
  apply bind_Ok in Hs as (b & Hb & Hs).
  apply ic50_interpolate_None in Hi as (b' & Hph).
  apply ic50_bound_Ok in Hb as [(v & Hph' & _) | (cN' & _ & HcN' & ->)];
    [congruence|].
  assert (cN' = cN) as -> by congruence.
  rewrite Hc0 in Hs. simpl in Hs.
  destruct (F.eq cN c0) eqn:Heq.
  - eapply Forall_impl; [exact Hall|]. intros y [Hy1 Hy2]. simpl in *.
    apply F_le_antisym; [|done].
    eapply F_le_trans; [exact Hy2 | by apply F_eq_le].
  - rewrite HcN in Hs. simpl in Hs. by destruct (F.eq cN cN).
Qed.

(** X10: 'lower' is reported for a degenerate curve only.  On a fitted
    curve, [ic50_bound] returns 'lower' only if all concentrations are
    equal, and the string of [ic50_str] is the formatted value of
    [ic50('bound')], alone, or after '>', or, on such a degenerate curve
    only, after '<'. *)
Theorem lower_bound_only_degenerate c :
  fitted c ->
  (ic50_bound c = Ok "lower"%string ->
   exists x, Forall (fun y => F.eq y x = true) (cs c)) /\
  (forall precision s, ic50_str c precision = Ok s ->
     exists v, ic50 c "bound" = Ok (Some v) /\
       (s = format_g precision v \/
        s = (">" +:+ format_g precision v)%string \/
        (s = ("<" +:+ format_g precision v)%string /\
         exists x, Forall (fun y => F.eq y x = true) (cs c)))).
Proof.
  intros Hc. split; [by apply ic50_bound_lower|].
  intros precision s Hs. unfold ic50_str in Hs.
  apply bind_Ok in Hs as ([v|] & Hv & Hs); simpl in Hs; [|done].
  apply bind_Ok in Hs as (b & Hb & Hs).
  apply bind_Ok in Hs as (prefix & Hp & Hs). injection Hs as <-.
  exists v. split; [done|].
  destruct (ic50_bound_values c b Hb) as [-> | [-> | ->]];
    simpl in Hp; injection Hp as <-.
  - by left.
  - right. right. split; [done|]. by apply ic50_bound_lower.
  - right. by left.
Qed.

End MoreIC50Facts.

Lemma curve_single_fitted : @fitted test_scipy curve_single.
Proof.
  exists [2; 2]%float, [1; 1]%float, None, FixFalse, (FixNum 1), true.
  by vm_compute.
Qed.

Lemma fitted_data_invariants_witness :
  @fitted test_scipy curve_mid /\
  cs curve_mid <> [] /\ length (fs curve_mid) = length (cs curve_mid).
Proof.
  split; [exact curve_mid_fitted|].
  destruct (@fitted_data_invariants test_scipy curve_mid curve_mid_fitted)
    as (? & ? & _).
  by split.
Defined.

Lemma fixed_parameters_kept_witness :
  @HillCurve__init__ test_scipy [1; 2; 4]%float [1; 1; 1]%float None
    FixFalse (FixNum 1) true = Ok curve_flat /\
  top curve_flat = PyFloat 1 /\
  exists (popt : list float) (b : float),
    popt !! 0 = Some (midpoint curve_flat) /\
    popt !! 1 = Some (slope curve_flat) /\
    popt !! 2 = Some b /\ bottom curve_flat = NpFloat b.
Proof.
  assert (@HillCurve__init__ test_scipy [1; 2; 4]%float [1; 1; 1]%float None
            FixFalse (FixNum 1) true = Ok curve_flat) as Hinit
    by (by vm_compute).
  split; [exact Hinit|].
  destruct (@fixed_parameters_kept test_scipy _ _ _ _ _ _ _ Hinit)
    as (_ & _ & _ & _ & popt & _ & _ & _ & _ & _ & Hm & Hs & Ht & b & Hb & Hbc).
  split; [exact Ht|]. by exists popt, b.
Defined.

Lemma ic50_bound_within_range_witness :
  @fitted test_scipy curve_flat /\
  @ic50 test_scipy curve_flat "bound" = Ok (Some 4%float) /\
  exists v c0 cN,
    Some 4%float = Some v /\ item_first (cs curve_flat) = Ok c0 /\
    item_last (cs curve_flat) = Ok cN /\
    F.le c0 v = true /\ F.le v cN = true.
Proof.
  split; [exact curve_flat_fitted|]. split; [by vm_compute|].
  apply (@ic50_bound_within_range test_scipy curve_flat);
    [exact curve_flat_fitted | by vm_compute].
Defined.

Lemma lower_bound_only_degenerate_witness :
  @fitted test_scipy curve_single /\
  @ic50_bound test_scipy curve_single = Ok "lower"%string /\
  exists x, Forall (fun y => F.eq y x = true) (cs curve_single).
Proof.
  split; [exact curve_single_fitted|]. split; [by vm_compute|].
  apply (@lower_bound_only_degenerate test_scipy curve_single);
    [exact curve_single_fitted | by vm_compute].
Defined.

(** ** The indices of a constructed [CurveFits] *)
Lemma init_viruses_lookup serum_data serum vs reps reps' :
  init_viruses serum_data serum vs reps = Ok reps' ->
  forall s v,
    reps' !! (s, v) =
    if decide (s = serum /\ v ∈ vs)
    then Some (unique (row_replicate <$>
                         List.filter (fun r => String.eqb (row_virus r) v)
                                     serum_data) ++ ["average"%string])
    else reps !! (s, v).
Proof.
  revert reps. induction vs as [|virus more IH]; intros reps Hinit s v.
  { injection Hinit as <-. rewrite decide_False; [done|].
    intros [_ Hv]. by apply elem_of_nil in Hv. }
  simpl in Hinit. destruct (existsb _ _); [done|].
  apply bind_Ok in Hinit as ([] & _ & Hinit).
  rewrite (IH _ Hinit s v).
  destruct (decide (s = serum /\ v ∈ more)) as [[-> Hv]|Hno].
  { rewrite decide_True; [done|]. split; [done | by right]. }
  destruct (decide ((serum, virus) = (s, v))) as [[= <- <-]|Hne].
  - rewrite lookup_insert_eq. rewrite decide_True; [done|].
    split; [done | by left].
  - rewrite lookup_insert_ne by done. rewrite decide_False; [done|].
    intros [-> [->|Hv]%elem_of_cons]; [done|]. by apply Hno.
Qed.

Lemma init_sera_lookup data l vs reps vs' reps' :
  init_sera data l vs reps = Ok (vs', reps') ->
  (forall s,
     vs' !! s = if decide (s ∈ l) then Some (serum_viruses_of data s)
                else vs !! s) /\
  (forall s v,
     reps' !! (s, v) =
     if decide (s ∈ l /\ v ∈ serum_viruses_of data s)
     then Some (virus_reps_of data s v ++ ["average"%string])
     else reps !! (s, v)).
Proof.
  revert vs reps. induction l as [|serum more IH]; intros vs reps Hinit.
  { injection Hinit as <- <-. split.
    - intros s. rewrite decide_False; [done|]. by intros ?%elem_of_nil.
    - intros s v. rewrite decide_False; [done|]. by intros [?%elem_of_nil _]. }
  simpl in Hinit. apply bind_Ok in Hinit as (reps1 & Hviruses & Hinit).
  pose proof (init_viruses_lookup _ _ _ _ _ Hviruses) as Hreps1.
  apply IH in Hinit as [Hvs Hreps]. split.
  - intros s. rewrite Hvs.
    destruct (decide (s ∈ more)) as [Hin|Hout].
    { rewrite decide_True; [done | by right]. }
    destruct (decide (serum = s)) as [<-|Hne].
    + rewrite lookup_insert_eq. rewrite decide_True; [done | by left].
    + rewrite lookup_insert_ne by done. rewrite decide_False; [done|].
      by intros [->|?]%elem_of_cons.
  - intros s v. rewrite Hreps.
    destruct (decide (s ∈ more /\ v ∈ serum_viruses_of data s)) as [[Hin Hv]|Hno].
    { rewrite decide_True; [done|]. split; [by right | done]. }
    rewrite Hreps1. fold (serum_viruses_of data serum).
    destruct (decide (s = serum /\ v ∈ serum_viruses_of data serum))
      as [[-> Hv]|Hno1].
    + rewrite decide_True; [done|]. split; [by left | done].
    + rewrite decide_False; [done|].
      intros [[->|Hs]%elem_of_cons Hv]; [by apply Hno1 | by apply Hno].
Qed.

Lemma init_indexed data conc_col fracinf_col serum_col virus_col replicate_col
    fixbottom fixtop self :
  CurveFits__init__ data conc_col fracinf_col serum_col virus_col
    replicate_col fixbottom fixtop = Ok self ->
  indexed_by (rows data) self.
Proof.
  unfold CurveFits__init__. intros Hinit.
  destruct (has_duplicates _); [done|]. destruct (negb _); [done|].
  apply bind_Ok in Hinit as ([vs reps] & Hsera & Hinit).
  destruct (existsb _ _); [done|]. injection Hinit as <-.
  apply init_sera_lookup in Hsera as [Hvs Hreps].
  split; [done|]. simpl. split.
  - intros s. rewrite Hvs. by destruct (decide _).
  - intros s v. rewrite Hreps. by destruct (decide _).
Qed.

Lemma elem_of_unique_inv (x : string) (l : list string) : x ∈ unique l -> x ∈ l.
Proof.
  unfold unique. induction l as [|y l IH]; [done|]. simpl.
  intros [->|Hx]%elem_of_cons; [by left|]. right. apply IH.
  apply list_elem_of_In, filter_In in Hx as [Hx _]. by apply list_elem_of_In.
Qed.

Lemma unique_NoDup (l : list string) : NoDup (unique l).
Proof.
  unfold unique. induction l as [|y l IH]; simpl; [constructor|].
  constructor.
  - intros Hin. apply list_elem_of_In, filter_In in Hin as [_ Hne].
    by rewrite String.eqb_refl in Hne.
  - clear -IH. induction IH as [|x l' Hx _ IH']; simpl; [constructor|].
    destruct (negb (String.eqb y x)); [|done]. constructor; [|done].
    intros Hin. apply Hx. apply list_elem_of_In, filter_In in Hin as [Hin _].
    by apply list_elem_of_In.
Qed.

(** X11: the indices of a constructed [CurveFits].  [sera] lists the serum
    names of the data once each, in order of first appearance;
    [viruses[serum]] is defined for these sera only and lists the viruses of
    the rows of the serum, likewise; [replicates[(serum, virus)]] is defined
    for these pairs only and lists the replicates of the rows of the pair,
    likewise, followed by 'average'. *)
Theorem init_indices data conc_col fracinf_col serum_col virus_col
    replicate_col fixbottom fixtop self :
  CurveFits__init__ data conc_col fracinf_col serum_col virus_col
    replicate_col fixbottom fixtop = Ok self ->
  sera self = unique (row_serum <$> rows data) /\
  NoDup (sera self) /\
  (forall serum, serum ∈ sera self <-> serum ∈ row_serum <$> rows data) /\
  (forall serum,
     viruses self !! serum =
     if decide (serum ∈ sera self)
     then Some (serum_viruses_of (rows data) serum) else None) /\
  (forall serum virus,
     replicates self !! (serum, virus) =
     if decide (serum ∈ sera self /\
                virus ∈ serum_viruses_of (rows data) serum)
     then Some (virus_reps_of (rows data) serum virus ++ ["average"%string])
     else None).
Proof.
  intros Hinit. apply init_indexed in Hinit as (Hsera & Hvs & Hreps).
  split; [done|]. split; [rewrite Hsera; apply unique_NoDup|].
  split; [|done]. intros serum. rewrite Hsera. split.
  - apply elem_of_unique_inv.
  - apply elem_of_unique.
Qed.

(** ** What the constructor of [CurveFits] has checked *)
Lemma check_replicates_Ok virus_data serum virus reps :
  check_replicates virus_data serum virus reps = Ok () ->
  forall rep, rep ∈ reps ->
    length (replicate_concs virus_data rep)
    = set_len (replicate_concs virus_data rep).
Proof.
  induction reps as [|rep1 later IH]; intros Hcheck rep Hrep.
  { by apply elem_of_nil in Hrep. }
  simpl in Hcheck. destruct (negb _) eqn:Hlen; [done|].
  apply bind_Ok in Hcheck as ([] & _ & Hcheck).
  apply elem_of_cons in Hrep as [->|Hrep]; [|by apply IH].
  by apply negb_false_iff, Nat.eqb_eq in Hlen.
Qed.

(** Two entries at different places, both satisfying [p], count twice. *)
Lemma filter_two {A} (p : A -> bool) (l : list A) i j x y :
  i <> j -> l !! i = Some x -> l !! j = Some y -> p x = true -> p y = true ->
  2 <= length (List.filter p l).
Proof.
  assert (forall l i x, l !! i = Some x -> p x = true ->
            1 <= length (List.filter p l)) as Hone.
  { intros l' i' x' Hx Hp. destruct (List.filter p l') eqn:E; [|simpl; lia].
    assert (In x' (List.filter p l')) as Hin.
    { apply filter_In. split; [|done].
      apply list_elem_of_In. by apply list_elem_of_lookup_2 in Hx. }
    by rewrite E in Hin. }
  revert i j. induction l as [|z l IH]; intros i j Hij Hi Hj Hx Hy.
  { by rewrite lookup_nil in Hi. }
  destruct i as [|i], j as [|j]; simpl in *; try done.
  - injection Hi as ->. rewrite Hx. simpl.
    pose proof (Hone l j y Hj Hy). lia.
  - injection Hj as ->. rewrite Hy. simpl.
    pose proof (Hone l i x Hi Hx). lia.
  - assert (i <> j) by congruence.
    pose proof (IH i j ltac:(done) Hi Hj Hx Hy).
    destruct (p z); simpl; lia.
Qed.

(** X12: what a constructed [CurveFits] guarantees of its data: the five
    column names are distinct, they are columns of the data and none of them
    is 'stderr'; no replicate is named 'average'; and within one serum,
    virus and replicate no concentration occurs on two rows. *)
Theorem init_checks data conc_col fracinf_col serum_col virus_col
    replicate_col fixbottom fixtop self :
  CurveFits__init__ data conc_col fracinf_col serum_col virus_col
    replicate_col fixbottom fixtop = Ok self ->
  let cols := [serum_col; virus_col; replicate_col; conc_col; fracinf_col] in
  NoDup cols /\
  (forall c, c ∈ cols -> c ∈ columns data /\ c <> "stderr"%string) /\
  (forall row, row ∈ rows data -> row_replicate row <> "average"%string) /\
  (forall i j r1 r2,
     i <> j -> rows data !! i = Some r1 -> rows data !! j = Some r2 ->
     row_serum r1 = row_serum r2 -> row_virus r1 = row_virus r2 ->
     row_replicate r1 = row_replicate r2 ->
     F.eq (row_conc r1) (row_conc r2) = false).
Proof.
  intros Hinit cols.
  unfold CurveFits__init__ in Hinit. fold cols in Hinit.
  destruct (has_duplicates cols) eqn:Hdup; [done|].
  destruct (negb _) eqn:Hcols; [done|].
  apply bind_Ok in Hinit as ([vs reps] & Hinit_sera & Hinit).
  destruct (existsb _ cols) eqn:Hstderr; [done|]. injection Hinit as Hself.
  apply init_sera_Ok in Hinit_sera as (Hchecked & Hvisited & _).
  2:{ intros s v l Hl. by rewrite lookup_empty in Hl. }
  split; [|split; [|split]].
  - unfold has_duplicates in Hdup.
    apply negb_false_iff, Nat.eqb_eq in Hdup. symmetry in Hdup.
    apply unique_by_length_eq in Hdup as [Hid _].
    fold (unique cols) in Hid. rewrite <- Hid. apply unique_NoDup.
  - intros c Hc. split.
    + apply negb_false_iff in Hcols. rewrite forallb_forall in Hcols.
      apply list_elem_of_In in Hc. apply Hcols, existsb_exists in Hc as (c' & Hc' & Heq).
      apply String.eqb_eq in Heq as ->. by apply list_elem_of_In.
    + intros ->. apply not_true_iff_false in Hstderr. apply Hstderr.
      apply existsb_exists. exists "stderr"%string.
      split; [by apply list_elem_of_In | done].
  - intros row Hrow Havg.
    destruct (Hvisited (row_serum row) (row_virus row)) as [l Hl].
    + apply elem_of_unique. by apply list_elem_of_fmap_2.
    + apply elem_of_unique. apply (list_elem_of_fmap_2 row_virus).
      apply list_elem_of_In, filter_In. rewrite <- list_elem_of_In.
      split; [done | apply String.eqb_refl].
    + destruct (Hchecked _ _ _ Hl) as (_ & Hnot & _). apply Hnot.
      rewrite <- Havg. apply elem_of_unique.
      apply (list_elem_of_fmap_2 row_replicate). unfold virus_rows_of.
      apply list_elem_of_In, filter_In. split; [|apply String.eqb_refl].
      apply filter_In. rewrite <- list_elem_of_In.
      split; [done | apply String.eqb_refl].
  - intros i j r1 r2 Hij Hi Hj Hs Hv Hr.
    destruct (F.eq (row_conc r1) (row_conc r2)) eqn:Heq; [exfalso|done].
    set (serum := row_serum r1). set (virus := row_virus r1).
    set (rep := row_replicate r1).
    destruct (Hvisited serum virus) as [l Hl].
    { apply elem_of_unique. apply list_elem_of_fmap_2.
      by apply list_elem_of_lookup_2 in Hi. }
    { apply elem_of_unique. apply (list_elem_of_fmap_2 row_virus).
      apply list_elem_of_In, filter_In. split; [|apply String.eqb_refl].
      apply list_elem_of_In. by apply list_elem_of_lookup_2 in Hi. }
    destruct (Hchecked _ _ _ Hl) as (_ & _ & Hcheck).
    assert (rep ∈ virus_reps_of (rows data) serum virus) as Hrep.
    { apply elem_of_unique. apply (list_elem_of_fmap_2 row_replicate).
      unfold virus_rows_of.
      apply list_elem_of_In, filter_In. split; [|apply String.eqb_refl].
      apply filter_In. split; [|apply String.eqb_refl].
      apply list_elem_of_In. by apply list_elem_of_lookup_2 in Hi. }
    pose proof (check_replicates_Ok _ _ _ _ Hcheck rep Hrep) as Hlen.
    symmetry in Hlen. apply unique_by_length_eq in Hlen as [_ Hdistinct].
    pose proof (distinct_count (row_conc r2) _ Hdistinct) as Hcount.
    unfold replicate_concs in Hcount.
    rewrite sort_values_count, filter_fmap_length in Hcount.
    unfold virus_rows_of in Hcount. rewrite !filter_filter in Hcount.
    assert (2 <= length
              (List.filter
                 (fun x => String.eqb (row_serum x) serum
                           && (String.eqb (row_virus x) virus
                               && (String.eqb (row_replicate x) rep
                                   && F.eq (row_conc x) (row_conc r2))))
                 (rows data)))
      as Htwo; [|lia].
    apply (filter_two _ _ i j r1 r2 Hij Hi Hj).
    + unfold serum, virus, rep. by rewrite !String.eqb_refl, Heq.
    + unfold serum, virus, rep. rewrite Hs, Hv, Hr, !String.eqb_refl. simpl.
      apply F_eq_refl. apply F_eq_key in Heq. tauto.
Qed.

(** ** Indexing along a permutation *)
Lemma take_idx_cons {A} (a : list A) i idx :
  take_idx a (i :: idx)
  = item_at a i ≫= fun y => take_idx a idx ≫= fun k => Ok (y :: k).
Proof. done. Qed.

Lemma take_idx_cons_Ok {A} (a : list A) i idx l :
  take_idx a (i :: idx) = Ok l <->
  exists y k, a !! i = Some y /\ take_idx a idx = Ok k /\ l = y :: k.
Proof.
  rewrite take_idx_cons. split.
  - intros Hl. apply bind_Ok in Hl as (y & Hy & Hl).
    apply bind_Ok in Hl as (k & Hk & Hl). injection Hl as <-.
    apply item_at_Ok in Hy. eauto.
  - intros (y & k & Hy & Hk & ->). apply item_at_Ok in Hy.
    by rewrite Hy, bind_Ok_l, Hk.
Qed.

Lemma take_idx_permutation {A} (a : list A) idx idx' l :
  idx ≡ₚ idx' -> take_idx a idx = Ok l ->
  exists l', take_idx a idx' = Ok l' /\ l ≡ₚ l'.
Proof.
  intros Hperm. revert l.
  induction Hperm as [|i idx idx' _ IH|i j idx|idx1 idx2 idx3 _ IH1 _ IH2];
    intros l Hl.
  - exists l. by split.
  - apply take_idx_cons_Ok in Hl as (y & k & Hy & Hk & ->).
    destruct (IH k Hk) as (k' & Hk' & Hperm).
    exists (y :: k'). split; [|by constructor].
    apply take_idx_cons_Ok. eauto.
  - apply take_idx_cons_Ok in Hl as (y & k & Hy & Hk & ->).
    apply take_idx_cons_Ok in Hk as (z & k' & Hz & Hk' & ->).
    exists (z :: y :: k'). split; [|apply Permutation_swap].
    apply take_idx_cons_Ok. exists z, (y :: k').
    split; [done|]. split; [|done]. apply take_idx_cons_Ok. eauto.
  - destruct (IH1 l Hl) as (l2 & Hl2 & Hp2).
    destruct (IH2 l2 Hl2) as (l3 & Hl3 & Hp3).
    exists l3. split; [done|]. by etrans.
Qed.

Lemma take_idx_seq {A} (a : list A) : take_idx a (seq 0 (length a)) = Ok a.
Proof.
  pose proof (take_idx_pairs a (zip a (seq 0 (length a))) (zip_seq_lookup a))
    as Hp.
  rewrite snd_zip, fst_zip in Hp; [done | | ]; by rewrite length_seq.
Qed.

(** Indexing an array by the [argsort] of an array of the same length
    permutes it. *)
Lemma take_idx_argsort_perm {A} (a : list A) (keys : list float) l :
  length a = length keys -> take_idx a (argsort keys) = Ok l -> l ≡ₚ a.
Proof.
  intros Hlen Hl.
  destruct (take_idx_permutation a _ _ l (argsort_perm keys) Hl)
    as (l' & Hl' & Hperm).
  rewrite <- Hlen, take_idx_seq in Hl'. by injection Hl' as <-.
Qed.

Lemma take_idx_zip {A B} (a : list A) (b : list B) idx a' b' :
  take_idx a idx = Ok a' -> take_idx b idx = Ok b' ->
  take_idx (zip a b) idx = Ok (zip a' b').
Proof.
  revert a' b'. induction idx as [|i idx IH]; intros a' b' Ha Hb.
  { injection Ha as <-. by injection Hb as <-. }
  apply take_idx_cons_Ok in Ha as (x & ka & Hx & Hka & ->).
  apply take_idx_cons_Ok in Hb as (y & kb & Hy & Hkb & ->).
  apply take_idx_cons_Ok. exists (x, y), (zip ka kb).
  split; [|split; [by apply IH | done]].
  apply lookup_zip_with_Some. eauto.
Qed.

Section MoreMethodFacts.
Context `{SciPy}.

Lemma steps_same_data self self' : steps self self' -> same_data self self'.
Proof. intros Hsteps. by destruct (steps_table_ok _ _ Hsteps). Qed.

Lemma indexed_by_same data a b :
  same_data a b -> indexed_by data a -> indexed_by data b.
Proof.
  intros (_ & Hs & Hv & Hr & _) (Hsera & Hvs & Hreps).
  unfold indexed_by. by rewrite <- Hs, <- Hv, <- Hr.
Qed.

Lemma reachable_indexed self : reachable self -> exists data, indexed_by data self.
Proof.
  intros (data & ? & ? & ? & ? & ? & ? & ? & self0 & Hinit & Hsteps).
  exists (rows data). apply init_indexed in Hinit.
  eapply indexed_by_same; [by apply steps_same_data | done].
Qed.

(** The rows and the checks of [getCurve], when they pass. *)
Lemma curve_data_Ok self serum virus replicate cs0 fs0 e0 :
  curve_data self serum virus replicate = Ok (cs0, fs0, e0) ->
  (serum, virus, replicate) ∈ all_keys self /\
  cs0 = d_conc <$> idata self serum virus replicate /\
  fs0 = d_fracinf <$> idata self serum virus replicate.
Proof.
  unfold curve_data. fold (idata self serum virus replicate).
  destruct (negb (existsb _ (sera self))) eqn:Hs; [done|].
  destruct (viruses self !! serum) as [vs|] eqn:Hvs; [|done].
  destruct (negb (existsb _ vs)) eqn:Hv; [done|].
  destruct (replicates self !! (serum, virus)) as [reps|] eqn:Hreps; [|done].
  destruct (negb (existsb _ reps)) eqn:Hr; [done|].
  intros Hd.
  assert (forall x l, negb (existsb (String.eqb x) l) = false -> x ∈ l) as Hin.
  { intros x l Hx. apply negb_false_iff, existsb_exists in Hx as (y & Hy & Heq).
    apply String.eqb_eq in Heq as ->. by apply list_elem_of_In. }
  split.
  - apply elem_of_all_keys. rewrite Hvs, Hreps. simpl.
    split; [by apply Hin | split; by apply Hin].
  - revert Hd. destruct (forallb _ _); [by intros [= <- <- <-]|].
    destruct (existsb (fun r => is_nan (d_stderr r)) _); [done|].
    by intros [= <- <- <-].
Qed.

(** On a [CurveFits] in use, a key that is not one of its keys is refused
    by [getCurve] in its checks, whatever the cache holds. *)
Lemma curve_data_invalid data self serum virus replicate :
  indexed_by data self ->
  (serum, virus, replicate) ∉ all_keys self ->
  curve_data self serum virus replicate =
  Raise (ValueError
           (if decide (serum ∈ sera self) then
              if decide (virus ∈ default [] (viruses self !! serum)) then
                "invalid `replicate` of " +:+ replicate +:+
                " for `serum` of " +:+ serum +:+ " and `virus` of " +:+ virus
              else "invalid `virus` of " +:+ virus +:+
                   " for `serum` of " +:+ serum
            else "invalid `serum` of " +:+ serum)).
Proof.
  intros (Hsera & Hvs & Hreps) Hkey. unfold curve_data.
  assert (forall x l, existsb (String.eqb x) l = true <-> x ∈ l) as Hin.
  { intros x l. rewrite existsb_exists. split.
    - intros (y & Hy & Heq). apply String.eqb_eq in Heq as ->.
      by apply list_elem_of_In.
    - intros Hx. exists x. split; [by apply list_elem_of_In|].
      apply String.eqb_refl. }
  rewrite elem_of_all_keys in Hkey.
  destruct (decide (serum ∈ sera self)) as [Hs|Hs].
  2:{ destruct (existsb (String.eqb serum) (sera self)) eqn:Hs'; [|done].
      by apply Hin in Hs'. }
  pose proof Hs as Hs'. apply Hin in Hs'. rewrite Hs'. simpl.
  specialize (Hvs serum). rewrite decide_True in Hvs by done.
  rewrite Hvs. simpl. rewrite Hvs in Hkey. simpl in Hkey.
  destruct (decide (virus ∈ serum_viruses_of data serum)) as [Hv|Hv].
  2:{ destruct (existsb (String.eqb virus) _) eqn:Hv'; [|done].
      by apply Hin in Hv'. }
  pose proof Hv as Hv'. apply Hin in Hv'. rewrite Hv'. simpl.
  specialize (Hreps serum virus). rewrite decide_True in Hreps by done.
  rewrite Hreps. rewrite Hreps in Hkey. simpl in Hkey.
  destruct (existsb (String.eqb replicate) _) eqn:Hr'; [|done].
  apply Hin in Hr'. exfalso. apply Hkey. by repeat split.
Qed.

(** X13: on a [CurveFits] in use, [getCurve] refuses every key that is not
    a serum of the data, a virus of that serum and a replicate of the two
    (or 'average'): it raises [ValueError], naming the first of the three
    that is wrong, and leaves the object as it was. *)
Theorem getCurve_invalid_key self serum virus replicate :
  reachable self ->
  (serum, virus, replicate) ∉ all_keys self ->
  getCurve serum virus replicate self =
  (Raise (ValueError
            (if decide (serum ∈ sera self) then
               if decide (virus ∈ default [] (viruses self !! serum)) then
                 "invalid `replicate` of " +:+ replicate +:+
                 " for `serum` of " +:+ serum +:+ " and `virus` of " +:+ virus
               else "invalid `virus` of " +:+ virus +:+
                    " for `serum` of " +:+ serum
             else "invalid `serum` of " +:+ serum)),
   self).
Proof.
  intros Hreach Hkey.
  destruct (reachable_indexed self Hreach) as [data Hidx].
  pose proof (reachable_cache_ok self Hreach) as [Hbuilt _].
  unfold getCurve.
  destruct (_hillcurves self !! (serum, virus, replicate)) as [o|] eqn:Hk.
  { destruct (Hbuilt _ _ Hk) as (_ & cs0 & fs0 & e0 & Hd & _).
    apply curve_data_Ok in Hd as [Hin _]. done. }
  by rewrite (curve_data_invalid data).
Qed.

(** X14: the curve that [getCurve] returns is fitted to the rows of its
    key: the key is a serum, virus and replicate of the object, it has rows
    in the data frame, and the concentrations of the curve, paired with its
    responses, are these rows' concentrations and fractions, reordered so
    that the concentrations ascend. *)
Theorem getCurve_fits_its_rows self serum virus replicate curve self' :
  reachable self ->
  getCurve serum virus replicate self = (Ok curve, self') ->
  let rows := idata self serum virus replicate in
  (serum, virus, replicate) ∈ all_keys self /\
  rows <> [] /\
  fitted (obj curve) /\
  zip (cs (obj curve)) (fs (obj curve))
    ≡ₚ zip (d_conc <$> rows) (d_fracinf <$> rows) /\
  StronglySorted (fun x y => F.le x y = true) (cs (obj curve)).
Proof.
  intros Hreach Hget rows.
  pose proof (reachable_cache_ok self Hreach) as Hok.
  destruct (getCurve_sound serum virus replicate self Hok) as [[Hbuilt _] Hev].
  rewrite Hget in Hbuilt, Hev. simpl in *.
  apply getCurve_cached in Hget.
  destruct (Hbuilt _ _ Hget) as (_ & cs0 & fs0 & e0 & Hd & Hinit). simpl in *.
  destruct Hev as [Hsame _].
  rewrite <- (curve_data_same self self') in Hd by done.
  apply curve_data_Ok in Hd as (Hkey & -> & ->). fold rows in Hinit.
  assert (fitted (obj curve)) as Hfit by (by repeat eexists).
  split; [done|].
  pose proof (fitted_cs_nonempty _ Hfit) as Hne.
  apply HillCurve_init_Ok in Hinit as (? & ? & ? & ? & ? & Hcs & Hfs & _).
  split.
  { intros Hnil. rewrite Hnil in Hcs. by injection Hcs as Hcs. }
  split; [done|]. split; [|by apply fitted_sorted].
  apply (take_idx_argsort_perm _ (d_conc <$> rows)).
  - rewrite length_zip_with, !length_fmap. lia.
  - by apply take_idx_zip.
Qed.

(** *** The rows of the table and the cache *)
Lemma describes_evolves a b row : evolves a b -> describes a row -> describes b row.
Proof.
  intros (_ & Hcache & _) (curve & n & Hk & Hrow).
  exists curve, n. split; [by apply Hcache | done].
Qed.

Lemma replicate_rows_describes serum virus n reps self rows self' :
  cache_ok self ->
  replicate_rows serum virus n reps self = (Ok rows, self') ->
  Forall (describes self') rows.
Proof.
  revert self rows. induction reps as [|replicate more IH]; intros self rows Hok.
  { by intros [= <- <-]. }
  simpl. unfold bind at 1.
  destruct (getCurve_sound serum virus replicate self Hok) as [Hok1 _].
  destruct (getCurve serum virus replicate self) as [[curve|e] self1] eqn:Hget;
    [|done].
  simpl in Hok1. apply getCurve_cached in Hget.
  unfold bind at 1, lift at 1.
  destruct (param_row serum virus replicate n (obj curve)) as [row|e] eqn:Hrow;
    [|done].
  unfold bind at 1.
  pose proof (respects_replicate_rows sound sound_refl sound_trans
                getCurve_sound serum virus n more self1 Hok1) as [_ Hev].
  destruct (replicate_rows serum virus n more self1) as [[rest|e] self2] eqn:Hrest;
    [|done].
  intros [= <- <-]. simpl in Hev. constructor; [|by eapply IH].
  destruct Hev as (_ & Hcache & _).
  exists curve, n. pose proof (param_row_Ok _ _ _ _ _ _ Hrow) as [Hkey _].
  rewrite Hkey. split; [by apply Hcache|].
  unfold row_key in Hkey. by injection Hkey as -> -> ->.
Qed.

Lemma virus_rows_describes serum vs self rows self' :
  cache_ok self ->
  virus_rows serum vs self = (Ok rows, self') ->
  Forall (describes self') rows.
Proof.
  revert self rows. induction vs as [|virus more IH]; intros self rows Hok.
  { by intros [= <- <-]. }
  simpl. unfold bind at 1.
  destruct (replicates self !! (serum, virus)) as [reps|]; [|done].
  simpl. destruct (negb _); [done|].
  unfold bind at 1.
  set (n := length (List.filter (fun r => negb (String.eqb r "average")) reps)).
  pose proof (respects_replicate_rows sound sound_refl sound_trans
                getCurve_sound serum virus n reps self Hok) as [Hok1 _].
  destruct (replicate_rows serum virus n reps self) as [[rows1|e] self1] eqn:Hrows1;
    [|done].
  simpl in Hok1. unfold bind at 1.
  pose proof (respects_virus_rows sound sound_refl sound_trans
                getCurve_sound serum more self1 Hok1) as [_ Hev].
  destruct (virus_rows serum more self1) as [[rest|e] self2] eqn:Hrest; [|done].
  intros [= <- <-]. simpl in Hev. apply Forall_app. split; [|by eapply IH].
  apply replicate_rows_describes in Hrows1; [|done].
  eapply Forall_impl; [exact Hrows1|]. intros row. by apply describes_evolves.
Qed.

Lemma serum_rows_describes l self rows self' :
  cache_ok self ->
  serum_rows l self = (Ok rows, self') ->
  Forall (describes self') rows.
Proof.
  revert self rows. induction l as [|serum more IH]; intros self rows Hok.
  { by intros [= <- <-]. }
  simpl. unfold bind at 1.
  destruct (viruses self !! serum) as [vs|]; [|done].
  simpl. unfold bind at 1.
  pose proof (respects_virus_rows sound sound_refl sound_trans
                getCurve_sound serum vs self Hok) as [Hok1 _].
  destruct (virus_rows serum vs self) as [[rows1|e] self1] eqn:Hrows1; [|done].
  simpl in Hok1. unfold bind at 1.
  pose proof (respects_serum_rows sound sound_refl sound_trans
                getCurve_sound more self1 Hok1) as [_ Hev].
  destruct (serum_rows more self1) as [[rest|e] self2] eqn:Hrest; [|done].
  intros [= <- <-]. simpl in Hev. apply Forall_app. split; [|by eapply IH].
  apply virus_rows_describes in Hrows1; [|done].
  eapply Forall_impl; [exact Hrows1|]. intros row. by apply describes_evolves.
Qed.

Lemma table_describes_refl a : table_describes a a.
Proof. intros Hok. split; [done|]. split; [apply evolves_refl | done]. Qed.

Lemma table_describes_trans a b c :
  table_describes a b -> table_describes b c -> table_describes a c.
Proof.
  intros H1 H2 Hok. destruct (H1 Hok) as (Hok1 & Hev1 & Ht1).
  destruct (H2 Hok1) as (Hok2 & Hev2 & Ht2).
  split; [done|]. split; [by eapply evolves_trans | auto].
Qed.

Lemma getCurve_table_describes serum virus replicate :
  respects table_describes (getCurve serum virus replicate).
Proof.
  intros self Hok.
  destruct (getCurve_sound serum virus replicate self Hok) as [Hok1 Hev].
  split; [done|]. split; [done|].
  intros Hfull full Hsome.
  rewrite (getCurve_same_table serum virus replicate self) in Hsome.
  eapply Forall_impl; [by apply Hfull|]. intros row.
  by apply describes_evolves.
Qed.

Lemma fitParams_table_describes average_only :
  respects table_describes (fitParams average_only).
Proof.
  intros self Hok.
  destruct (fitParams_sound average_only self Hok) as [Hok1 Hev].
  split; [done|]. split; [done|].
  intros Hfull full. unfold fitParams, bind.
  destruct (_fitparams self) as [t|] eqn:Ht.
  - simpl. rewrite Ht. destruct average_only; simpl; rewrite Ht;
      intros [= <-]; by apply Hfull.
  - unfold compute_fitparams, bind.
    pose proof (respects_serum_rows same_table same_table_refl same_table_trans
                  getCurve_same_table (sera self) self) as Htable.
    unfold same_table in Htable.
    destruct (serum_rows (sera self) self) as [[rows|e] self1] eqn:Hrows;
      simpl in *.
    2:{ by rewrite Htable, Ht. }
    apply serum_rows_describes in Hrows; [|done].
    destruct rows as [|row rows]; simpl.
    { by rewrite Htable, Ht. }
    destruct average_only; simpl; intros [= <-];
      (eapply Forall_impl; [exact Hrows|]);
      intros r (curve & n & Hk & Hr); by exists curve, n.
Qed.

Lemma steps_table_describes self self' :
  steps self self' -> table_describes self self'.
Proof.
  induction 1 as [|self' serum virus replicate _ IH|self' average_only _ IH].
  - apply table_describes_refl.
  - eapply table_describes_trans; [exact IH | apply getCurve_table_describes].
  - eapply table_describes_trans; [exact IH | apply fitParams_table_describes].
Qed.

Lemma reachable_describes self full :
  reachable self -> _fitparams self = Some full -> Forall (describes self) full.
Proof.
  intros (data & ? & ? & ? & ? & ? & ? & ? & self0 & Hinit & Hsteps).
  apply init_cache_ok in Hinit as [Hok Hnone].
  destruct (steps_table_describes _ _ Hsteps Hok) as (_ & _ & Ht).
  apply Ht. intros t Hsome. congruence.
Qed.

Lemma param_row_fields serum virus replicate n curve row :
  param_row serum virus replicate n curve = Ok row ->
  ic50 curve "bound" = Ok (p_ic50 row) /\
  ic50_bound curve = Ok (p_ic50_bound row) /\
  ic50_str curve 3 = Ok (p_ic50_str row) /\
  p_midpoint row = midpoint curve /\ p_slope row = slope curve /\
  p_top row = fval (top curve) /\ p_bottom row = fval (bottom curve).
Proof.
  unfold param_row. intros Hrow.
  apply bind_Ok in Hrow as (i & Hi & Hrow).
  apply bind_Ok in Hrow as (b & Hb & Hrow).
  apply bind_Ok in Hrow as (str & Hstr & Hrow).
  by injection Hrow as <-.
Qed.

(** X15: the table of [fitParams] describes the cached curves.  When a call
    of [fitParams] returns, the curve of every key of the object is in the
    cache, and every row of the returned table holds what the cached curve
    of its key gives: the number that [ic50('bound')] returns (never
    [None]), the strings of [ic50_bound] and [ic50_str], and the four
    fitted parameters. *)
Theorem fitParams_describes_curves self average_only table self1 :
  reachable self ->
  fitParams average_only self = (Ok table, self1) ->
  (forall k, k ∈ all_keys self -> is_Some (_hillcurves self1 !! k)) /\
  (forall row, row ∈ table ->
     exists curve v,
       _hillcurves self1 !! row_key row = Some curve /\
       fitted (obj curve) /\
       ic50 (obj curve) "bound" = Ok (Some v) /\ p_ic50 row = Some v /\
       ic50_bound (obj curve) = Ok (p_ic50_bound row) /\
       ic50_str (obj curve) 3 = Ok (p_ic50_str row) /\
       p_midpoint row = midpoint (obj curve) /\
       p_slope row = slope (obj curve) /\
       p_top row = fval (top (obj curve)) /\
       p_bottom row = fval (bottom (obj curve))).
Proof.
  intros Hreach Hfit.
  assert (reachable self1) as Hreach1.
  { destruct Hreach as (data & ? & ? & ? & ? & ? & ? & ? & self0 & Hinit & Hsteps).
    exists data. do 7 eexists. exists self0. split; [exact Hinit|].
    replace self1 with (fitParams average_only self).2 by (by rewrite Hfit).
    by constructor. }
  pose proof (reachable_cache_ok _ Hreach1) as [Hbuilt _].
  assert (exists full, _fitparams self1 = Some full /\
                       table = select average_only full) as (full & Hfull & ->).
  { unfold fitParams, bind in Hfit.
    destruct (match _fitparams self with
              | Some _ => (Ok (), self)
              | None => compute_fitparams self
              end) as [[[]|e] self'] eqn:Hc; [|done].
    destruct (_fitparams self') as [t|] eqn:Ht; [|done].
    exists t. destruct average_only; injection Hfit as <- <-; by split. }
  pose proof (reachable_describes _ _ Hreach1 Hfull) as Hdesc.
  pose proof (reachable_table _ _ Hreach1 Hfull) as (Hkeys & _).
  assert (same_data self self1) as Hsame.
  { pose proof (fitParams_table_ok average_only self) as [Hsame _].
    by rewrite Hfit in Hsame. }
  rewrite Forall_forall in Hdesc. split.
  - intros k Hk.
    assert (k ∈ row_key <$> full) as Hin.
    { rewrite Hkeys. unfold all_keys in *.
      destruct Hsame as (_ & Hs & Hv & Hr & _). by rewrite <- Hs, <- Hv, <- Hr. }
    apply list_elem_of_fmap in Hin as (row & -> & Hrow).
    destruct (Hdesc row Hrow) as (curve & n & Hc & _). by exists curve.
  - intros row Hrow.
    assert (row ∈ full) as Hin.
    { destruct average_only; simpl in Hrow; [|done].
      apply list_elem_of_In, filter_In in Hrow as [Hrow _].
      by apply list_elem_of_In. }
    destruct (Hdesc row Hin) as (curve & n & Hc & Hparam).
    apply param_row_fields in Hparam as (Hi & Hb & Hstr & ? & ? & ? & ?).
    destruct (Hbuilt _ _ Hc) as (_ & cs0 & fs0 & e0 & _ & Hinit).
    assert (fitted (obj curve)) as Hfitted by (by repeat eexists).
    pose proof (ic50_bound_Ok _ _ Hi) as Hsome.
    assert (exists v, p_ic50 row = Some v) as [v Hv].
    { destruct Hsome as [(v & _ & ->) | (cN & _ & _ & ->)]; eauto. }
    exists curve, v. rewrite Hv in Hi. by repeat split.
Qed.

End MoreMethodFacts.

(** ** [HillCurve.dataframe] *)
Lemma zip_with_app_both {A B C} (f : A -> B -> C) l1 l2 k1 k2 :
  length l1 = length k1 ->
  zip_with f (l1 ++ l2) (k1 ++ k2) = zip_with f l1 k1 ++ zip_with f l2 k2.
Proof.
  revert k1. induction l1 as [|x l1 IH]; intros [|y k1] Hlen; simpl in *;
    try done.
  f_equal. apply IH. lia.
Qed.

Lemma sort_by_concentration_perm rows : sort_by_concentration rows ≡ₚ rows.
Proof.
  unfold sort_by_concentration. rewrite sort_perm.
  rewrite <- list_fmap_compose. by rewrite list_fmap_id.
Qed.

Lemma sort_by_concentration_sorted rows :
  Forall (fun r => is_nan (concentration r) = false) rows ->
  StronglySorted (fun r1 r2 => F.le (concentration r1) (concentration r2) = true)
    (sort_by_concentration rows).
Proof.
  intros Hnan. unfold sort_by_concentration.
  set (pairs := (fun r => (concentration r, r)) <$> rows).
  assert (Forall (fun p : float * PlotRow => p.1 = concentration p.2)
            (foldr sort_insert [] pairs)) as Hfst.
  { rewrite sort_perm. unfold pairs. by rewrite Forall_fmap, Forall_forall. }
  assert (StronglySorted fst_le (foldr sort_insert [] pairs)) as Hsorted.
  { apply sort_sorted. unfold pairs. rewrite Forall_fmap.
    eapply Forall_impl; [exact Hnan | done]. }
  induction Hsorted as [|p l _ IH Hp]; csimpl; [constructor|].
  apply Forall_cons in Hfst as [Hp1 Hfst].
  constructor; [by apply IH|].
  rewrite Forall_fmap. rewrite Forall_forall in Hp, Hfst.
  apply Forall_forall. intros q Hq. simpl.
  specialize (Hp q Hq). unfold fst_le in Hp.
  by rewrite <- Hp1, <- (Hfst q Hq).
Qed.

Section DataFrameFacts.
Context `{SciPy}.

(** On a fitted curve [dataframe] never fails past the choice of the
    concentrations: the lengths of its columns agree. *)
Lemma dataframe_Ok c concentrations extra :
  fitted c ->
  requested_concentrations c concentrations = Ok extra ->
  dataframe c concentrations =
  Ok (sort_by_concentration (measured_rows c ++ unmeasured_rows c extra)).
Proof.
  intros Hc Hextra.
  destruct (fitted_lengths c Hc) as [Hfs He].
  unfold dataframe. rewrite Hextra, bind_Ok_l.
  rewrite length_app, Hfs. unfold np_full.
  replace (Z.of_nat (length (cs c) + length extra) - Z.of_nat (length (cs c)))%Z
    with (Z.of_nat (length extra)) by lia.
  destruct (Z.ltb_spec (Z.of_nat (length extra)) 0) as [?|_]; [lia|].
  destruct (Z.ltb_spec (Z.of_nat (length (cs c) + length extra)) 0) as [?|_];
    [lia|].
  rewrite !Nat2Z.id, bind_Ok_l.
  set (errs := default (replicate (length (cs c)) nan) (fs_stderr c)).
  assert (length errs = length (cs c)) as Herrs.
  { unfold errs. destruct (fs_stderr c) as [e|] eqn:E; simpl.
    - by apply He.
    - by rewrite length_replicate. }
  assert (match fs_stderr c with
          | Some e => Ok (replicate (length extra) nan) ≫= fun pad => Ok (e ++ pad)
          | None => Ok (replicate (length (cs c) + length extra) nan)
          end = Ok (errs ++ replicate (length extra) nan)) as Hstderr.
  { unfold errs. destruct (fs_stderr c); simpl; [done|].
    by rewrite replicate_add. }
  rewrite Hstderr, bind_Ok_l. unfold from_dict.
  rewrite !length_app, !length_fmap, !length_app, !length_replicate, Hfs, Herrs.
  rewrite !Nat.eqb_refl. simpl. do 2 f_equal.
  unfold measured_rows, unmeasured_rows. fold errs.
  rewrite fmap_app.
  rewrite !zip_with_app_both by (rewrite ?length_fmap; congruence).
  rewrite zip_with_app_both.
  2:{ rewrite !length_zip_with, !length_fmap. lia. }
  f_equal.
  - clear -Hfs Herrs. revert Hfs Herrs. generalize (fs c) errs.
    induction (cs c) as [|x l IH]; intros [|f fs'] [|e es] Hf He';
      simpl in *; try done.
    f_equal. apply IH; lia.
  - generalize (fracinfectivity c). intros g. clear.
    induction extra as [|x l IH]; [done|].
    rewrite !fmap_cons. simpl. f_equal. apply IH.
Qed.

(** X16: the frame of [dataframe] on a fitted curve.  Whatever
    concentrations are asked for, the call returns a frame with one row for
    each measured point, holding the concentration, the measurement, the
    fitted value there and the standard error (NaN without standard
    errors), and one row for each concentration asked for, holding the
    fitted value there and NaN as measurement and standard error; nothing
    else.  The rows come in ascending order of concentration when no
    concentration asked for is NaN. *)
Theorem dataframe_rows c concentrations extra :
  fitted c ->
  requested_concentrations c concentrations = Ok extra ->
  exists rows,
    dataframe c concentrations = Ok rows /\
    rows ≡ₚ measured_rows c ++ unmeasured_rows c extra /\
    length rows = length (cs c) + length extra /\
    (no_nan extra ->
     StronglySorted
       (fun r1 r2 => F.le (concentration r1) (concentration r2) = true) rows).
Proof.
  intros Hc Hextra.
  destruct (fitted_lengths c Hc) as [Hfs He].
  pose proof (fitted_cs_no_nan c Hc) as Hnan.
  eexists. split; [by apply dataframe_Ok|].
  split; [apply sort_by_concentration_perm|].
  split.
  { rewrite sort_by_concentration_perm, length_app.
    unfold measured_rows, unmeasured_rows.
    rewrite !length_zip_with, length_fmap.
    destruct (fs_stderr c) as [e|] eqn:E; simpl.
    - rewrite (He e eq_refl). lia.
    - rewrite length_replicate. lia. }
  intros Hextra_nan. apply sort_by_concentration_sorted.
  apply Forall_app. split.
  - unfold measured_rows. unfold no_nan in Hnan.
    clear -Hnan. revert Hnan.
    generalize (fs c) (default (replicate (length (cs c)) nan) (fs_stderr c)).
    induction (cs c) as [|x l IH]; intros [|f fs'] [|e es] Hn; simpl;
      try constructor.
    + simpl. by apply Forall_cons in Hn as [? _].
    + apply IH. by apply Forall_cons in Hn as [_ ?].
  - unfold unmeasured_rows. rewrite Forall_fmap.
    eapply Forall_impl; [exact Hextra_nan | done].
Qed.

(** X17: [dataframe()] with the default 'auto' on a fitted curve.  When
    all measured concentrations are equal it raises the [ValueError] of
    [concentrationRange], '`bottom` must be less than `top`'.  Otherwise it
    raises nothing but the [AssertionError] of [concentrationRange], which
    takes that the two logarithms do not differ, and when it returns, the
    frame has 200 rows more than there are measured points. *)
Theorem dataframe_auto c :
  fitted c ->
  exists c0 cN,
    item_first (cs c) = Ok c0 /\ item_last (cs c) = Ok cN /\
    (F.eq c0 cN = true ->
     dataframe c Auto = Raise (ValueError "`bottom` must be less than `top`")) /\
    (F.eq c0 cN = false ->
     F.lt c0 cN = true /\
     if F.gt (libm_log10 cN - libm_log10 c0) 0
     then exists rows, dataframe c Auto = Ok rows /\
                       length rows = length (cs c) + 200
     else dataframe c Auto = Raise AssertionError).
Proof.
  intros Hc.
  destruct (fitted_ends c Hc) as (c0 & cN & Hc0 & HcN & Hn0 & HnN & Hle & _).
  pose proof (fitted_cs_gt_zero c Hc) as Hpos.
  assert (F.le c0 0 = false) as Hpos0.
  { apply item_first_Ok, head_Some_elem_of in Hc0.
    rewrite Forall_forall in Hpos. specialize (Hpos c0 Hc0).
    unfold F.gt in Hpos. by apply F_lt_le_false. }
  assert (F.le cN 0 = false) as HposN.
  { apply item_last_Ok, last_Some_elem_of in HcN.
    rewrite Forall_forall in Hpos. specialize (Hpos cN HcN).
    unfold F.gt in Hpos. by apply F_lt_le_false. }
  exists c0, cN. split; [done|]. split; [done|]. split.
  - intros Heq. unfold dataframe, requested_concentrations.
    rewrite Hc0, bind_Ok_l, HcN, bind_Ok_l. unfold concentrationRange.
    by rewrite (F_eq_le _ _ (F_eq_sym _ _ Heq)).
  - intros Hne.
    assert (F.le cN c0 = false) as Hlt.
    { destruct (F.le cN c0) eqn:E; [|done].
      by rewrite (F_le_antisym _ _ Hle E) in Hne. }
    split; [by apply F_le_total|].
    assert (requested_concentrations c Auto =
            if F.gt (libm_log10 cN - libm_log10 c0) 0
            then np_logspace
                   (libm_log10 c0 - (libm_log10 cN - libm_log10 c0) * default_extend)
                   (libm_log10 cN + (libm_log10 cN - libm_log10 c0) * default_extend) 200
            else Raise AssertionError) as Hreq.
    { unfold requested_concentrations.
      rewrite Hc0, bind_Ok_l, HcN, bind_Ok_l. unfold concentrationRange.
      rewrite Hlt, Hpos0.
      replace (F.lt default_extend 0) with false by (by vm_compute).
      unfold math_log10. rewrite Hpos0, HposN, !bind_Ok_l.
      by destruct (F.gt _ 0). }
    destruct (F.gt (libm_log10 cN - libm_log10 c0) 0).
    + destruct (np_logspace_Ok
                  (libm_log10 c0 - (libm_log10 cN - libm_log10 c0) * default_extend)
                  (libm_log10 cN + (libm_log10 cN - libm_log10 c0) * default_extend) 200)
        as (l & Hl & Hlen & _); [lia|].
      rewrite Hl in Hreq. eexists. split; [by apply dataframe_Ok|].
      destruct (fitted_lengths c Hc) as [Hfs He].
      rewrite sort_by_concentration_perm, length_app.
      unfold measured_rows, unmeasured_rows.
      rewrite !length_zip_with, length_fmap, Hlen.
      destruct (fs_stderr c) as [e|] eqn:E; simpl.
      * rewrite (He e eq_refl). lia.
      * rewrite length_replicate. lia.
    + unfold dataframe. by rewrite Hreq.
Qed.

End DataFrameFacts.

(** ** Plotting *)
Lemma outcome_bind_Done {A B} (m : outcome A) (f : A -> outcome B) (b : B) :
  m ≫= f = Done b <-> exists a, m = Done a /\ f a = Done b.
Proof.
  destruct m as [a|e]; simpl; split.
  - eauto.
  - by intros (? & [= ->] & ?).
  - done.
  - by intros (? & ? & ?).
Qed.

Lemma std_Done {A} (r : result A) (a : A) : std r = Done a <-> r = Ok a.
Proof. destruct r; simpl; split; congruence. Qed.

Lemma str_in_spec (x : string) (l : list string) : str_in x l = true <-> x ∈ l.
Proof.
  unfold str_in. rewrite existsb_exists. split.
  - intros (y & Hy & Heq). apply String.eqb_eq in Heq as ->.
    by apply list_elem_of_In.
  - intros Hx. exists x. split; [by apply list_elem_of_In|].
    apply String.eqb_refl.
Qed.

Lemma str_in_false (x : string) (l : list string) : str_in x l = false <-> x ∉ l.
Proof.
  rewrite <- str_in_spec. by destruct (str_in x l).
Qed.

Lemma elem_of_odict_add (x key : string) (d : list string) :
  x ∈ odict_add key d <-> x = key \/ x ∈ d.
Proof.
  unfold odict_add. destruct (str_in key d) eqn:E.
  - apply str_in_spec in E. split; [by right|]. by intros [->|?].
  - rewrite elem_of_app, list_elem_of_singleton. tauto.
Qed.

Lemma odict_add_NoDup (key : string) (d : list string) :
  NoDup d -> NoDup (odict_add key d).
Proof.
  intros Hd. unfold odict_add. destruct (str_in key d) eqn:E; [done|].
  apply str_in_false in E. apply NoDup_app. split; [done|].
  split; [|apply NoDup_singleton].
  intros x Hx ->%list_elem_of_singleton. done.
Qed.

(** The keys of an ordered dict filled from a list: the list without its
    repetitions. *)
Lemma odict_fill (l d : list string) :
  NoDup d ->
  NoDup (foldl (fun d v => odict_add v d) d l) /\
  forall x, x ∈ foldl (fun d v => odict_add v d) d l <-> x ∈ d \/ x ∈ l.
Proof.
  revert d. induction l as [|v l IH]; intros d Hd; simpl.
  { split; [done|]. intros x. rewrite elem_of_nil. tauto. }
  destruct (IH (odict_add v d) (odict_add_NoDup v d Hd)) as [Hnd Hin].
  split; [done|]. intros x. rewrite Hin, elem_of_odict_add, elem_of_cons.
  tauto.
Qed.

Lemma elem_of_concat {A} (x : A) (ls : list (list A)) :
  x ∈ concat ls <-> exists l, x ∈ l /\ l ∈ ls.
Proof.
  induction ls as [|l ls IH]; simpl.
  - split; [by intros ?%elem_of_nil | by intros (? & _ & ?%elem_of_nil)].
  - rewrite elem_of_app, IH. split.
    + intros [Hx | (l' & Hx & Hl')]; [exists l | exists l'];
        (split; [done|]); [by left | by right].
    + intros (l' & Hx & [-> | Hl']%elem_of_cons); [by left | right; eauto].
Qed.

Lemma elem_of_set_difference (x : string) (l known : list string) :
  x ∈ set_difference l known <-> x ∈ l /\ x ∉ known.
Proof.
  unfold set_difference. rewrite list_elem_of_In, filter_In, <- list_elem_of_In.
  by rewrite negb_true_iff, str_in_false.
Qed.

Lemma set_difference_nil (l known : list string) :
  set_difference l known = [] <-> Forall (fun x => x ∈ known) l.
Proof.
  rewrite Forall_forall. split.
  - intros Hnil x Hx. destruct (decide (x ∈ known)) as [|Hout]; [done|].
    assert (x ∈ set_difference l known) as Hin.
    { by apply elem_of_set_difference. }
    rewrite Hnil in Hin. by apply elem_of_nil in Hin.
  - intros Hall. destruct (set_difference l known) as [|x d] eqn:E; [done|].
    assert (x ∈ set_difference l known) as Hin by (rewrite E; by left).
    apply elem_of_set_difference in Hin as [Hx Hout]. by apply Hall in Hx.
Qed.

Section PlotFacts.
Context `{SciPy} `{PyLib}.

Lemma mapM_viruses_item data self l :
  indexed_by data self ->
  Forall (fun s => s ∈ sera self) l ->
  mapM (viruses_item self) l
  = Ok ((fun s => default [] (viruses self !! s)) <$> l).
Proof.
  intros (_ & Hvs & _). induction 1 as [|s l Hs _ IH]; [done|].
  change (mapM (viruses_item self) (s :: l))
    with (viruses_item self s ≫= fun y =>
          mapM (viruses_item self) l ≫= fun k => mret (y :: k)).
  rewrite IH, fmap_cons. unfold viruses_item at 1. specialize (Hvs s).
  rewrite decide_True in Hvs by done. rewrite Hvs. reflexivity.
Qed.

(** The sera that [_sera_viruses_lists] returns are sera of the object. *)
Lemma sera_viruses_lists_Ok self which_sera which_viruses chosen chosen_viruses :
  _sera_viruses_lists self which_sera which_viruses
    = Ok (chosen, chosen_viruses) ->
  Forall (fun s => s ∈ sera self) chosen.
Proof.
  unfold _sera_viruses_lists. intros Hlists.
  apply bind_Ok in Hlists as (ss & Hss & Hlists).
  apply bind_Ok in Hlists as (per & _ & Hlists).
  apply bind_Ok in Hlists as (vs & _ & Hlists).
  injection Hlists as <- _.
  destruct which_sera as [|l].
  - injection Hss as <-. by apply Forall_forall.
  - destruct (set_difference l (sera self)) eqn:E; [|done].
    injection Hss as <-. by apply set_difference_nil.
Qed.

(** X18: [_sera_viruses_lists] on a [CurveFits] in use.  A list of sera is
    accepted when all its names are sera of the object, else the call
    raises [ValueError], naming those that are not; 'all' stands for the
    sera of the object.  A list of viruses is accepted, and returned as
    given, when each of its names is a virus of at least one chosen serum,
    else the call raises [ValueError], naming those that are not; 'all'
    stands for the viruses of the chosen sera, each listed once.  The call
    raises nothing else. *)
Theorem sera_viruses_lists_spec self which_sera which_viruses :
  reachable self ->
  let chosen := match which_sera with All => sera self | Listed l => l end in
  let offered v :=
    exists serum, serum ∈ chosen /\ v ∈ default [] (viruses self !! serum) in
  match _sera_viruses_lists self which_sera which_viruses with
  | Ok (ss, vs) =>
      ss = chosen /\ Forall (fun s => s ∈ sera self) chosen /\
      Forall offered vs /\
      match which_viruses with
      | All => NoDup vs /\ forall v, offered v -> v ∈ vs
      | Listed l => vs = l
      end
  | Raise e =>
      (exists extra,
         extra <> [] /\
         (forall s, s ∈ extra <-> s ∈ chosen /\ s ∉ sera self) /\
         e = ValueError ("unrecognized sera: " +:+ set_str extra)) \/
      (Forall (fun s => s ∈ sera self) chosen /\
       exists l extra,
         which_viruses = Listed l /\ extra <> [] /\
         (forall v, v ∈ extra <-> v ∈ l /\ ~ offered v) /\
         e = ValueError ("unrecognized viruses for specified sera: " +:+
                         set_str extra))
  end.
Proof.
  intros Hreach chosen offered.
  destruct (reachable_indexed self Hreach) as [data Hidx].
  unfold _sera_viruses_lists.
  destruct (decide (Forall (fun s => s ∈ sera self) chosen)) as [Hall|Hnot].
  2:{ destruct which_sera as [|l]; unfold chosen in *.
      { exfalso. apply Hnot. by apply Forall_forall. }
      destruct (set_difference l (sera self)) as [|x d] eqn:E.
      { by apply set_difference_nil in E. }
      simpl. left. exists (x :: d). split; [done|]. split; [|done].
      intros s. rewrite <- E. apply elem_of_set_difference. }
  assert (match which_sera with
          | All => Ok (sera self)
          | Listed l =>
              match set_difference l (sera self) with
              | [] => Ok l
              | extra_sera =>
                  Raise (ValueError ("unrecognized sera: " +:+
                                     set_str extra_sera))
              end
          end = Ok chosen) as ->.
  { destruct which_sera as [|l]; [done|]. unfold chosen in *.
    apply set_difference_nil in Hall. by rewrite Hall. }
  rewrite bind_Ok_l, (mapM_viruses_item data) by done. rewrite bind_Ok_l.
  set (allviruses := foldl _ _ _).
  destruct (odict_fill (concat ((fun s => default [] (viruses self !! s))
                                  <$> chosen)) [] (NoDup_nil_2))
    as [Hnd Hin].
  fold allviruses in Hnd, Hin.
  assert (forall v, v ∈ allviruses <-> offered v) as Hoff.
  { intros v. rewrite Hin, elem_of_nil. unfold offered. split.
    - intros [[]|Hv]. apply elem_of_concat in Hv as (vs & Hv & Hvs).
      apply list_elem_of_fmap in Hvs as (s & -> & Hs). eauto.
    - intros (s & Hs & Hv). right. apply elem_of_concat.
      eexists. split; [exact Hv|].
      by apply (list_elem_of_fmap_2 (fun s => default [] (viruses self !! s))). }
  destruct which_viruses as [|l]; simpl.
  - split; [done|]. split; [done|]. split.
    + apply Forall_forall. intros v. apply Hoff.
    + split; [done|]. intros v. apply Hoff.
  - destruct (set_difference l allviruses) as [|x d] eqn:E; simpl.
    + apply set_difference_nil in E. split; [done|]. split; [done|].
      split; [|done]. eapply Forall_impl; [exact E|]. intros v. apply Hoff.
    + right. split; [done|]. exists l, (x :: d).
      split; [done|]. split; [done|]. split; [|done].
      intros v. rewrite <- E, elem_of_set_difference, Hoff. done.
Qed.

End PlotFacts.

(** *** The grid of [plotReplicates] *)
Lemma grid_key_inj (columns i j : Z) :
  (0 < columns)%Z ->
  (i / columns, i mod columns)%Z = (j / columns, j mod columns)%Z -> i = j.
Proof.
  intros Hpos [= Hd Hm].
  rewrite (Z.div_mod i columns), (Z.div_mod j columns) by lia. congruence.
Qed.

Lemma dict_set_fresh {K V} `{EqDecision K} (key : K) (v : V) (d : list (K * V)) :
  key ∉ d.*1 -> dict_set key v d = d ++ [(key, v)].
Proof.
  induction d as [|[k w] d IH]; simpl; [done|].
  rewrite not_elem_of_cons. intros [Hne Hout].
  rewrite decide_False by done. by rewrite IH.
Qed.

Lemma place_plots_Ok {V} (columns : Z) (k : nat) (l : list V)
    (d : list (Z * Z * V)) :
  (0 < columns)%Z ->
  d.*1 = (fun i => (Z.of_nat i / columns, Z.of_nat i mod columns)%Z) <$> seq 0 k ->
  place_plots columns (Z.of_nat k) l d =
  Ok (d ++ zip ((fun i => (Z.of_nat i / columns, Z.of_nat i mod columns)%Z)
                  <$> seq k (length l)) l).
Proof.
  intros Hpos. revert k d. induction l as [|plot l IH]; intros k d Hd; simpl.
  { by rewrite app_nil_r. }
  destruct (Z.eqb_spec columns 0) as [?|_]; [lia|].
  rewrite dict_set_fresh.
  2:{ rewrite Hd. intros Hin. apply list_elem_of_fmap in Hin as (i & Heq & Hi).
      apply grid_key_inj in Heq; [|done]. apply elem_of_seq in Hi. lia. }
  replace (Z.of_nat k + 1)%Z with (Z.of_nat (S k)) by lia.
  rewrite IH.
  - by rewrite <- app_assoc.
  - rewrite fmap_app, Hd, seq_S, fmap_app. done.
Qed.

Lemma ceil_div_covers (n : nat) (rows : Z) :
  (0 < rows)%Z -> ceil_div n rows <> 0%Z ->
  (0 < ceil_div n rows)%Z /\ (Z.of_nat n <= rows * ceil_div n rows)%Z.
Proof.
  unfold ceil_div. intros Hrows.
  destruct (_ <=? _)%Z; [done|]. intros Hne.
  pose proof (Z.div_mod (Z.of_nat n + rows - 1) rows ltac:(lia)) as Hdm.
  pose proof (Z.mod_pos_bound (Z.of_nat n + rows - 1) rows Hrows) as Hm.
  assert (0 <= (Z.of_nat n + rows - 1) / rows)%Z.
  { apply Z.div_pos; lia. }
  split; lia.
Qed.

Lemma collect_replicates_Ok self pairs acc reps :
  collect_replicates self pairs acc = Ok reps ->
  (NoDup acc -> NoDup reps) /\
  ("average"%string ∈ reps -> "average"%string ∈ acc).
Proof.
  revert acc. induction pairs as [|[serum virus] more IH]; intros acc Hc.
  { injection Hc as <-. by split. }
  simpl in Hc. apply bind_Ok in Hc as (vs & _ & Hc).
  destruct (str_in virus vs); [|by apply IH].
  apply bind_Ok in Hc as (rs & _ & Hc). apply IH in Hc as [Hnd Havg].
  clear IH. revert acc Hnd Havg.
  induction rs as [|r rs IHr]; intros acc Hnd Havg; [by split|].
  simpl in Hnd, Havg. destruct (IHr _ Hnd Havg) as [Hnd' Havg'].
  destruct (negb (String.eqb r "average")) eqn:Hr; [|by split]. split.
  - intros Hacc. by apply Hnd', odict_add_NoDup.
  - intros Hin. apply Havg', elem_of_odict_add in Hin as [Heq|Hin]; [|done].
    apply negb_true_iff, String.eqb_neq in Hr. congruence.
Qed.

Lemma build_curvelist_Ok self serum virus colors markers i reps curvelist :
  build_curvelist self serum virus colors markers i reps = Ok curvelist ->
  Forall (fun cd =>
            cd_serum cd = serum /\ cd_virus cd = virus /\
            cd_label cd = Some (cd_replicate cd) /\
            cd_replicate cd ∈ default [] (replicates self !! (serum, virus)) /\
            exists j, reps !! j = Some (cd_replicate cd) /\
                      colors !! (i + j) = Some (cd_color cd) /\
                      markers !! (i + j) = Some (cd_marker cd))
         curvelist.
Proof.
  revert i curvelist. induction reps as [|r more IH]; intros i curvelist Hb.
  { injection Hb as <-. constructor. }
  simpl in Hb. apply bind_Ok in Hb as (rs & Hrs & Hb).
  assert (forall cl,
            build_curvelist self serum virus colors markers (S i) more = Ok cl ->
            Forall (fun cd =>
                      cd_serum cd = serum /\ cd_virus cd = virus /\
                      cd_label cd = Some (cd_replicate cd) /\
                      cd_replicate cd
                        ∈ default [] (replicates self !! (serum, virus)) /\
                      exists j, (r :: more) !! j = Some (cd_replicate cd) /\
                                colors !! (i + j) = Some (cd_color cd) /\
                                markers !! (i + j) = Some (cd_marker cd)) cl)
    as Hrest.
  { intros cl Hcl. eapply Forall_impl; [by apply IH|].
    intros cd (? & ? & ? & ? & j & ? & ? & ?). repeat split; try done.
    exists (S j). by rewrite <- !Nat.add_succ_comm. }
  destruct (str_in r rs) eqn:Hin; [|by apply Hrest].
  apply bind_Ok in Hb as (color & Hcolor & Hb).
  apply bind_Ok in Hb as (marker & Hmarker & Hb).
  apply bind_Ok in Hb as (rest & Hr & Hb). injection Hb as <-.
  constructor; [|by apply Hrest]. simpl.
  unfold replicates_item in Hrs.
  destruct (replicates self !! (serum, virus)) as [rs'|]; [|done].
  injection Hrs as ->. apply str_in_spec in Hin.
  apply item_at_Ok in Hcolor, Hmarker.
  repeat split; try done. exists 0. by rewrite Nat.add_0_r.
Qed.

Section PlotReplicatesFacts.
Context `{PyLib}.

Lemma build_plotlist_Done self titles colors markers reps pairs plotlist :
  build_plotlist self titles colors markers reps pairs = Done plotlist ->
  Forall (fun plot =>
            plot.2 <> [] /\
            exists serum virus,
              (serum, virus) ∈ pairs /\
              virus ∈ default [] (viruses self !! serum) /\
              str_format titles serum virus = Done plot.1 /\
              build_curvelist self serum virus colors markers 0 reps
                = Ok plot.2)
         plotlist.
Proof.
  revert plotlist. induction pairs as [|[serum virus] more IH];
    intros plotlist Hb.
  { injection Hb as <-. constructor. }
  simpl in Hb. apply outcome_bind_Done in Hb as (vs & Hvs & Hb).
  apply std_Done in Hvs.
  assert (forall pl,
            build_plotlist self titles colors markers reps more = Done pl ->
            Forall (fun plot =>
                      plot.2 <> [] /\
                      exists s v,
                        (s, v) ∈ (serum, virus) :: more /\
                        v ∈ default [] (viruses self !! s) /\
                        str_format titles s v = Done plot.1 /\
                        build_curvelist self s v colors markers 0 reps
                          = Ok plot.2) pl) as Hrest.
  { intros pl Hpl. eapply Forall_impl; [by apply IH|].
    intros plot (? & s & v & ? & ? & ? & ?). split; [done|].
    exists s, v. repeat split; try done. by right. }
  destruct (str_in virus vs) eqn:Hin; [|by apply Hrest].
  apply outcome_bind_Done in Hb as (title & Htitle & Hb).
  apply outcome_bind_Done in Hb as (curvelist & Hcl & Hb).
  apply std_Done in Hcl.
  apply outcome_bind_Done in Hb as (rest & Hr & Hb). injection Hb as <-.
  destruct curvelist as [|cd curvelist]; [by apply Hrest|].
  constructor; [|by apply Hrest]. simpl. split; [done|].
  exists serum, virus. repeat split; try done; [by left|].
  unfold viruses_item in Hvs.
  destruct (viruses self !! serum) as [vs'|]; [|done].
  injection Hvs as ->. by apply str_in_spec.
Qed.

(** What a call of [plotReplicates] went through when it gets to its last
    statement. *)
Lemma plotReplicates_plots_Done self ncol nrow which_sera which_viruses colors
    markers titles show_average plots :
  plotReplicates_plots self ncol nrow which_sera which_viruses colors markers
    titles show_average = Done plots ->
  exists chosen chosen_viruses reps plotlist columns,
    _sera_viruses_lists self which_sera which_viruses
      = Ok (chosen, chosen_viruses) /\
    collect_replicates self (product chosen chosen_viruses)
      (if show_average then ["average"%string] else []) = Ok reps /\
    build_plotlist self titles colors markers reps
      (product chosen chosen_viruses) = Done plotlist /\
    plotlist <> [] /\
    grid_columns (length plotlist) nrow ncol = Ok columns /\
    place_plots columns 0 plotlist [] = Ok plots.
Proof.
  unfold plotReplicates_plots. intros Hp.
  apply outcome_bind_Done in Hp as (t & _ & Hp).
  apply outcome_bind_Done in Hp as ([chosen cv] & Hlists & Hp).
  apply std_Done in Hlists.
  apply outcome_bind_Done in Hp as (reps & Hreps & Hp).
  apply std_Done in Hreps.
  destruct (decide _); [done|].
  apply outcome_bind_Done in Hp as (plotlist & Hpl & Hp).
  destruct plotlist as [|plot plotlist]; [done|].
  apply outcome_bind_Done in Hp as (columns & Hcols & Hp).
  apply std_Done in Hcols, Hp.
  by exists chosen, cv, reps, (plot :: plotlist), columns.
Qed.

(** X19: the grid of [plotReplicates].  When the call gets to hand its
    plots to [plotGrid], exactly one of [nrow] and [ncol] was given and it
    was positive; there is at least one plot; with [columns] the given
    [ncol], or [math.ceil(len(plots) / nrow)], the plots fill the grid row
    by row, the plot of index [i] at row [i // columns] and column
    [i % columns], no two at the same place; and with [nrow] given, every
    row index is below [nrow]. *)
Theorem plotReplicates_grid self ncol nrow which_sera which_viruses colors
    markers titles show_average plots :
  plotReplicates_plots self ncol nrow which_sera which_viruses colors markers
    titles show_average = Done plots ->
  plots <> [] /\
  exists columns : Z,
    (0 < columns)%Z /\
    ((nrow = None /\ ncol = Some columns) \/
     (ncol = None /\ exists rows, nrow = Some rows /\ (0 < rows)%Z /\
                                  columns = ceil_div (length plots) rows)) /\
    plots.*1 = (fun i => (Z.of_nat i / columns, Z.of_nat i mod columns)%Z)
                 <$> seq 0 (length plots) /\
    NoDup plots.*1 /\
    (forall rows, nrow = Some rows ->
       Forall (fun p => (0 <= p.1 < rows)%Z) plots.*1).
Proof.
  intros Hp. apply plotReplicates_plots_Done in Hp
    as (chosen & cv & reps & plotlist & columns & _ & _ & _ & Hne & Hcols & Hp).
  assert (columns <> 0%Z) as Hnz.
  { intros ->. by destruct plotlist. }
  assert (0 < columns)%Z as Hpos.
  { unfold grid_columns in Hcols.
    destruct nrow as [rows|], ncol as [c|]; try done.
    - destruct (Z.ltb_spec 0 rows); [|done]. injection Hcols as <-.
      by apply ceil_div_covers.
    - destruct (Z.ltb_spec 0 c); [|done]. by injection Hcols as <-. }
  change 0%Z with (Z.of_nat 0) in Hp.
  rewrite (place_plots_Ok columns 0 plotlist []) in Hp by done.
  injection Hp as <-. simpl.
  set (key := fun i => (Z.of_nat i / columns, Z.of_nat i mod columns)%Z).
  assert (length (zip (key <$> seq 0 (length plotlist)) plotlist)
          = length plotlist) as Hlen.
  { rewrite length_zip_with, length_fmap, length_seq. lia. }
  assert ((zip (key <$> seq 0 (length plotlist)) plotlist).*1
          = key <$> seq 0 (length plotlist)) as Hkeys.
  { apply fst_zip. rewrite length_fmap, length_seq. lia. }
  split.
  { intros Hnil. rewrite Hnil in Hlen. by destruct plotlist. }
  exists columns. split; [done|]. rewrite Hlen, Hkeys.
  split; [|split; [done|split]].
  - unfold grid_columns in Hcols.
    destruct nrow as [rows|], ncol as [c|]; try done.
    + right. destruct (Z.ltb_spec 0 rows); [|done]. injection Hcols as <-.
      split; [done|]. by exists rows.
    + left. destruct (Z.ltb_spec 0 c); [|done]. by injection Hcols as <-.
  - apply NoDup_fmap_2_strong; [|apply NoDup_seq].
    intros i j _ _ Heq. apply grid_key_inj in Heq; [lia | done].
  - intros rows ->. unfold grid_columns in Hcols.
    destruct ncol as [c|]; [done|].
    destruct (Z.ltb_spec 0 rows) as [Hrows|]; [|done].
    injection Hcols as Hcols.
    destruct (ceil_div_covers (length plotlist) rows Hrows) as [_ Hcover];
      [congruence|].
    rewrite Hcols in Hcover. rewrite Forall_fmap. apply Forall_forall.
    intros i Hi%elem_of_seq. unfold key. simpl. split.
    + apply Z.div_pos; lia.
    + apply Z.div_lt_upper_bound; [done|]. lia.
Qed.

(** X20: the curves of [plotReplicates].  Every plot that the call hands to
    [plotGrid] has at least one curve and the title made of its serum and
    virus; each of its curves is a replicate of that serum and virus, hence
    a key of the object, labelled by the name of the replicate, and is the
    average only if [show_average] is set; and a replicate has the same
    color and the same marker in every plot. *)
Theorem plotReplicates_curves self ncol nrow which_sera which_viruses colors
    markers titles show_average plots :
  plotReplicates_plots self ncol nrow which_sera which_viruses colors markers
    titles show_average = Done plots ->
  Forall (fun plot =>
            plot.2 <> [] /\
            exists serum virus,
              str_format titles serum virus = Done plot.1 /\
              Forall (fun cd =>
                        cd_serum cd = serum /\ cd_virus cd = virus /\
                        cd_label cd = Some (cd_replicate cd) /\
                        (serum, virus, cd_replicate cd) ∈ all_keys self /\
                        (show_average = false ->
                         cd_replicate cd <> "average"%string))
                     plot.2)
         plots.*2 /\
  (forall plot1 plot2 cd1 cd2,
     plot1 ∈ plots.*2 -> plot2 ∈ plots.*2 ->
     cd1 ∈ plot1.2 -> cd2 ∈ plot2.2 ->
     cd_replicate cd1 = cd_replicate cd2 ->
     cd_color cd1 = cd_color cd2 /\ cd_marker cd1 = cd_marker cd2).
Proof.
  intros Hp. apply plotReplicates_plots_Done in Hp
    as (chosen & cv & reps & plotlist & columns & Hlists & Hreps & Hpl & Hne
        & Hcols & Hp).
  assert (columns <> 0%Z) as Hnz.
  { intros ->. by destruct plotlist. }
  assert (0 < columns)%Z as Hpos.
  { unfold grid_columns in Hcols.
    destruct nrow as [rows|], ncol as [c|]; try done.
    - destruct (Z.ltb_spec 0 rows); [|done]. injection Hcols as <-.
      by apply ceil_div_covers.
    - destruct (Z.ltb_spec 0 c); [|done]. by injection Hcols as <-. }
  change 0%Z with (Z.of_nat 0) in Hp.
  rewrite (place_plots_Ok columns 0 plotlist []) in Hp by done.
  injection Hp as <-. simpl.
  rewrite snd_zip by (rewrite length_fmap, length_seq; lia).
  pose proof (sera_viruses_lists_Ok _ _ _ _ _ Hlists) as Hchosen.
  apply collect_replicates_Ok in Hreps as [Hnd Havg].
  assert (NoDup reps) as Hnodup.
  { apply Hnd. destruct show_average; [apply NoDup_singleton | constructor]. }
  apply build_plotlist_Done in Hpl.
  rewrite Forall_forall in Hpl. split.
  - apply Forall_forall. intros plot Hplot.
    destruct (Hpl plot Hplot) as (Hcl & serum & virus & Hpair & Hv & Ht & Hb).
    split; [done|]. exists serum, virus. split; [done|].
    apply build_curvelist_Ok in Hb.
    eapply Forall_impl; [exact Hb|].
    intros cd (? & ? & ? & Hr & j & Hj & _). repeat split; try done.
    + apply elem_of_all_keys. split; [|done].
      unfold product in Hpair.
      apply list_elem_of_bind in Hpair as (s & Hpair & Hs).
      apply list_elem_of_bind in Hpair as (v & Hpair & _).
      apply list_elem_of_singleton in Hpair as [= -> ->].
      rewrite Forall_forall in Hchosen. by apply Hchosen.
    + intros -> Heq. apply list_elem_of_lookup_2 in Hj. rewrite Heq in Hj.
      apply Havg in Hj. by apply elem_of_nil in Hj.
  - intros plot1 plot2 cd1 cd2 Hplot1 Hplot2 Hcd1 Hcd2 Heq.
    destruct (Hpl plot1 Hplot1) as (_ & s1 & v1 & _ & _ & _ & Hb1).
    destruct (Hpl plot2 Hplot2) as (_ & s2 & v2 & _ & _ & _ & Hb2).
    apply build_curvelist_Ok in Hb1, Hb2.
    rewrite Forall_forall in Hb1, Hb2.
    destruct (Hb1 cd1 Hcd1) as (_ & _ & _ & _ & j1 & Hj1 & Hc1 & Hm1).
    destruct (Hb2 cd2 Hcd2) as (_ & _ & _ & _ & j2 & Hj2 & Hc2 & Hm2).
    rewrite Heq in Hj1.
    assert (j1 = j2) as -> by (by eapply NoDup_lookup).
    simpl in *. split; congruence.
Qed.

End PlotReplicatesFacts.

(** ** [plotGrid] *)
Lemma pbind_Done {A B} (m : plotting A) (f : A -> plotting B) self b self' :
  pbind m f self = (Done b, self') <->
  exists a self1, m self = (Done a, self1) /\ f a self1 = (Done b, self').
Proof.
  unfold pbind. destruct (m self) as [[a|e] self1]; split.
  - eauto.
  - by intros (? & ? & [= -> ->] & ?).
  - done.
  - by intros (? & ? & ? & ?).
Qed.

Section PlotGridFacts.
Context `{SciPy} `{PyLib}.

Lemma call_getCurve_Done serum virus replicate self curve self' :
  call (getCurve serum virus replicate) self = (Done curve, self') <->
  getCurve serum virus replicate self = (Ok curve, self').
Proof.
  unfold call. destruct (getCurve serum virus replicate self) as [[c|e] s1];
    simpl; split; congruence.
Qed.

Lemma fit_curvelist_Done fix_lims curvelist lims self fitted lims' self' :
  cache_ok self ->
  fit_curvelist fix_lims curvelist lims self = (Done (fitted, lims'), self') ->
  fitted.*1 = curvelist /\
  lims' = foldl (widen fix_lims) lims (obj <$> fitted.*2) /\
  steps self self' /\
  Forall (fun p => _hillcurves self' !! (cd_serum p.1, cd_virus p.1,
                                         cd_replicate p.1) = Some p.2) fitted.
Proof.
  revert lims self fitted lims'.
  induction curvelist as [|cd more IH]; intros lims self fitted lims' Hok Hfit.
  { injection Hfit as <- <- <-. repeat split; [constructor | constructor]. }
  simpl in Hfit. apply pbind_Done in Hfit as (curve & self1 & Hget & Hfit).
  apply call_getCurve_Done in Hget.
  apply pbind_Done in Hfit as (lims1 & self1' & Hlims & Hfit).
  unfold plift in Hlims.
  destruct (update_lims fix_lims lims (obj curve)) as [l1|e] eqn:Hup;
    simpl in Hlims; [|done].
  injection Hlims as <- <-.
  apply pbind_Done in Hfit as ([rest lims2] & self2 & Hrest & Hfit).
  injection Hfit as <- <- <-. cbn [fst snd].
  destruct (getCurve_sound (cd_serum cd) (cd_virus cd) (cd_replicate cd) self Hok)
    as [Hok1 _].
  rewrite Hget in Hok1. simpl in Hok1.
  pose proof (IH _ _ _ _ Hok1 Hrest) as (Hcds & Hlims & Hsteps & Hcached).
  rewrite !fmap_cons. cbn [fst snd].
  split; [by rewrite Hcds|]. split.
  { rewrite Hlims. cbn [foldl].
    assert (widen fix_lims lims (obj curve) = l1) as ->; [|done].
    unfold widen. by rewrite Hup. }
  assert (steps self self1) as Hstep1.
  { replace self1 with (getCurve (cd_serum cd) (cd_virus cd)
                          (cd_replicate cd) self).2 by (by rewrite Hget).
    constructor. constructor. }
  split; [by eapply steps_trans|].
  constructor; [|done]. simpl.
  apply getCurve_cached in Hget.
  destruct (steps_sound _ _ Hsteps Hok1) as [_ (_ & Hcache & _)].
  by apply Hcache.
Qed.

Lemma fit_plots_Done fix_lims plots nr nc lims self fitted nr' nc' lims' self' :
  cache_ok self ->
  fit_plots fix_lims plots nr nc lims self
    = (Done (fitted, (nr', nc', lims')), self') ->
  bare <$> fitted = plots /\
  Forall (fun p => (0 <= p.1.1)%Z /\ (0 <= p.1.2)%Z) plots /\
  nr' = foldl grow nr ((fun p => p.1.1) <$> plots) /\
  nc' = foldl grow nc ((fun p => p.1.2) <$> plots) /\
  lims' = foldl (widen fix_lims) lims (obj <$> all_curves fitted) /\
  steps self self' /\
  Forall (fun p =>
            Forall (fun cdo =>
                      _hillcurves self' !! (cd_serum cdo.1, cd_virus cdo.1,
                                            cd_replicate cdo.1) = Some cdo.2)
                   p.2.2) fitted.
Proof.
  revert nr nc lims self fitted nr' nc' lims'.
  induction plots as [|[[irow icol] [title curvelist]] more IH];
    intros nr nc lims self fitted nr' nc' lims' Hok Hfit.
  { injection Hfit as <- <- <- <- <-.
    repeat split; [constructor | constructor | constructor]. }
  simpl in Hfit.
  destruct (Z.ltb_spec irow 0) as [?|Hirow]; [done|].
  destruct (Z.ltb_spec icol 0) as [?|Hicol]; [done|].
  apply pbind_Done in Hfit as ([cl lims1] & self1 & Hcl & Hfit).
  apply pbind_Done in Hfit as ([rest [[nr2 nc2] lims2]] & self2 & Hrest & Hfit).
  injection Hfit as <- <- <- <- <-. cbn [fst snd] in *.
  apply fit_curvelist_Done in Hcl as (Hcds & Hlims1 & Hsteps1 & Hcached1);
    [|done].
  assert (cache_ok self1) as Hok1 by (by apply (steps_sound _ _ Hsteps1)).
  apply IH in Hrest as (Hbare & Hpos & Hnr & Hnc & Hlims2 & Hsteps2 & Hcached2);
    [|done].
  rewrite !fmap_cons. cbn [fst snd].
  split; [unfold bare at 1; cbn [fst snd]; by rewrite Hcds, Hbare|].
  split; [by constructor|]. split; [done|]. split; [done|]. split.
  { unfold all_curves. rewrite fmap_cons. cbn [concat fst snd].
    rewrite fmap_app, foldl_app. by rewrite <- Hlims1. }
  split; [by eapply steps_trans|].
  constructor; [|done]. cbn [fst snd].
  destruct (steps_sound _ _ Hsteps2 Hok1) as [_ (_ & Hcache & _)].
  eapply Forall_impl; [exact Hcached1|]. intros cdo. apply Hcache.
Qed.

End PlotGridFacts.

(** *** The size of the grid *)
Lemma foldl_grow_Some (a : Z) (l : list Z) :
  exists r, foldl grow (Some a) l = Some r /\ (a <= r)%Z /\
            Forall (fun i => (i < r)%Z) l /\
            (r = a \/ exists i, i ∈ l /\ r = (i + 1)%Z).
Proof.
  revert a. induction l as [|i l IH]; intros a; simpl.
  { exists a. repeat split; [lia | constructor | by left]. }
  destruct (IH (Z.max a (i + 1))) as (r & Hr & Hle & Hall & Hor).
  exists r. split; [done|]. split; [lia|]. split.
  - constructor; [lia | done].
  - destruct Hor as [->|(j & Hj & ->)].
    + destruct (Z.max_spec a (i + 1)) as [[_ ->]|[_ ->]].
      * right. exists i. split; [by left | done].
      * by left.
    + right. exists j. split; [by right | done].
Qed.

Lemma foldl_grow_None (l : list Z) :
  l <> [] ->
  exists r, foldl grow None l = Some r /\
            Forall (fun i => (i < r)%Z) l /\
            exists i, i ∈ l /\ r = (i + 1)%Z.
Proof.
  destruct l as [|i l]; [done|]. intros _. simpl.
  destruct (foldl_grow_Some (i + 1) l) as (r & Hr & Hle & Hall & Hor).
  exists r. split; [done|]. split.
  - constructor; [lia | done].
  - destruct Hor as [->|(j & Hj & ->)].
    + exists i. split; [by left | done].
    + exists j. split; [by right | done].
Qed.

(** *** The limits along the curves *)
Lemma least_no_nan m l : least m l -> is_nan m = false.
Proof.
  intros [Hin Hall]. rewrite Forall_forall in Hall.
  specialize (Hall m Hin). by apply F_le_no_nan in Hall as [? _].
Qed.

Lemma greatest_no_nan m l : greatest m l -> is_nan m = false.
Proof.
  intros [Hin Hall]. rewrite Forall_forall in Hall.
  specialize (Hall m Hin). by apply F_le_no_nan in Hall as [? _].
Qed.

Lemma F_lt_false_le x y :
  is_nan x = false -> is_nan y = false -> F.lt x y = false -> F.le y x = true.
Proof.
  intros Hx Hy Hlt. destruct (F.le y x) eqn:Hle; [done|].
  by rewrite (F_le_total y x Hy Hx Hle) in Hlt.
Qed.

Lemma py_min2_least a b la lb :
  least a la -> least b lb -> least (py_min2 a b) (la ++ lb).
Proof.
  intros Ha Hb. pose proof (least_no_nan _ _ Ha) as Hna.
  pose proof (least_no_nan _ _ Hb) as Hnb.
  destruct Ha as [Hina Halla], Hb as [Hinb Hallb]. unfold py_min2.
  destruct (F.lt b a) eqn:Hlt; split.
  - apply elem_of_app. by right.
  - apply Forall_app. split; [|done].
    eapply Forall_impl; [exact Halla|]. intros x Hx. simpl in *.
    eapply F_le_trans; [by apply F_lt_le | done].
  - apply elem_of_app. by left.
  - apply Forall_app. split; [done|].
    eapply Forall_impl; [exact Hallb|]. intros x Hx. simpl in *.
    eapply F_le_trans; [|exact Hx]. by apply F_lt_false_le.
Qed.

Lemma py_max2_greatest a b la lb :
  greatest a la -> greatest b lb -> greatest (py_max2 a b) (la ++ lb).
Proof.
  intros Ha Hb. pose proof (greatest_no_nan _ _ Ha) as Hna.
  pose proof (greatest_no_nan _ _ Hb) as Hnb.
  destruct Ha as [Hina Halla], Hb as [Hinb Hallb]. unfold py_max2.
  change (F.gt b a) with (F.lt a b). destruct (F.lt a b) eqn:Hlt; split.
  - apply elem_of_app. by right.
  - apply Forall_app. split; [|done].
    eapply Forall_impl; [exact Halla|]. intros x Hx. simpl in *.
    eapply F_le_trans; [exact Hx | by apply F_lt_le].
  - apply elem_of_app. by left.
  - apply Forall_app. split; [done|].
    eapply Forall_impl; [exact Hallb|]. intros x Hx. simpl in *.
    eapply F_le_trans; [exact Hx|]. by apply F_lt_false_le.
Qed.

Lemma least_singleton x : is_nan x = false -> least x [x].
Proof.
  intros Hx. split; [by left|]. constructor; [by apply F_le_refl | constructor].
Qed.

Lemma greatest_singleton x : is_nan x = false -> greatest x [x].
Proof.
  intros Hx. split; [by left|]. constructor; [by apply F_le_refl | constructor].
Qed.

Lemma foldl_py_min2_least acc seen l :
  least acc seen -> no_nan l -> least (foldl py_min2 acc l) (seen ++ l).
Proof.
  intros Hacc Hnan. revert acc seen Hacc.
  induction Hnan as [|y l Hy _ IH]; intros acc seen Hacc; simpl.
  { by rewrite app_nil_r. }
  replace (seen ++ y :: l) with ((seen ++ [y]) ++ l)
    by (by rewrite <- app_assoc).
  apply IH. apply py_min2_least; [done | by apply least_singleton].
Qed.

Lemma py_min_least l :
  l <> [] -> no_nan l -> exists m, py_min l = Ok m /\ least m l.
Proof.
  destruct l as [|x l]; [done|]. intros _ Hnan. simpl.
  eexists. split; [done|].
  apply Forall_cons in Hnan as [Hx Hnan].
  apply (foldl_py_min2_least x [x] l); [by apply least_singleton | done].
Qed.

Lemma foldl_py_max2_greatest acc seen l :
  greatest acc seen -> no_nan l -> greatest (foldl py_max2 acc l) (seen ++ l).
Proof.
  intros Hacc Hnan. revert acc seen Hacc.
  induction Hnan as [|y l Hy _ IH]; intros acc seen Hacc; simpl.
  { by rewrite app_nil_r. }
  replace (seen ++ y :: l) with ((seen ++ [y]) ++ l)
    by (by rewrite <- app_assoc).
  apply IH. apply py_max2_greatest; [done | by apply greatest_singleton].
Qed.

Lemma py_max_greatest l :
  l <> [] -> no_nan l -> exists m, py_max l = Ok m /\ greatest m l.
Proof.
  destruct l as [|x l]; [done|]. intros _ Hnan. simpl.
  eexists. split; [done|].
  apply Forall_cons in Hnan as [Hx Hnan].
  apply (foldl_py_max2_greatest x [x] l); [by apply greatest_singleton | done].
Qed.

Section LimitFacts.
Context `{SciPy}.

Lemma update_lims_Ok fix_lims lims c :
  fitted c ->
  exists x0 x1 y0 y1,
    least x0 (cs c) /\ greatest x1 (cs c) /\
    update_lims fix_lims lims c =
      Ok {| xmin := update_lim (xmin fix_lims) (xmin lims) py_min2 x0;
            xmax := update_lim (xmax fix_lims) (xmax lims) py_max2 x1;
            ymin := update_lim (ymin fix_lims) (ymin lims) py_min2 y0;
            ymax := update_lim (ymax fix_lims) (ymax lims) py_max2 y1 |}.
Proof.
  intros Hc. pose proof (fitted_cs_nonempty c Hc) as Hne.
  pose proof (fitted_cs_no_nan c Hc) as Hnan.
  destruct (fitted_lengths c Hc) as [Hlen _].
  destruct (py_min_least _ Hne Hnan) as (x0 & Hx0 & Hl).
  destruct (py_max_greatest _ Hne Hnan) as (x1 & Hx1 & Hg).
  unfold update_lims. rewrite Hx0, Hx1. simpl.
  destruct (fs c) as [|f fs'] eqn:Hfs.
  { destruct (cs c); [done | simpl in Hlen; lia]. }
  simpl. by eexists x0, x1, _, _.
Qed.

Lemma widen_xmin fix_lims lims c seen :
  fitted c -> xmin fix_lims = None ->
  opt_least (xmin lims) seen ->
  is_Some (xmin (widen fix_lims lims c)) /\
  opt_least (xmin (widen fix_lims lims c)) (seen ++ cs c).
Proof.
  intros Hc Hfix Hseen.
  destruct (update_lims_Ok fix_lims lims c Hc)
    as (x0 & x1 & y0 & y1 & Hl & _ & Hup).
  unfold widen. rewrite Hup. simpl. unfold update_lim. rewrite Hfix. simpl.
  destruct (xmin lims) as [m|]; simpl in *.
  - split; [by eexists|]. by apply py_min2_least.
  - split; [by eexists|]. by rewrite Hseen.
Qed.

Lemma widen_xmax fix_lims lims c seen :
  fitted c -> xmax fix_lims = None ->
  opt_greatest (xmax lims) seen ->
  is_Some (xmax (widen fix_lims lims c)) /\
  opt_greatest (xmax (widen fix_lims lims c)) (seen ++ cs c).
Proof.
  intros Hc Hfix Hseen.
  destruct (update_lims_Ok fix_lims lims c Hc)
    as (x0 & x1 & y0 & y1 & _ & Hg & Hup).
  unfold widen. rewrite Hup. simpl. unfold update_lim. rewrite Hfix. simpl.
  destruct (xmax lims) as [m|]; simpl in *.
  - split; [by eexists|]. by apply py_max2_greatest.
  - split; [by eexists|]. by rewrite Hseen.
Qed.

Lemma foldl_widen_xmin fix_lims lims curves seen :
  Forall fitted curves -> xmin fix_lims = None ->
  opt_least (xmin lims) seen ->
  opt_least (xmin (foldl (widen fix_lims) lims curves))
            (seen ++ concat (cs <$> curves)).
Proof.
  intros Hall Hfix. revert lims seen.
  induction Hall as [|c curves Hc _ IH]; intros lims seen Hseen; simpl.
  { by rewrite app_nil_r. }
  rewrite app_assoc. apply IH. by apply widen_xmin.
Qed.

Lemma foldl_widen_xmax fix_lims lims curves seen :
  Forall fitted curves -> xmax fix_lims = None ->
  opt_greatest (xmax lims) seen ->
  opt_greatest (xmax (foldl (widen fix_lims) lims curves))
               (seen ++ concat (cs <$> curves)).
Proof.
  intros Hall Hfix. revert lims seen.
  induction Hall as [|c curves Hc _ IH]; intros lims seen Hseen; simpl.
  { by rewrite app_nil_r. }
  rewrite app_assoc. apply IH. by apply widen_xmax.
Qed.

(** A limit that [fix_lims] sets stays as it is on entry to the loop. *)
Lemma foldl_widen_fixed fix_lims lims curves :
  (is_Some (xmin fix_lims) ->
   xmin (foldl (widen fix_lims) lims curves) = xmin lims) /\
  (is_Some (xmax fix_lims) ->
   xmax (foldl (widen fix_lims) lims curves) = xmax lims) /\
  (is_Some (ymin fix_lims) ->
   ymin (foldl (widen fix_lims) lims curves) = ymin lims) /\
  (is_Some (ymax fix_lims) ->
   ymax (foldl (widen fix_lims) lims curves) = ymax lims).
Proof.
  revert lims. induction curves as [|c curves IH]; intros lims; [done|].
  simpl. destruct (IH (widen fix_lims lims c)) as (IH1 & IH2 & IH3 & IH4).
  assert (forall (fixed current : option float) f v,
            is_Some fixed -> update_lim fixed current f v = current) as Hkeep.
  { intros fixed current f v [x ->]. done. }
  unfold widen in *.
  destruct (update_lims fix_lims lims c) as [l1|e] eqn:Hup; [|done].
  unfold update_lims in Hup.
  apply bind_Ok in Hup as (x0 & _ & Hup). apply bind_Ok in Hup as (x1 & _ & Hup).
  apply bind_Ok in Hup as (y0 & _ & Hup). apply bind_Ok in Hup as (y1 & _ & Hup).
  injection Hup as <-.
  repeat split; intros Hfix;
    [rewrite (IH1 Hfix) | rewrite (IH2 Hfix) | rewrite (IH3 Hfix)
     | rewrite (IH4 Hfix)]; simpl; by apply Hkeep.
Qed.

End LimitFacts.

Section PlotGridLayoutFacts.
Context `{SciPy} `{PyLib}.

Lemma plotGrid_layout_Done plots fix_lims bound_ymin bound_ymax extend_lim
    self lay self' :
  cache_ok self ->
  plotGrid_layout plots fix_lims bound_ymin bound_ymax extend_lim self
    = (Done lay, self') ->
  let lims0 := {| xmin := xmin fix_lims; xmax := xmax fix_lims;
                  ymin := match bound_ymin with
                          | Some b => Some b
                          | None => ymin fix_lims
                          end;
                  ymax := match bound_ymax with
                          | Some b => Some b
                          | None => ymax fix_lims
                          end |} in
  let lims := foldl (widen fix_lims) lims0 (obj <$> all_curves (curves lay)) in
  plots <> [] /\
  bare <$> curves lay = plots /\
  Forall (fun p => (0 <= p.1.1)%Z /\ (0 <= p.1.2)%Z) plots /\
  nrows lay = foldl grow None ((fun p => p.1.1) <$> plots) /\
  ncols lay = foldl grow None ((fun p => p.1.2) <$> plots) /\
  extend_lims fix_lims lims extend_lim = Done (xlim lay, ylim lay) /\
  steps self self' /\
  Forall (fun p =>
            Forall (fun cdo =>
                      _hillcurves self' !! (cd_serum cdo.1, cd_virus cdo.1,
                                            cd_replicate cdo.1) = Some cdo.2)
                   p.2.2) (curves lay).
Proof.
  intros Hok Hlay. unfold plotGrid_layout in Hlay.
  destruct plots as [|p plots]; [done|].
  apply pbind_Done in Hlay as ([fitted [[nr nc] lims1]] & self1 & Hfit & Hlay).
  apply pbind_Done in Hlay as ([xl yl] & self2 & Hext & Hlay).
  injection Hlay as <- <-. cbn [fst snd] in *. unfold plift in Hext.
  injection Hext as Hext <-.
  apply fit_plots_Done in Hfit
    as (Hbare & Hpos & Hnr & Hnc & Hlims & Hsteps & Hcached); [|done].
  simpl. rewrite <- Hlims. by repeat split.
Qed.

Lemma layout_curves_fitted (self : CurveFits)
    (fitted_plots : list (Z * Z * (option string * list (curvedict * object)))) :
  cache_ok self ->
  Forall (fun p =>
            Forall (fun cdo =>
                      _hillcurves self !! (cd_serum cdo.1, cd_virus cdo.1,
                                           cd_replicate cdo.1) = Some cdo.2)
                   p.2.2) fitted_plots ->
  Forall fitted (obj <$> all_curves fitted_plots).
Proof.
  intros [Hcache _] Hall. rewrite Forall_fmap. unfold all_curves.
  apply Forall_forall. intros o Ho.
  apply elem_of_concat in Ho as (l & Ho & Hl).
  apply list_elem_of_fmap in Hl as (p & -> & Hp).
  apply list_elem_of_fmap in Ho as (cdo & -> & Hcdo).
  rewrite Forall_forall in Hall. specialize (Hall p Hp).
  rewrite Forall_forall in Hall. specialize (Hall cdo Hcdo).
  apply Hcache in Hall as (_ & cs1 & fs1 & e1 & _ & Hinit).
  simpl. by repeat eexists.
Qed.

End PlotGridLayoutFacts.

Section ExtendFacts.
Context `{PyLib}.

Lemma math_log_Done x r :
  math_log x = Done r -> F.le x 0 = false /\ r = libm_log x.
Proof. unfold math_log. destruct (F.le x 0); [done|]. by intros [= <-]. Qed.

Lemma math_exp_Done x r : math_exp x = Done r -> r = libm_exp x.
Proof.
  unfold math_exp. destruct (is_infinity (libm_exp x) && is_finite x); [done|].
  by intros [= <-].
Qed.

Lemma extend_lims_Done fix_lims lims extend_lim xl yl :
  extend_lims fix_lims lims extend_lim = Done (xl, yl) ->
  exists x0 x1 y0 y1,
    xmin lims = Some x0 /\ xmax lims = Some x1 /\
    ymin lims = Some y0 /\ ymax lims = Some y1 /\
    F.le x0 0 = false /\ F.le x1 0 = false /\
    F.le (y1 - y0) 0 = false /\
    F.le (libm_log x1 - libm_log x0) 0 = false /\
    yl = (if has_key (ymin fix_lims) then y0
          else (y0 - (y1 - y0) * extend_lim)%float,
          if has_key (ymax fix_lims) then y1
          else (y1 + (y1 - y0) * extend_lim)%float) /\
    xl = (if has_key (xmin fix_lims) then x0
          else libm_exp (libm_log x0
                         - (libm_log x1 - libm_log x0) * extend_lim),
          if has_key (xmax fix_lims) then x1
          else libm_exp (libm_log x1
                         + (libm_log x1 - libm_log x0) * extend_lim)).
Proof.
  unfold extend_lims. intros Hext.
  destruct (xmin lims) as [x0|]; [|done]. simpl in Hext.
  destruct (F.le x0 0) eqn:Hx0; [done|].
  destruct (ymax lims) as [y1|]; [|done]. simpl in Hext.
  destruct (ymin lims) as [y0|]; [|done]. simpl in Hext.
  destruct (F.le (y1 - y0) 0) eqn:Hy; [done|].
  destruct (xmax lims) as [x1|]; [|done]. simpl in Hext.
  destruct (math_log x1) as [logx1|] eqn:Hlog1; [|done]. simpl in Hext.
  apply math_log_Done in Hlog1 as [Hx1 ->].
  assert (math_log x0 = Done (libm_log x0)) as Hlog0
      by (unfold math_log; by rewrite Hx0).
  rewrite Hlog0 in Hext. simpl in Hext.
  destruct (F.le (libm_log x1 - libm_log x0) 0) eqn:Hx; [done|].
  assert (math_log x1 = Done (libm_log x1)) as Hlog1
      by (unfold math_log; by rewrite Hx1).
  exists x0, x1, y0, y1. do 8 (split; [done|]).
  destruct (has_key (xmin fix_lims)), (has_key (xmax fix_lims));
    simpl in Hext; rewrite ?Hlog1 in Hext; simpl in Hext; repeat
    match type of Hext with
    | context [math_exp ?a] =>
        let E := fresh "E" in
        destruct (math_exp a) eqn:E; [|done]; simpl in Hext;
        apply math_exp_Done in E
    end; injection Hext as <- <-; by subst.
Qed.

End ExtendFacts.

Section PlotGridTheorems.
Context `{SciPy} `{PyLib}.

Lemma fit_plots_empty fix_lims plots nr nc lims self :
  Forall (fun p => (0 <= p.1.1)%Z /\ (0 <= p.1.2)%Z /\ p.2.2 = []) plots ->
  exists fitted nr' nc',
    fit_plots fix_lims plots nr nc lims self
      = (Done (fitted, (nr', nc', lims)), self).
Proof.
  intros Hall. revert nr nc.
  induction Hall as [|[[irow icol] [title curvelist]] plots (Hr & Hc & Hnil) _ IH];
    intros nr nc.
  { by eexists _, _, _. }
  simpl in *. subst curvelist.
  destruct (Z.ltb_spec irow 0) as [?|_]; [lia|].
  destruct (Z.ltb_spec icol 0) as [?|_]; [lia|].
  destruct (IH (grow nr irow) (grow nc icol)) as (fitted & nr' & nc' & Hfit).
  unfold grow in Hfit. unfold pbind, pret. simpl. rewrite Hfit.
  by eexists _, _, _.
Qed.

(** X21: when [plotGrid] comes to create the figure, on a [CurveFits] in
    use, the grid has as many rows and columns as the largest row and
    column index of [plots] need, so every entry has its panel and the last
    row and the last column are used; every curve to draw is the cached
    curve of its serum, virus and replicate; and the [CurveFits] has only
    gone through calls of its methods. *)
Theorem plotGrid_grid self plots fix_lims bound_ymin bound_ymax extend_lim
    lay self' :
  reachable self ->
  plotGrid_layout plots fix_lims bound_ymin bound_ymax extend_lim self
    = (Done lay, self') ->
  bare <$> curves lay = plots /\
  (exists r c,
     nrows lay = Some r /\ ncols lay = Some c /\
     Forall (fun p => (0 <= p.1.1 < r)%Z /\ (0 <= p.1.2 < c)%Z) plots /\
     (exists p, p ∈ plots /\ p.1.1 = (r - 1)%Z) /\
     (exists p, p ∈ plots /\ p.1.2 = (c - 1)%Z)) /\
  reachable self' /\
  Forall (fun p =>
            Forall (fun cdo =>
                      _hillcurves self' !! (cd_serum cdo.1, cd_virus cdo.1,
                                            cd_replicate cdo.1) = Some cdo.2)
                   p.2.2) (curves lay).
Proof.
  intros Hreach Hlay. pose proof (reachable_cache_ok _ Hreach) as Hok.
  apply plotGrid_layout_Done in Hlay
    as (Hne & Hbare & Hpos & Hnr & Hnc & _ & Hsteps & Hcached); [|done].
  split; [done|]. split.
  - destruct (foldl_grow_None ((fun p => p.1.1) <$> plots))
      as (r & Hr & Hrall & i & Hi & ->).
    { by destruct plots. }
    destruct (foldl_grow_None ((fun p => p.1.2) <$> plots))
      as (c & Hc & Hcall & j & Hj & ->).
    { by destruct plots. }
    exists (i + 1)%Z, (j + 1)%Z. split; [congruence|]. split; [congruence|].
    split.
    + rewrite Forall_fmap in Hrall, Hcall. rewrite Forall_forall in *.
      intros p Hp. specialize (Hpos p Hp). specialize (Hrall p Hp).
      specialize (Hcall p Hp). simpl in *. lia.
    + apply list_elem_of_fmap in Hi as (p & -> & Hp).
      apply list_elem_of_fmap in Hj as (q & -> & Hq).
      split; [exists p | exists q]; (split; [done | lia]).
  - split; [|done].
    destruct Hreach as (data & c1 & c2 & c3 & c4 & c5 & fb & ft & self0
                        & Hinit & Hsteps0).
    exists data, c1, c2, c3, c4, c5, fb, ft, self0. split; [done|].
    by eapply steps_trans.
Qed.

(** X22: when neither 'xmin' nor 'xmax' is fixed, the x-limits that
    [plotGrid] sets are computed from the smallest and the largest
    concentration over all curves to draw: the range between them, on the
    log scale, is extended by [extend_lim] times its width on each side. *)
Theorem plotGrid_xlim self plots fix_lims bound_ymin bound_ymax extend_lim
    lay self' :
  reachable self ->
  xmin fix_lims = None -> xmax fix_lims = None ->
  plotGrid_layout plots fix_lims bound_ymin bound_ymax extend_lim self
    = (Done lay, self') ->
  let concentrations :=
    concat ((fun o => cs (obj o)) <$> all_curves (curves lay)) in
  exists lo hi,
    lo ∈ concentrations /\ hi ∈ concentrations /\
    Forall (fun c => F.le lo c = true /\ F.le c hi = true) concentrations /\
    F.gt lo 0 = true /\
    xlim lay =
      (libm_exp (libm_log lo - (libm_log hi - libm_log lo) * extend_lim),
       libm_exp (libm_log hi + (libm_log hi - libm_log lo) * extend_lim)).
Proof.
  intros Hreach Hfix0 Hfix1 Hlay conc.
  pose proof (reachable_cache_ok _ Hreach) as Hok.
  apply plotGrid_layout_Done in Hlay
    as (Hne & Hbare & Hpos & Hnr & Hnc & Hext & Hsteps & Hcached); [|done].
  assert (cache_ok self') as Hok' by (by apply (steps_sound _ _ Hsteps)).
  pose proof (layout_curves_fitted _ _ Hok' Hcached) as Hfitted.
  apply extend_lims_Done in Hext
    as (x0 & x1 & y0 & y1 & Hx0 & Hx1 & _ & _ & Hpos0 & _ & _ & _ & _ & Hxl).
  rewrite Hfix0, Hfix1 in Hxl. simpl in Hxl.
  match type of Hx0 with
  | xmin (foldl _ ?l0 _) = _ =>
      assert (opt_least (xmin l0) []) as Hnone0
        by (simpl; by rewrite Hfix0);
      assert (opt_greatest (xmax l0) []) as Hnone1
        by (simpl; by rewrite Hfix1);
      pose proof (foldl_widen_xmin fix_lims l0 _ [] Hfitted Hfix0 Hnone0)
        as Hleast;
      pose proof (foldl_widen_xmax fix_lims l0 _ [] Hfitted Hfix1 Hnone1)
        as Hgreatest
  end.
  rewrite Hx0 in Hleast. rewrite Hx1 in Hgreatest. simpl in *.
  rewrite <- list_fmap_compose in Hleast, Hgreatest.
  destruct Hleast as [Hin0 Hall0], Hgreatest as [Hin1 Hall1].
  exists x0, x1. split; [done|]. split; [done|]. split.
  - rewrite Forall_forall in *. intros c Hc. split; [by apply Hall0 | by apply Hall1].
  - split; [|done].
    rewrite Forall_forall in Hall0. specialize (Hall0 _ Hin0).
    apply F_le_no_nan in Hall0 as [Hnan _].
    change (F.gt x0 0) with (F.lt 0 x0).
    apply F_le_total; [done | done | done].
Qed.

(** X23: a limit that [fix_lims] fixes is the limit of the figure, except
    that a bound on the y-axis wins: with [bound_ymin] given, the lower
    y-limit is that bound whatever [fix_lims] says for 'ymin', and likewise
    for [bound_ymax]. *)
Theorem plotGrid_fixed_limits self plots fix_lims bound_ymin bound_ymax
    extend_lim lay self' :
  reachable self ->
  plotGrid_layout plots fix_lims bound_ymin bound_ymax extend_lim self
    = (Done lay, self') ->
  (forall x, xmin fix_lims = Some x -> (xlim lay).1 = x) /\
  (forall x, xmax fix_lims = Some x -> (xlim lay).2 = x) /\
  (forall y, ymin fix_lims = Some y -> (ylim lay).1 = default y bound_ymin) /\
  (forall y, ymax fix_lims = Some y -> (ylim lay).2 = default y bound_ymax).
Proof.
  intros Hreach Hlay. pose proof (reachable_cache_ok _ Hreach) as Hok.
  apply plotGrid_layout_Done in Hlay
    as (_ & _ & _ & _ & _ & Hext & _ & _); [|done].
  apply extend_lims_Done in Hext
    as (x0 & x1 & y0 & y1 & Hx0 & Hx1 & Hy0 & Hy1 & _ & _ & _ & _ & Hyl & Hxl).
  match type of Hx0 with
  | xmin (foldl _ ?l0 ?cs) = _ =>
      destruct (foldl_widen_fixed fix_lims l0 cs) as (K1 & K2 & K3 & K4)
  end.
  rewrite Hxl, Hyl. simpl. repeat split.
  - intros x Hx. rewrite Hx in *. simpl. rewrite K1 in Hx0 by done.
    simpl in Hx0. congruence.
  - intros x Hx. rewrite Hx in *. simpl. rewrite K2 in Hx1 by done.
    simpl in Hx1. congruence.
  - intros y Hy. rewrite Hy in *. simpl. rewrite K3 in Hy0 by done.
    simpl in Hy0. destruct bound_ymin; simpl; congruence.
  - intros y Hy. rewrite Hy in *. simpl. rewrite K4 in Hy1 by done.
    simpl in Hy1. destruct bound_ymax; simpl; congruence.
Qed.

(** X24: [plotGrid] raises the ValueError 'empty `plots`' on an empty
    [plots]; and when [plots] has entries but none of them has a curve, and
    'xmin' is not fixed, it raises KeyError('xmin'). Either way the
    [CurveFits] is as before. *)
Theorem plotGrid_without_curves self fix_lims bound_ymin bound_ymax extend_lim :
  plotGrid_layout [] fix_lims bound_ymin bound_ymax extend_lim self
    = (Fail (Std (ValueError "empty `plots`")), self) /\
  forall plots,
    plots <> [] ->
    Forall (fun p => (0 <= p.1.1)%Z /\ (0 <= p.1.2)%Z /\ p.2.2 = []) plots ->
    xmin fix_lims = None ->
    plotGrid_layout plots fix_lims bound_ymin bound_ymax extend_lim self
      = (Fail (Std (KeyError "xmin")), self).
Proof.
  split; [done|]. intros plots Hne Hall Hfix.
  unfold plotGrid_layout. destruct plots as [|p plots]; [done|].
  match goal with
  | |- pbind (fit_plots _ _ _ _ ?l0) _ _ = _ =>
      destruct (fit_plots_empty fix_lims (p :: plots) None None l0 self Hall)
        as (fitted & nr & nc & Hfit)
  end.
  unfold pbind at 1. rewrite Hfit. unfold pbind, plift. cbn [fst snd].
  unfold extend_lims. simpl. rewrite Hfix. done.
Qed.

End PlotGridTheorems.

Lemma init_indices_witness :
  CurveFits__init__ example_data "concentration" "fraction infectivity"
    "serum" "virus" "replicate" FixFalse (FixNum 1) = Ok example_self /\
  sera example_self = unique (row_serum <$> rows example_data) /\
  NoDup (sera example_self).
Proof.
  split; [exact example_init|].
  destruct (init_indices _ _ _ _ _ _ _ _ _ example_init) as (? & ? & _).
  by split.
Defined.

Lemma init_checks_witness :
  CurveFits__init__ example_data "concentration" "fraction infectivity"
    "serum" "virus" "replicate" FixFalse (FixNum 1) = Ok example_self /\
  forall row, row ∈ rows example_data -> row_replicate row <> "average"%string.
Proof.
  split; [exact example_init|].
  by destruct (init_checks _ _ _ _ _ _ _ _ _ example_init) as (_ & _ & ? & _).
Defined.

Lemma getCurve_invalid_key_witness :
  @reachable test_scipy example_self /\
  (("serum2", "virus1", "1")%string ∉ all_keys example_self) /\
  @getCurve test_scipy "serum2" "virus1" "1" example_self
  = (Raise (ValueError "invalid `serum` of serum2"), example_self).
Proof.
  split; [exact example_reachable|].
  assert (("serum2", "virus1", "1")%string ∉ all_keys example_self) as Hnot.
  { apply (bool_decide_unpack _). by vm_compute. }
  split; [done|].
  exact (@getCurve_invalid_key test_scipy example_self "serum2" "virus1" "1"
           example_reachable Hnot).
Defined.

Lemma getCurve_fits_its_rows_witness :
  @reachable test_scipy example_self /\
  @getCurve test_scipy "serum1" "virus1" "1" example_self
  = (Ok example_curve, example_self1) /\
  @fitted test_scipy (obj example_curve) /\
  StronglySorted (fun x y => F.le x y = true) (cs (obj example_curve)).
Proof.
  split; [exact example_reachable|]. split; [exact example_getCurve|].
  destruct (@getCurve_fits_its_rows test_scipy _ _ _ _ _ _ example_reachable
              example_getCurve) as (_ & _ & ? & _ & ?).
  by split.
Defined.

Lemma fitParams_describes_curves_witness :
  @reachable test_scipy example_self /\
  @fitParams test_scipy false example_self
  = (Ok example_table, (@fitParams test_scipy false example_self).2) /\
  forall k, k ∈ all_keys example_self ->
    is_Some (_hillcurves (@fitParams test_scipy false example_self).2 !! k).
Proof.
  split; [exact example_reachable|].
  assert (@fitParams test_scipy false example_self
          = (Ok example_table, (@fitParams test_scipy false example_self).2))
    as Hfit by (by vm_compute).
  split; [done|].
  by destruct (@fitParams_describes_curves test_scipy _ _ _ _ example_reachable
                 Hfit) as [? _].
Defined.

Lemma dataframe_rows_witness :
  @fitted test_scipy curve_mid /\
  @requested_concentrations test_scipy curve_mid Measured = Ok [] /\
  exists rows,
    @dataframe test_scipy curve_mid Measured = Ok rows /\
    length rows = 3.
Proof.
  split; [exact curve_mid_fitted|]. split; [done|].
  destruct (@dataframe_rows test_scipy curve_mid Measured [] curve_mid_fitted
              eq_refl) as (rows & Hrows & _ & Hlen & _).
  by exists rows.
Defined.

Lemma dataframe_auto_witness :
  @fitted test_scipy curve_single /\
  @dataframe test_scipy curve_single Auto
  = Raise (ValueError "`bottom` must be less than `top`").
Proof.
  split; [exact curve_single_fitted|].
  destruct (@dataframe_auto test_scipy curve_single curve_single_fitted)
    as (c0 & cN & Hc0 & HcN & Heq & _).
  injection Hc0 as <-. injection HcN as <-. by apply Heq.
Defined.

Lemma sera_viruses_lists_spec_witness :
  @reachable test_scipy example_self /\
  match @_sera_viruses_lists test_pylib example_self All
          (Listed ["virus1"%string]) with
  | Ok (ss, vs) => ss = sera example_self /\ vs = ["virus1"%string]
  | Raise _ => True
  end.
Proof.
  split; [exact example_reachable|].
  pose proof (@sera_viruses_lists_spec test_scipy test_pylib example_self All
                (Listed ["virus1"%string]) example_reachable) as Hspec.
  simpl in Hspec.
  destruct (@_sera_viruses_lists test_pylib example_self All
              (Listed ["virus1"%string])) as [[ss vs]|e]; [|done].
  by destruct Hspec as (? & _ & _ & ?).
Defined.

Lemma example_replicate_plots_Done :
  @plotReplicates_plots test_pylib example_self (Some 4%Z) None All All
    ["#999999"%string] ["o"%string] "{serum} vs {virus}" false
  = Done example_replicate_plots.
Proof. by vm_compute. Qed.

Lemma plotReplicates_grid_witness :
  @plotReplicates_plots test_pylib example_self (Some 4%Z) None All All
    ["#999999"%string] ["o"%string] "{serum} vs {virus}" false
  = Done example_replicate_plots /\
  example_replicate_plots <> [] /\ NoDup example_replicate_plots.*1.
Proof.
  split; [exact example_replicate_plots_Done|].
  destruct (@plotReplicates_grid test_pylib _ _ _ _ _ _ _ _ _ _
              example_replicate_plots_Done) as (? & columns & _ & _ & _ & ? & _).
  by split.
Defined.

Lemma plotReplicates_curves_witness :
  @plotReplicates_plots test_pylib example_self (Some 4%Z) None All All
    ["#999999"%string] ["o"%string] "{serum} vs {virus}" false
  = Done example_replicate_plots /\
  forall plot1 plot2 cd1 cd2,
    plot1 ∈ example_replicate_plots.*2 -> plot2 ∈ example_replicate_plots.*2 ->
    cd1 ∈ plot1.2 -> cd2 ∈ plot2.2 ->
    cd_replicate cd1 = cd_replicate cd2 ->
    cd_color cd1 = cd_color cd2 /\ cd_marker cd1 = cd_marker cd2.
Proof.
  split; [exact example_replicate_plots_Done|].
  by destruct (@plotReplicates_curves test_pylib _ _ _ _ _ _ _ _ _ _
                 example_replicate_plots_Done) as [_ ?].
Defined.

Lemma example_layout_Done fix_lims bound_ymin :
  fix_lims = no_limits /\ bound_ymin = None \/
  fix_lims = fixed_limits /\ bound_ymin = Some (-1)%float ->
  @plotGrid_layout test_scipy test_pylib example_plots fix_lims bound_ymin
    None default_extend example_self
  = (Done (example_layout fix_lims bound_ymin), example_self1).
Proof. intros [[-> ->]|[-> ->]]; by vm_compute. Qed.

Lemma plotGrid_grid_witness :
  @reachable test_scipy example_self /\
  @plotGrid_layout test_scipy test_pylib example_plots no_limits None None
    default_extend example_self
  = (Done (example_layout no_limits None), example_self1) /\
  bare <$> curves (example_layout no_limits None) = example_plots /\
  @reachable test_scipy example_self1.
Proof.
  split; [exact example_reachable|].
  pose proof (example_layout_Done no_limits None (or_introl (conj eq_refl eq_refl)))
    as Hlay.
  split; [exact Hlay|].
  destruct (@plotGrid_grid test_scipy test_pylib _ _ _ _ _ _ _ _
              example_reachable Hlay) as (? & _ & ? & _).
  by split.
Defined.

Lemma plotGrid_xlim_witness :
  @reachable test_scipy example_self /\
  @plotGrid_layout test_scipy test_pylib example_plots no_limits None None
    default_extend example_self
  = (Done (example_layout no_limits None), example_self1) /\
  exists lo hi,
    xlim (example_layout no_limits None) =
      (lo - (hi - lo) * default_extend, hi + (hi - lo) * default_extend)%float.
Proof.
  split; [exact example_reachable|].
  pose proof (example_layout_Done no_limits None (or_introl (conj eq_refl eq_refl)))
    as Hlay.
  split; [exact Hlay|].
  destruct (@plotGrid_xlim test_scipy test_pylib _ _ no_limits _ _ _ _ _
              example_reachable eq_refl eq_refl Hlay)
    as (lo & hi & _ & _ & _ & _ & Hx).
  by exists lo, hi.
Defined.

Lemma plotGrid_fixed_limits_witness :
  @reachable test_scipy example_self /\
  @plotGrid_layout test_scipy test_pylib example_plots fixed_limits
    (Some (-1)%float) None default_extend example_self
  = (Done (example_layout fixed_limits (Some (-1)%float)), example_self1) /\
  (xlim (example_layout fixed_limits (Some (-1)%float))).1 = 0.5%float /\
  (ylim (example_layout fixed_limits (Some (-1)%float))).1 = (-1)%float.
Proof.
  split; [exact example_reachable|].
  pose proof (example_layout_Done fixed_limits (Some (-1)%float)
                (or_intror (conj eq_refl eq_refl))) as Hlay.
  split; [exact Hlay|].
  destruct (@plotGrid_fixed_limits test_scipy test_pylib _ _ _ _ _ _ _ _
              example_reachable Hlay) as (Hx & _ & Hy & _).
  split; [by apply Hx | by apply (Hy 0%float)].
Defined.

Section PaletteFacts.
Context `{PyLib}.

(** The curves of the plots take their colors and markers by the position
    of their replicate in one list of distinct names. *)
Lemma plotReplicates_plots_palette self ncol nrow which_sera which_viruses
    colors markers titles show_average plots :
  plotReplicates_plots self ncol nrow which_sera which_viruses colors markers
    titles show_average = Done plots ->
  exists reps,
    NoDup reps /\
    forall plot cd,
      plot ∈ plots.*2 -> cd ∈ plot.2 ->
      exists j, reps !! j = Some (cd_replicate cd) /\
                colors !! j = Some (cd_color cd) /\
                markers !! j = Some (cd_marker cd).
Proof.
  intros Hp. apply plotReplicates_plots_Done in Hp
    as (chosen & cv & reps & plotlist & columns & Hlists & Hreps & Hpl & Hne
        & Hcols & Hp).
  assert (columns <> 0%Z) as Hnz.
  { intros ->. by destruct plotlist. }
  assert (0 < columns)%Z as Hpos.
  { unfold grid_columns in Hcols.
    destruct nrow as [rows|], ncol as [c|]; try done.
    - destruct (Z.ltb_spec 0 rows); [|done]. injection Hcols as <-.
      by apply ceil_div_covers.
    - destruct (Z.ltb_spec 0 c); [|done]. by injection Hcols as <-. }
  change 0%Z with (Z.of_nat 0) in Hp.
  rewrite (place_plots_Ok columns 0 plotlist []) in Hp by done.
  injection Hp as <-. simpl.
  rewrite snd_zip by (rewrite length_fmap, length_seq; lia).
  apply collect_replicates_Ok in Hreps as [Hnd _].
  exists reps. split.
  { apply Hnd. destruct show_average; [apply NoDup_singleton | constructor]. }
  apply build_plotlist_Done in Hpl. rewrite Forall_forall in Hpl.
  intros plot cd Hplot Hcd.
  destruct (Hpl plot Hplot) as (_ & s & v & _ & _ & _ & Hb).
  apply build_curvelist_Ok in Hb. rewrite Forall_forall in Hb.
  destruct (Hb cd Hcd) as (_ & _ & _ & _ & j & Hj & Hc & Hm).
  by exists j.
Qed.

(** X25: [plotReplicates] never draws more replicates than it has colors,
    nor more than it has markers: when it gets to hand its plots to
    [plotGrid], the distinct names of the replicates of their curves are
    at most [min(len(colors), len(markers))], although its own check
    compares their number with the longer of the two lists. *)
Theorem plotReplicates_within_palette self ncol nrow which_sera which_viruses
    colors markers titles show_average plots names :
  plotReplicates_plots self ncol nrow which_sera which_viruses colors markers
    titles show_average = Done plots ->
  NoDup names ->
  (forall name, name ∈ names ->
     exists plot cd, plot ∈ plots.*2 /\ cd ∈ plot.2 /\ cd_replicate cd = name) ->
  length names <= length colors `min` length markers.
Proof.
  intros Hp Hnames Hdrawn.
  apply plotReplicates_plots_palette in Hp as (reps & Hreps & Hpalette).
  set (m := length colors `min` length markers).
  assert (names ⊆+ take m reps) as Hsub.
  { apply NoDup_submseteq; [done|]. intros name Hname.
    destruct (Hdrawn name Hname) as (plot & cd & Hplot & Hcd & <-).
    destruct (Hpalette plot cd Hplot Hcd) as (j & Hj & Hc & Hm).
    apply lookup_lt_Some in Hc, Hm.
    apply list_elem_of_lookup. exists j. rewrite lookup_take_lt; [done|].
    unfold m. lia. }
  apply submseteq_length in Hsub. rewrite length_take in Hsub. lia.
Qed.

End PaletteFacts.

Lemma plotReplicates_within_palette_witness :
  @plotReplicates_plots test_pylib example_self (Some 4%Z) None All All
    ["#999999"%string] ["o"%string] "{serum} vs {virus}" false
  = Done example_replicate_plots /\
  length ["1"%string] <= length ["#999999"%string] `min` length ["o"%string].
Proof.
  split; [exact example_replicate_plots_Done|].
  apply (@plotReplicates_within_palette test_pylib _ _ _ _ _ _ _ _ _ _ _
           example_replicate_plots_Done).
  - apply NoDup_singleton.
  - intros name ->%list_elem_of_singleton.
    eexists _, _. split; [|split].
    + apply list_elem_of_here.
    + apply list_elem_of_here.
    + reflexivity.
Defined.

Lemma init_data_errors_witness :
  @HillCurve__init__ test_scipy [0]%float [1]%float None FixFalse FixFalse true
  = Raise (ValueError "concentrations in `cs` must all be > 0").
Proof.
  apply (@init_data_errors test_scipy [0]%float [1]%float None FixFalse
           FixFalse true).
  - simpl. lia.
  - done.
  - exists 0%float. split; [apply list_elem_of_here | reflexivity].
Defined.

Lemma plotGrid_without_curves_witness :
  @plotGrid_layout test_scipy test_pylib [(0%Z, 0%Z, (None, []))] no_limits
    None None default_extend example_self
  = (Fail (Std (KeyError "xmin")), example_self).
Proof.
  apply (@plotGrid_without_curves test_scipy test_pylib example_self no_limits
           None None default_extend).
  - done.
  - constructor; [|constructor]. simpl. repeat split; lia.
  - reflexivity.
Defined.
